(** * Disk Cleaner: the safety-scoped scan / report / apply engine

    A shallow embedding of the scan and apply handlers of [script.js] (the
    Node.js server part, lines 2030-2510) and of the plan reader and the
    deny-list of the shell front-end [disk_cleaner.sh], with the properties
    of the specification stated and proved (or refuted) over them.

    Conventions of the embedding:
    - paths are byte strings, as the code has them; nothing is a list of
      segments unless the code (or Node's [path] module) makes it one;
    - JavaScript numbers that the code uses as byte counts, days and
      milliseconds are integers ([Z]); where the code adds byte counts,
      the sum is rounded as a double rounds it ([addNumber]); fractional
      values and infinities are outside the model;
    - the filesystem is an abstract state with the [fs] calls the code uses
      as operations ([FsOps]); a call that throws returns an error next to
      the state it leaves behind;
    - a JavaScript array used as a stack has its top at the head of the list;
      an array built by [push] is a list extended at its end. *)

From Stdlib Require Import ZArith Ascii String Lia.
From stdpp Require Import base option list gmap strings sorting pretty.

Local Open Scope Z_scope.

(** * Part I: the program *)

(** ** Strings *)

Module Str.

(** [s.startsWith(pre)] *)
Fixpoint startsWith (s pre : string) {struct pre} : bool :=
  match pre with
  | EmptyString => true
  | String c pre' =>
      match s with
      | EmptyString => false
      | String d s' => if Ascii.eqb c d then startsWith s' pre' else false
      end
  end.

(** [s.includes(sub)] *)
Fixpoint includes (s sub : string) : bool :=
  startsWith s sub ||
  match s with
  | EmptyString => false
  | String _ s' => includes s' sub
  end.

(** [s.endsWith(suf)] *)
Fixpoint endsWith (s suf : string) : bool :=
  String.eqb s suf ||
  match s with
  | EmptyString => false
  | String _ s' => endsWith s' suf
  end.

Definition isEmpty (s : string) : bool :=
  match s with EmptyString => true | _ => false end.

(** [s.split(sep)] for a one-character separator: never the empty list. *)
Fixpoint split (sep : ascii) (s : string) : list string :=
  match s with
  | EmptyString => [EmptyString]
  | String c s' =>
      if Ascii.eqb c sep then EmptyString :: split sep s'
      else match split sep s' with
           | [] => [String c EmptyString]
           | seg :: rest => String c seg :: rest
           end
  end.

(** [parts.join(sep)] *)
Fixpoint join (sep : string) (parts : list string) : string :=
  match parts with
  | [] => EmptyString
  | [a] => a
  | a :: rest => a +:+ sep +:+ join sep rest
  end.

(** The character [c] occurs in [s]. *)
Fixpoint hasChar (c : ascii) (s : string) : bool :=
  match s with
  | EmptyString => false
  | String d s' => Ascii.eqb c d || hasChar c s'
  end.

Fixpoint dropWhile (f : ascii -> bool) (s : string) : string :=
  match s with
  | EmptyString => EmptyString
  | String c s' => if f c then dropWhile f s' else s
  end.

(** [s.trim()], on the six ASCII white space characters. JavaScript also
    strips the white space outside ASCII (U+00A0, U+FEFF and others),
    which the byte strings of the model do not tell apart. *)
Definition trim (s : string) : string :=
  String.rev (dropWhile Ascii.is_space (String.rev (dropWhile Ascii.is_space s))).

(** [s] without its prefix [pre], when it has it. *)
Fixpoint stripPrefix (pre s : string) {struct pre} : option string :=
  match pre with
  | EmptyString => Some s
  | String c pre' =>
      match s with
      | EmptyString => None
      | String d s' => if Ascii.eqb c d then stripPrefix pre' s' else None
      end
  end.

(** What follows the first occurrence of [sub] in [s]. *)
Fixpoint after (sub s : string) : option string :=
  match stripPrefix sub s with
  | Some r => Some r
  | None =>
      match s with
      | EmptyString => None
      | String _ s' => after sub s'
      end
  end.

(** [s] cut at the first character [c]: what is before it and after it. *)
Fixpoint cutAt (c : ascii) (s : string) : option (string * string) :=
  match s with
  | EmptyString => None
  | String d s' =>
      if Ascii.eqb c d then Some (EmptyString, s')
      else match cutAt c s' with
           | Some (a, b) => Some (String d a, b)
           | None => None
           end
  end.

Fixpoint last (s : string) : option ascii :=
  match s with
  | EmptyString => None
  | String c EmptyString => Some c
  | String _ s' => last s'
  end.

End Str.

(** ** Node's [path] module (POSIX flavour)

    [path.resolve], [path.join], [path.normalize] and [path.basename] belong
    to the Node runtime, not to the repository; they are modelled after
    [lib/path.js]: the path is cut at the separators, empty and [.] segments
    are dropped, and [..] removes the segment before it. *)

Module Path.

Definition sep : string := "/".

Definition isAbsolute (p : string) : bool := Str.startsWith p "/".

(** One step of [normalizeString]: [acc] is the result so far, last
    segment first. *)
Definition normStep (allowAboveRoot : bool) (acc : list string) (seg : string)
  : list string :=
  if String.eqb seg "" then acc
  else if String.eqb seg "." then acc
  else if String.eqb seg ".." then
    match acc with
    | top :: rest =>
        if String.eqb top ".." then (if allowAboveRoot then ".." :: acc else acc)
        else rest
    | [] => if allowAboveRoot then [".."] else []
    end
  else seg :: acc.

Definition normalizeSegs (allowAboveRoot : bool) (segs : list string) : list string :=
  rev (fold_left (normStep allowAboveRoot) segs []).

Definition normalizeString (p : string) (allowAboveRoot : bool) : string :=
  Str.join "/" (normalizeSegs allowAboveRoot (Str.split "/" p)).

(** [path.normalize(p)] *)
Definition normalize (p : string) : string :=
  if Str.isEmpty p then "."
  else
    let isAbs := isAbsolute p in
    let trailing := bool_decide (Str.last p = Some "/"%char) in
    let n := normalizeString p (negb isAbs) in
    if Str.isEmpty n then
      (if isAbs then "/" else if trailing then "./" else ".")
    else
      let n' := if trailing then n +:+ "/" else n in
      if isAbs then "/" +:+ n' else n'.

(** [path.join(...parts)] *)
Definition join (parts : list string) : string :=
  let joined := Str.join "/" (filter (fun s => s <> EmptyString) parts) in
  if Str.isEmpty joined then "." else normalize joined.

(** [path.basename(p)] *)
Definition basename (p : string) : string :=
  match filter (fun s => s <> EmptyString) (rev (Str.split "/" p)) with
  | [] => ""
  | s :: _ => s
  end.

Section Resolve.
(** [process.cwd()] *)
Variable cwd : string.

(** What [path.resolve(p)] has accumulated when its loop ends: the text
    to normalise and whether an absolute part was met. *)
Definition resolveRaw (p : string) : string * bool :=
  let '(acc, abs) :=
    if Str.isEmpty p then (EmptyString, false) else (p +:+ "/", isAbsolute p) in
  if abs then (acc, abs)
  else if Str.isEmpty cwd then (acc, abs)
  else (cwd +:+ "/" +:+ acc, isAbsolute cwd).

(** The segments of [path.resolve(p)]. *)
Definition resolveSegs (p : string) : list string :=
  let '(raw, abs) := resolveRaw p in
  normalizeSegs (negb abs) (Str.split "/" raw).

(** [path.resolve(p)] *)
Definition resolve (p : string) : string :=
  let '(raw, abs) := resolveRaw p in
  let n := normalizeString raw (negb abs) in
  if abs then "/" +:+ n
  else if Str.isEmpty n then "." else n.
End Resolve.

End Path.

(** ** SafetyPolicy: home scope and deny-list ([script.js] 2073-2094) *)

Section Safety.
(** [os.homedir()] and [process.cwd()] *)
Variables HOME cwd : string.

(** The regular expression [/\.photoslibrary[\/\\]/] *)
Definition matchPhotosLibrary (s : string) : bool :=
  Str.includes s ".photoslibrary/" || Str.includes s ".photoslibrary\".

Definition pics : string := Path.join [HOME; "Pictures"].
Definition mail : string := Path.join [HOME; "Library"; "Mail"].
Definition icloudDocs : string := Path.join [HOME; "Library"; "Mobile Documents"].
Definition desktop : string := Path.join [HOME; "Desktop"].
Definition documents : string := Path.join [HOME; "Documents"].

Definition isDenyListed (p : string) : bool :=
  let normalized := Path.resolve cwd p in
  if Str.startsWith normalized (Path.resolve cwd pics) then true
  else if matchPhotosLibrary normalized then true
  else if Str.startsWith normalized (Path.resolve cwd mail) then true
  else if Str.startsWith normalized (Path.resolve cwd icloudDocs) then true
  else if Str.startsWith normalized (Path.resolve cwd desktop) then true
  else if Str.startsWith normalized (Path.resolve cwd documents) then true
  else false.

Definition ensureHomeScoped (p : string) : bool :=
  let normalized := Path.resolve cwd p in
  Str.startsWith normalized (Path.resolve cwd HOME +:+ Path.sep).

End Safety.

(** ** The filesystem as the code sees it *)

Inductive FileKind := KFile | KDir | KSymlink | KOther.

(** [fs.Stats]: which of [isSymbolicLink()], [isDirectory()], [isFile()]
    holds, [size] and [mtimeMs]. *)
Record Stats := { st_kind : FileKind; st_size : Z; st_mtimeMs : Z }.

(** [fs.Dirent], from [readdir(dir, { withFileTypes: true })] *)
Record Dirent := { d_name : string; d_isDirectory : bool }.

(** The result of a call that can throw. *)
Inductive Outcome (A : Type) :=
| Ok (a : A)
| Throw (e : string).
Arguments Ok {A} a.
Arguments Throw {A} e.

(** The [fs] calls of the two handlers over a filesystem state [FS]. A
    mutating call returns the state it leaves and, when it throws, the
    error. *)
Class FsOps (FS : Type) := {
  existsSync : FS -> string -> bool;
  readdir : FS -> string -> Outcome (list Dirent);
  lstat : FS -> string -> Outcome Stats;
  statSync : FS -> string -> Outcome Stats;
  mkdirSync : FS -> string -> FS * option string;
  renameSync : FS -> string -> string -> FS * option string;
  rmSync : FS -> string -> bool -> FS * option string
}.

(** ** Collector: [walkCollect] ([script.js] 2196-2242) *)

(** [opts]: a field is [None] when it is [undefined]. *)
Record Opts := { minBytes : option Z; olderDays : option Z }.

Record Item := {
  path : string;
  bytes : Z;
  mtime : Z;
  category : string;
  reason : string;
  trashable : bool
}.

(** The filter of lines 2221-2227 on a regular file: [false] is [continue].
    [now] is [Date.now()]. *)
Definition passesFilters (opts : Opts) (now : Z) (st : Stats) : bool :=
  let bytes := st_size st in
  if match minBytes opts with
     | Some m => negb (m =? 0) && (bytes <? m)
     | None => false
     end
  then false
  else
    let mtimeMs := st_mtimeMs st in
    match olderDays opts with
    | Some d =>
        if 0 <? d then
          let ageMs := now - mtimeMs in
          if ageMs <? d * 86400 * 1000 then false else true
        else true
    | None => true
    end.

Section Collector.
Context {FS : Type} `{FsOps FS}.
Variables HOME cwd : string.
Variable fs : FS.
(** [Date.now()] during the walk *)
Variable now : Z.

Section Walk.
Variable opts : Opts.
Variables reason_ category_ : string.

(** The body of [for (const ent of ents)], on the pending stack and the
    items pushed so far. *)
Definition walkEntry (current : string) (acc : list string * list Item)
  (ent : Dirent) : list string * list Item :=
  let '(stack, items) := acc in
  let full := Path.join [current; d_name ent] in
  if negb (ensureHomeScoped HOME cwd full) || isDenyListed HOME cwd full then acc
  else
    match lstat fs full with
    | Throw _ => acc
    | Ok st =>
        match st_kind st with
        | KSymlink => acc
        | KDir => (full :: stack, items)
        | KFile =>
            if passesFilters opts now st then
              (stack, items ++ [{| path := full;
                                   bytes := st_size st;
                                   mtime := st_mtimeMs st / 1000;
                                   category := category_;
                                   reason := reason_;
                                   trashable := true |}])
            else acc
        | KOther => acc
        end
    end.

(** [while (stack.length)]: one unit of fuel per directory popped;
    [None] when the fuel runs out first. *)
Fixpoint walkLoop (fuel : nat) (stack : list string) (items : list Item)
  : option (list Item) :=
  match stack with
  | [] => Some items
  | current :: rest =>
      match fuel with
      | O => None
      | S fuel' =>
          match readdir fs current with
          | Throw _ => walkLoop fuel' rest items
          | Ok ents =>
              let '(stack', items') := fold_left (walkEntry current) ents (rest, items) in
              walkLoop fuel' stack' items'
          end
      end
  end.

Definition walkCollect (fuel : nat) (baseDir : string) (items : list Item)
  : option (list Item) :=
  walkLoop fuel [baseDir] items.

(** [if (fs.existsSync(d)) await walkCollect(d, ...)] *)
Definition walkIfExists (fuel : nat) (d : string) (items : list Item)
  : option (list Item) :=
  if existsSync fs d then walkCollect fuel d items else Some items.

(** [for (const d of dirs) if (fs.existsSync(d)) await walkCollect(d, ...)] *)
Fixpoint walkEach (fuel : nat) (dirs : list string) (items : list Item)
  : option (list Item) :=
  match dirs with
  | [] => Some items
  | d :: dirs' =>
      match walkIfExists fuel d items with
      | None => None
      | Some items' => walkEach fuel dirs' items'
      end
  end.
End Walk.

(** [listDirs(dir)] ([script.js] 2187-2194) *)
Definition listDirs (dir : string) : list string :=
  match readdir fs dir with
  | Throw _ => []
  | Ok ents => map (fun e => Path.join [dir; d_name e]) (filter (fun e => d_isDirectory e = true) ents)
  end.

End Collector.

(** ** Query parameters: [parseQuery] ([script.js] 2109-2120) *)

(** A value of [url.parse(reqUrl, true).query]: absent, one string, or an
    array when the parameter is repeated. *)
Inductive QVal := QAbsent | QStr (s : string) | QArr (l : list string).

(** The parsed query string. The two numeric fields hold [Number(q.x)] when
    it is finite ([None] when it is not, as for an absent parameter). *)
Record RawQuery := {
  r_minSize : option Z;
  r_olderThan : option Z;
  r_include : QVal;
  r_exclude : QVal;
  r_downloads : QVal;
  r_dryRun : QVal;
  r_mode : QVal
}.

Record Query := {
  q_minSize : option Z;
  q_olderThan : option Z;
  q_include : option (list string);
  q_exclude : option (list string);
  q_downloads : bool;
  q_dryRun : bool;
  q_mode : string
}.

(** [v === s] *)
Definition qIs (v : QVal) (s : string) : bool :=
  match v with
  | QStr x => String.eqb x s
  | _ => false
  end.

(** [typeof v === 'string' && v.trim() ? v.split(',').map(s => s.trim()).filter(Boolean) : undefined] *)
Definition parseList (v : QVal) : option (list string) :=
  match v with
  | QStr s =>
      if Str.isEmpty (Str.trim s) then None
      else Some (filter (fun x => x <> EmptyString) (map Str.trim (Str.split "," s)))
  | _ => None
  end.

Definition parseQuery (q : RawQuery) : Query :=
  {| q_minSize := r_minSize q;
     q_olderThan := r_olderThan q;
     q_include := parseList (r_include q);
     q_exclude := parseList (r_exclude q);
     q_downloads := qIs (r_downloads q) "1" || qIs (r_downloads q) "true";
     q_dryRun := qIs (r_dryRun q) "1" || qIs (r_dryRun q) "true";
     q_mode := if qIs (r_mode q) "delete" then "delete" else "trash" |}.

(** ** Numbers

    A JavaScript number is an IEEE 754 double. Every integer up to 2^53 in
    magnitude is one; above, a double is a multiple of a power of two with
    a significand of 53 bits. *)

(** The double nearest to the integer [z], a tie going to the even
    significand. The exponent has no bound here: a sum of magnitude 2^1024
    or more is [Infinity] in JavaScript and is outside the model. *)
Definition roundDouble (z : Z) : Z :=
  if Z.abs z <=? 2 ^ 53 then z
  else
    let e := Z.log2 (Z.abs z) - 52 in
    let q := Z.abs z / 2 ^ e in
    let r := Z.abs z mod 2 ^ e in
    let q' := if 2 * r <? 2 ^ e then q
              else if 2 ^ e <? 2 * r then q + 1
              else if Z.even q then q else q + 1 in
    Z.sgn z * (q' * 2 ^ e).

(** [a + b] on two integers *)
Definition addNumber (a b : Z) : Z := roundDouble (a + b).

(** [total += n] for each [n] of a list in turn, from 0 *)
Definition floatSum (l : list Z) : Z := fold_left addNumber l 0.

(** ** ReportBuilder and ScanCache: [scanHandler] ([script.js] 2244-2386) *)

Definition SCAN_CACHE_TTL_MS : Z := 5 * 60 * 1000.
Definition DEFAULT_MIN_BYTES : Z := 50 * 1024 * 1024.
Definition DEFAULT_OLDER_DAYS : Z := 30.

Record Totals := { count : Z; bytes_total : Z }.

Record Report := {
  generatedAt : Z;
  home : string;
  totals : Totals;
  categories : list string;
  items : list Item
}.

(** [items.reduce((acc, it) => { acc.count += 1; acc.bytes += Number(it.bytes) || 0; return acc }, { count: 0, bytes: 0 })].
    The count stays below 2^32, the bound on the length of an array, so
    adding 1 to it is exact. *)
Definition sumTotals (its : list Item) : Totals :=
  fold_left (fun acc it => {| count := count acc + 1;
                              bytes_total := addNumber (bytes_total acc) (bytes it) |})
            its {| count := 0; bytes_total := 0 |}.

(** The cache key: the object given to [JSON.stringify], field by field. *)
Definition CacheKey : Type := Z * Z * list string * bool.

(** [cats.includes(c)] *)
Definition includes (cats : list string) (c : string) : bool := bool_decide (c ∈ cats).

Section Scan.
Context {FS : Type} `{FsOps FS}.
Variables HOME cwd : string.
(** What [brew --cache] prints, trimmed; [None] when no [brew] is installed
    or the command fails (lines 2298-2309). *)
Variable brewCache : option string.

(** [options] (lines 2246-2247 and 2272): an absent parameter takes the
    default. *)
Definition scanOptions (q : Query) : Opts :=
  {| minBytes := Some (default DEFAULT_MIN_BYTES (q_minSize q));
     olderDays := Some (default DEFAULT_OLDER_DAYS (q_olderThan q)) |}.

(** The effective categories (lines 2250-2255). *)
Definition effectiveCats (q : Query) : list string :=
  let cats := ["user-caches"; "browsers"; "dev"; "pkg"] in
  let cats := if q_downloads q then cats ++ ["downloads"] else cats in
  let cats := match q_include q with
              | Some (c :: inc) => c :: inc
              | _ => cats
              end in
  match q_exclude q with
  | Some (e :: exc) => filter (fun c => negb (includes (e :: exc) c) = true) cats
  | _ => cats
  end.

(** The body of the [try] block (lines 2275-2364): every walk in turn, on
    the same [items] array. *)
Definition collectAll (fuel : nat) (fs : FS) (now : Z) (options : Opts)
  (cats : list string) : option (list Item) :=
  let walk1 := walkIfExists HOME cwd fs now options in
  let walkN := walkEach HOME cwd fs now options in
  items ← (if includes cats "user-caches" then
             walk1 "User Library cache" "user-caches" fuel
                   (Path.join [HOME; "Library"; "Caches"]) []
           else Some []);
  items ← (if includes cats "browsers" then
             walkN "Browser cache" "browsers" fuel
                   [Path.join [HOME; "Library"; "Caches"; "com.apple.Safari"];
                    Path.join [HOME; "Library"; "Caches"; "Google"; "Chrome"];
                    Path.join [HOME; "Library"; "Caches"; "Microsoft Edge"];
                    Path.join [HOME; "Library"; "Caches"; "Firefox"; "Profiles"]] items
           else Some items);
  items ← (if includes cats "dev" then
             walkN "Developer cache" "dev" fuel
                   [Path.join [HOME; "Library"; "Developer"; "Xcode"; "DerivedData"];
                    Path.join [HOME; "Library"; "Developer"; "Xcode"; "iOS DeviceSupport"];
                    Path.join [HOME; "Library"; "Developer"; "CoreSimulator"; "Caches"]] items
           else Some items);
  items ← (if includes cats "pkg" then
             items ← match brewCache with
                     | Some bcache =>
                         if negb (Str.isEmpty bcache) && existsSync fs bcache
                         then walkCollect HOME cwd fs now options "Homebrew cache" "pkg" fuel bcache items
                         else Some items
                     | None => Some items
                     end;
             walkN "Package manager cache" "pkg" fuel
                   [Path.join [HOME; ".npm"; "_cacache"];
                    Path.join [HOME; "Library"; "Caches"; "npm"];
                    Path.join [HOME; "Library"; "Caches"; "Yarn"];
                    Path.join [HOME; "Library"; "pnpm"; "store"];
                    Path.join [HOME; "Library"; "Caches"; "pnpm"];
                    Path.join [HOME; ".cache"; "pip"];
                    Path.join [HOME; "Library"; "Caches"; "pip"];
                    Path.join [HOME; ".cache"; "pipx"]] items
           else Some items);
  items ← (if includes cats "downloads" then
             walk1 "Downloads item" "downloads" fuel (Path.join [HOME; "Downloads"]) items
           else Some items);
  if includes cats "deep" then
    let containers := Path.join [HOME; "Library"; "Containers"] in
    items ← (if existsSync fs containers then
               walkN "App container cache" "deep" fuel
                     (map (fun appDir => Path.join [appDir; "Data"; "Library"; "Caches"])
                          (listDirs fs containers)) items
             else Some items);
    let devicesRoot := Path.join [HOME; "Library"; "Developer"; "CoreSimulator"; "Devices"] in
    items ← (if existsSync fs devicesRoot then
               walkN "Simulator device cache" "deep" fuel
                     (map (fun devDir => Path.join [devDir; "data"; "Library"; "Caches"])
                          (listDirs fs devicesRoot)) items
             else Some items);
    items ← walk1 "Xcode archive content" "deep" fuel
                  (Path.join [HOME; "Library"; "Developer"; "Xcode"; "Archives"]) items;
    walk1 "Logs" "deep" fuel (Path.join [HOME; "Library"; "Logs"]) items
  else Some items.

(** [scanHandler]: the report sent with status 200 and the cache after the
    call; [None] when the fuel does not cover the walks. No call inside
    the [try] block throws in this model, so the 500 answer is not
    reached. [now] is one reading of the clock for the whole call: the
    code reads it again for the cache test (line 2265), for each file of
    the walk (2225), for [generatedAt] (2376) and for the cache stamp
    (2384), in this order, so in the code the stamp is not earlier than
    [generatedAt]. *)
Definition scanHandler (fuel : nat) (fs : FS) (now : Z)
  (scanCache : gmap CacheKey (Z * Report)) (rq : RawQuery)
  : option (Report * gmap CacheKey (Z * Report)) :=
  let q := parseQuery rq in
  let minBytes := default DEFAULT_MIN_BYTES (q_minSize q) in
  let olderDays := default DEFAULT_OLDER_DAYS (q_olderThan q) in
  let cats := effectiveCats q in
  let cacheKey : CacheKey := (minBytes, olderDays, merge_sort String.le cats, q_downloads q) in
  let fresh :=
    let options := scanOptions q in
    items ← collectAll fuel fs now options cats;
    let body := {| generatedAt := now;
                   home := HOME;
                   totals := sumTotals items;
                   categories := cats;
                   items := items |} in
    Some (body, <[cacheKey := (now, body)]> scanCache) in
  match scanCache !! cacheKey with
  | Some (ts, body) =>
      if now - ts <? SCAN_CACHE_TTL_MS then Some (body, scanCache) else fresh
  | None => fresh
  end.

End Scan.

(** ** PlanExecutor and TrashMover: [applyHandler] ([script.js] 2388-2482) *)

(** A parsed JSON text. Numbers are the integers that [String] writes in
    decimal digits (magnitude below 10^21). *)
#[local] Unset Elimination Schemes.
Inductive JSON :=
| JNull
| JBool (b : bool)
| JNum (n : Z)
| JStr (s : string)
| JArr (l : list JSON)
| JObj (fields : list (string * JSON)).
#[local] Set Elimination Schemes.

(** JavaScript truthiness of a JSON value. *)
Definition truthy (j : JSON) : bool :=
  match j with
  | JNull => false
  | JBool b => b
  | JNum n => negb (n =? 0)
  | JStr s => negb (Str.isEmpty s)
  | JArr _ | JObj _ => true
  end.

(** The last field named [k], as [JSON.parse] keeps it. *)
Fixpoint lookupField (k : string) (fields : list (string * JSON)) : option JSON :=
  match fields with
  | [] => None
  | (k', v) :: rest =>
      match lookupField k rest with
      | Some v' => Some v'
      | None => if String.eqb k k' then Some v else None
      end
  end.

(** [String(j)]. An array is joined with commas, [null] giving the empty
    text. An object goes through its [toString]: the one of
    [Object.prototype], unless the object has a field of that name, which
    hides it; the value of a field is never a function, [valueOf] gives
    the object back, and the conversion throws. *)
Fixpoint jsString (j : JSON) : Outcome string :=
  match j with
  | JNull => Ok "null"
  | JBool b => Ok (if b then "true" else "false")
  | JNum n => Ok (pretty n)
  | JStr s => Ok s
  | JArr l =>
      match
        (fix each (l : list JSON) : Outcome (list string) :=
           match l with
           | [] => Ok []
           | x :: rest =>
               match match x with JNull => Ok "" | _ => jsString x end with
               | Throw e => Throw e
               | Ok s =>
                   match each rest with
                   | Throw e => Throw e
                   | Ok ss => Ok (s :: ss)
                   end
               end
           end) l
      with
      | Throw e => Throw e
      | Ok ss => Ok (Str.join "," ss)
      end
  | JObj fields =>
      match lookupField "toString" fields with
      | Some _ => Throw "TypeError: Cannot convert object to primitive value"
      | None => Ok "[object Object]"
      end
  end.

(** [j[k]] for a key that no prototype defines: it throws on [null] and is
    [undefined] ([None]) on a value without that field. *)
Definition getProp (j : JSON) (k : string) : Outcome (option JSON) :=
  match j with
  | JNull => Throw "TypeError: Cannot read properties of null"
  | JObj fields => Ok (lookupField k fields)
  | _ => Ok None
  end.

(** [String(it.path || '')] (line 2433) *)
Definition itemPath (it : JSON) : Outcome string :=
  match getProp it "path" with
  | Throw e => Throw e
  | Ok (Some v) => if truthy v then jsString v else Ok ""
  | Ok None => Ok ""
  end.

(** One entry of [details]:
    [{ path, status: 'missing' }],
    [{ path, status: 'skipped', reason }],
    [{ path, status: 'dry', action, bytes }],
    [{ path, status: 'deleted', bytes }],
    [{ path, status: 'trashed', dest, bytes }],
    [{ path, status: 'error', error }]. *)
Inductive Detail :=
| DMissing (p : string)
| DSkipped (p : string) (why : string)
| DDry (p : string) (action : string) (n : Z)
| DDeleted (p : string) (n : Z)
| DTrashed (p : string) (dest : string) (n : Z)
| DError (p : string) (error : string).

Definition detailPath (d : Detail) : string :=
  match d with
  | DMissing p | DSkipped p _ | DDry p _ _ | DDeleted p _ | DTrashed p _ _ | DError p _ => p
  end.

(** The bytes an entry adds to the summary, when it adds any. *)
Definition countedBytes (d : Detail) : option Z :=
  match d with
  | DDry _ _ n | DDeleted _ n | DTrashed _ _ n => Some n
  | _ => None
  end.

(** A mutating [fs] call made by the handler. *)
Inductive FsCall :=
| CallMkdir (p : string)
| CallRename (src dest : string)
| CallRm (p : string) (recursive : bool).

Definition isRm (c : FsCall) : bool :=
  match c with CallRm _ _ => true | _ => false end.

(** The [summary] of the answer, without [human], the same bytes written
    for display. *)
Record Summary := {
  s_count : Z;
  s_bytes : Z;
  s_dryRun : bool;
  s_mode : string
}.

Inductive ApplyResponse :=
| Resp400 (error : string)
| Resp200 (summary : Summary) (details : list Detail).

Section Apply.
Context {FS : Type} `{FsOps FS}.
Variables HOME cwd : string.
(** [JSON.parse]: [None] when it throws. *)
Variable JSON_parse : string -> option JSON.
(** The text that line 2411 derives from the clock. *)
Variable ts : string.

(** [readJsonBody]: [None] is [null]. *)
Definition readJsonBody (txt : string) : option JSON :=
  if Str.isEmpty (Str.trim txt) then None else JSON_parse txt.

(** The items of a plan that passes the guard of line 2424. *)
Definition planItems (plan : option JSON) : option (list JSON) :=
  match plan with
  | Some (JObj fields) =>
      match lookupField "items" fields with
      | Some (JArr its) => Some its
      | _ => None
      end
  | _ => None
  end.

(** The handler's view of the world while it runs: the filesystem and the
    mutating calls made on it so far. *)
Record World := { w_fs : FS; w_calls : list FsCall }.

Definition ensureTrashDir (w : World) : World * option string :=
  let t := Path.join [HOME; ".Trash"] in
  if existsSync (w_fs w) t then (w, Some t)
  else
    let '(fs', err) := mkdirSync (w_fs w) t in
    let w' := {| w_fs := fs'; w_calls := w_calls w ++ [CallMkdir t] |} in
    match err with
    | None => (w', Some t)
    | Some _ => (w', None)
    end.

Definition safeTrashMove (w : World) (p : string) : World * Outcome string :=
  match ensureTrashDir w with
  | (w1, None) => (w1, Throw "Error: Cannot access ~/.Trash")
  | (w1, Some trashDir) =>
      let name := Path.basename p in
      let dest := Path.join [trashDir; name] in
      let dest := if existsSync (w_fs w1) dest
                  then Path.join [trashDir; name +:+ "-" +:+ ts] else dest in
      let '(fs', err) := renameSync (w_fs w1) p dest in
      let w2 := {| w_fs := fs'; w_calls := w_calls w1 ++ [CallRename p dest] |} in
      match err with
      | None => (w2, Ok dest)
      | Some e => (w2, Throw e)
      end
  end.

(** The state of the loop of lines 2432-2470. *)
Record ApplyState := {
  a_world : World;
  a_details : list Detail;
  a_totalBytes : Z;
  a_count : Z
}.

Definition pushDetail (a : ApplyState) (d : Detail) : ApplyState :=
  {| a_world := a_world a; a_details := a_details a ++ [d];
     a_totalBytes := a_totalBytes a; a_count := a_count a |}.

(** [totalBytes += bytes; count++] *)
Definition pushCounted (a : ApplyState) (w : World) (d : Detail) (n : Z) : ApplyState :=
  {| a_world := w; a_details := a_details a ++ [d];
     a_totalBytes := addNumber (a_totalBytes a) n; a_count := a_count a + 1 |}.

Definition pushError (a : ApplyState) (w : World) (d : Detail) : ApplyState :=
  {| a_world := w; a_details := a_details a ++ [d];
     a_totalBytes := a_totalBytes a; a_count := a_count a |}.

(** The loop body on a path [p]. *)
Definition applyPath (dryRun : bool) (mode : string) (a : ApplyState) (p : string)
  : ApplyState :=
  let w := a_world a in
  if Str.isEmpty p || negb (existsSync (w_fs w) p) then pushDetail a (DMissing p)
  else if negb (ensureHomeScoped HOME cwd p) then pushDetail a (DSkipped p "outside_home")
  else if isDenyListed HOME cwd p then pushDetail a (DSkipped p "deny_listed")
  else
    let st := match statSync (w_fs w) p with Ok s => Some s | Throw _ => None end in
    let n := match st with Some s => st_size s | None => 0 end in
    if dryRun then
      pushCounted a w (DDry p (if String.eqb mode "delete" then "delete" else "trash") n) n
    else if String.eqb mode "delete" then
      let recursive := match st with
                       | Some s => match st_kind s with KDir => true | _ => false end
                       | None => false
                       end in
      let '(fs', err) := rmSync (w_fs w) p recursive in
      let w' := {| w_fs := fs'; w_calls := w_calls w ++ [CallRm p recursive] |} in
      match err with
      | None => pushCounted a w' (DDeleted p n) n
      | Some e => pushError a w' (DError p e)
      end
    else
      match safeTrashMove w p with
      | (w', Ok dest) => pushCounted a w' (DTrashed p dest n) n
      | (w', Throw e) => pushError a w' (DError p e)
      end.

(** [for (const it of plan.items)]: an exception that leaves the loop body
    ends the handler with the state reached so far. *)
Fixpoint applyLoop (dryRun : bool) (mode : string) (its : list JSON) (a : ApplyState)
  : ApplyState * option string :=
  match its with
  | [] => (a, None)
  | it :: rest =>
      match itemPath it with
      | Throw e => (a, Some e)
      | Ok p => applyLoop dryRun mode rest (applyPath dryRun mode a p)
      end
  end.

(** What a call of [applyHandler] leaves: the response sent ([None] when
    the handler threw before sending one), the filesystem, the mutating
    calls made, and the scan cache. *)
Record ApplyResult := {
  response : option ApplyResponse;
  fs_after : FS;
  calls : list FsCall;
  cache_after : gmap CacheKey (Z * Report)
}.

Definition applyHandler (fs : FS) (scanCache : gmap CacheKey (Z * Report))
  (rq : RawQuery) (body : string) : ApplyResult :=
  let q := parseQuery rq in
  let dryRun := q_dryRun q in
  let mode := q_mode q in
  match planItems (readJsonBody body) with
  | None =>
      {| response := Some (Resp400 "Invalid plan JSON; expected { items: [ { path, category } ] }");
         fs_after := fs; calls := []; cache_after := scanCache |}
  | Some its =>
      let a0 := {| a_world := {| w_fs := fs; w_calls := [] |};
                   a_details := []; a_totalBytes := 0; a_count := 0 |} in
      match applyLoop dryRun mode its a0 with
      | (a, Some _) =>
          {| response := None;
             fs_after := w_fs (a_world a); calls := w_calls (a_world a);
             cache_after := scanCache |}
      | (a, None) =>
          {| response := Some (Resp200 {| s_count := a_count a; s_bytes := a_totalBytes a;
                                          s_dryRun := dryRun; s_mode := mode |}
                                       (a_details a));
             fs_after := w_fs (a_world a); calls := w_calls (a_world a);
             cache_after := ∅ |}
      end
  end.

End Apply.

(** ** The shell front-end: [deny_listed] and [apply_plan] ([disk_cleaner.sh]) *)

Module Sh.

Definition dq : string := String "034"%char EmptyString.

(** The [basename] command *)
Definition basename (p : string) : string :=
  match filter (fun s => s <> EmptyString) (rev (Str.split "/" p)) with
  | [] => if Str.isEmpty p then "" else "/"
  | s :: _ => s
  end.

(** One line through the [sed] command of line 363, which prints what
    stands between the quotes after the key [path], a colon and optional
    white space. Its leading wildcard is greedy, so the last place of the
    line where the rest matches wins. *)
Definition sedHere (s : string) : option string :=
  r ← Str.stripPrefix (dq +:+ "path" +:+ dq +:+ ":") s;
  r ← Str.stripPrefix dq (Str.dropWhile Ascii.is_space r);
  fst <$> Str.cutAt "034"%char r.

Fixpoint sedLine (s : string) : option string :=
  match s with
  | EmptyString => None
  | String _ s' =>
      match sedLine s' with
      | Some r => Some r
      | None => sedHere s
      end
  end.

(** A line of white space only, which the first [grep -v] removes. *)
Definition isBlank (l : string) : bool :=
  Str.isEmpty (Str.dropWhile Ascii.is_space l).

(** A line whose first character after optional white space is [#],
    which the second [grep -v] removes. *)
Definition isComment (l : string) : bool :=
  Str.startsWith (Str.dropWhile Ascii.is_space l) "#".

(** The lines of a file as [grep] reads them: a final newline ends the
    last line, and a last line without a newline is a line too. *)
Definition lines (content : string) : list string :=
  match rev (Str.split "010"%char content) with
  | EmptyString :: rest => rev rest
  | _ => Str.split "010"%char content
  end.

(** The lines of a file that end in a newline: the ones for which
    [read] succeeds. *)
Definition endedLines (content : string) : list string :=
  match rev (Str.split "010"%char content) with
  | _ :: rest => rev rest
  | [] => []
  end.

(** The paths that the loop [while IFS= read -r p] takes from the list
    file of [apply_plan] (lines 361-368). [grep] ends every line that it
    prints. [sed] (GNU) prints the last line of a plan without a newline
    when the plan has none there; [read] fails on such a line and the
    loop does not run for it. *)
Definition plan_list (content : string) : list string :=
  if Str.includes content (dq +:+ "items" +:+ dq) then
    omap sedLine (endedLines content)
  else
    filter (fun l => isComment l = false) (filter (fun l => isBlank l = false) (lines content)).

(** What the loop of [apply_plan] logs for one path. *)
Inductive Event :=
| Missing (p : string)
| OutsideHome (p : string)
| DenyListed (p : string)
| WouldRemove (p : string) (sz : Z)
| Trashed (p : string) (sz : Z)
| TrashFailed (p : string)
| Deleted (p : string) (sz : Z)
| DeleteFailed (p : string).

Section Sh.
Context {FS : Type} `{FsOps FS}.
Variable HOME_DIR : string.
(** The output of [date] in [safe_trash] *)
Variable ts : string.
(** [DRY_RUN] and [USE_TRASH] *)
Variables DRY_RUN USE_TRASH : bool.

(** [ensure_home_scope]: the pattern is [$HOME_DIR] followed by a slash
    and anything. *)
Definition ensure_home_scope (p : string) : bool :=
  Str.startsWith p (HOME_DIR +:+ "/").

(** The second pattern of the first [case] branch of [deny_listed]:
    [$HOME_DIR/], anything, [Photos], anything, [.photoslibrary/],
    anything. A star of a [case] pattern also matches slashes. *)
Definition photosGlob (p : string) : bool :=
  match Str.stripPrefix (HOME_DIR +:+ "/") p with
  | Some r =>
      match Str.after "Photos" r with
      | Some r' => Str.includes r' ".photoslibrary/"
      | None => false
      end
  | None => false
  end.

Definition deny_listed (p : string) : bool :=
  if Str.startsWith p (HOME_DIR +:+ "/Pictures/") || photosGlob p then true
  else if Str.startsWith p (HOME_DIR +:+ "/Library/Mail/") then true
  else if Str.startsWith p (HOME_DIR +:+ "/Library/Mobile Documents/") then true
  else if Str.startsWith p (HOME_DIR +:+ "/Desktop/") then true
  else if Str.startsWith p (HOME_DIR +:+ "/Documents/") then true
  else false.

(** [stat_bytes]: the size, or 0 when [stat] fails *)
Definition stat_bytes (fs : FS) (f : string) : Z :=
  match lstat fs f with
  | Ok st => st_size st
  | Throw _ => 0
  end.

(** The test [-d] *)
Definition isDir (fs : FS) (t : string) : bool :=
  match statSync fs t with
  | Ok st => match st_kind st with KDir => true | _ => false end
  | Throw _ => false
  end.

(** [safe_trash]: the filesystem it leaves and whether it succeeded. *)
Definition safe_trash (fs : FS) (p : string) : FS * bool :=
  let t := HOME_DIR +:+ "/.Trash" in
  let '(fs1, okdir) :=
    if isDir fs t then (fs, true)
    else match mkdirSync fs t with
         | (fs', None) => (fs', true)
         | (fs', Some _) => (fs', false)
         end in
  if okdir then
    let name := basename p in
    let dest := t +:+ "/" +:+ name in
    let dest := if existsSync fs1 dest then t +:+ "/" +:+ name +:+ "-" +:+ ts else dest in
    match renameSync fs1 p dest with
    | (fs2, None) => (fs2, true)
    | (fs2, Some _) => (fs2, false)
    end
  else (fs1, false).

(** The loop state: filesystem, log, [total] and [count]. *)
Record LoopState := { l_fs : FS; l_log : list Event; l_total : Z; l_count : Z }.

Definition skip (s : LoopState) (e : Event) : LoopState :=
  {| l_fs := l_fs s; l_log := l_log s ++ [e]; l_total := l_total s; l_count := l_count s |}.

Definition tally (s : LoopState) (fs : FS) (e : Event) (sz : Z) : LoopState :=
  {| l_fs := fs; l_log := l_log s ++ [e]; l_total := l_total s + sz; l_count := l_count s + 1 |}.

(** The body of [while IFS= read -r p] (lines 370-390). *)
Definition apply_one (s : LoopState) (p : string) : LoopState :=
  let fs := l_fs s in
  if negb (existsSync fs p) then skip s (Missing p)
  else if negb (ensure_home_scope p) then skip s (OutsideHome p)
  else if deny_listed p then skip s (DenyListed p)
  else
    let sz := stat_bytes fs p in
    if DRY_RUN then tally s fs (WouldRemove p sz) sz
    else if USE_TRASH then
      match safe_trash fs p with
      | (fs', true) => tally s fs' (Trashed p sz) sz
      | (fs', false) => tally s fs' (TrashFailed p) sz
      end
    else
      match rmSync fs p true with
      | (fs', None) => tally s fs' (Deleted p sz) sz
      | (fs', Some _) => tally s fs' (DeleteFailed p) sz
      end.

(** [apply_plan] on the content of an existing plan file. *)
Definition apply_plan (fs : FS) (content : string) : LoopState :=
  fold_left apply_one (plan_list content)
            {| l_fs := fs; l_log := []; l_total := 0; l_count := 0 |}.
End Sh.

End Sh.

(** A segment of a normalised absolute path: a name. *)
Definition plain (s : string) : Prop :=
  s <> "" /\ s <> "." /\ s <> ".." /\ Str.hasChar "/" s = false.

(** An absolute path written from its segments. *)
Definition render (segs : list string) : string := "/" +:+ Str.join "/" segs.

Fixpoint slashed (segs : list string) : string :=
  match segs with
  | [] => ""
  | s :: rest => "/" +:+ s +:+ slashed rest
  end.

(** ** What the specification calls scope and deny-list, on segments *)

Section Scope.
Variables HOME cwd : string.

(** The segments of the home root. *)
Definition homeSegs : list string := Path.resolveSegs cwd HOME.

(** The deny-listed subtrees: Pictures, Library/Mail, Library/Mobile
    Documents, Desktop and Documents under the home root. *)
Definition denyRoots : list (list string) :=
  [homeSegs ++ ["Pictures"];
   homeSegs ++ ["Library"; "Mail"];
   homeSegs ++ ["Library"; "Mobile Documents"];
   homeSegs ++ ["Desktop"];
   homeSegs ++ ["Documents"]].

(** [p] lies strictly under the home root, at a segment boundary. *)
Definition underHome (p : string) : Prop :=
  exists s k, Path.resolveSegs cwd p = homeSegs ++ s :: k.

(** [p] is the root of a deny-listed subtree or lies under it, at a
    segment boundary. *)
Definition underDenyRoot (p : string) : Prop :=
  exists root, root ∈ denyRoots /\ root `prefix_of` Path.resolveSegs cwd p.

(** [p] lies inside a photo-library bundle: a directory above it has a
    name that ends in [.photoslibrary]. The bundle directory itself is
    not inside: the pattern of line 2083 asks for a separator after the
    name, so the deny-list does not cover it. *)
Definition inPhotoBundle (p : string) : Prop :=
  exists pre s post,
    Path.resolveSegs cwd p = pre ++ s :: post /\ post <> [] /\
    Str.endsWith s ".photoslibrary" = true.

(** Under a deny-listed subtree: one of the five directories or a path
    below one, or a path inside a photo-library bundle. *)
Definition underDenySubtree (p : string) : Prop :=
  underDenyRoot p \/ inPhotoBundle p.
End Scope.

(** ** What a walk can reach and collect *)

Section Reach.
Context {FS : Type} `{FsOps FS}.
Variables HOME cwd : string.
Variable fs : FS.
Variable now : Z.
Variable opts : Opts.

(** The directories a walk from [baseDir] can have pending: [baseDir], and
    below it every entry that passes the scope and deny-list test and that
    [lstat] reports as a directory (hence not as a symbolic link). *)
Inductive Visited (baseDir : string) : string -> Prop :=
| Visited_base : Visited baseDir baseDir
| Visited_sub current ents ent st :
    Visited baseDir current ->
    readdir fs current = Ok ents ->
    ent ∈ ents ->
    ensureHomeScoped HOME cwd (Path.join [current; d_name ent]) = true ->
    isDenyListed HOME cwd (Path.join [current; d_name ent]) = false ->
    lstat fs (Path.join [current; d_name ent]) = Ok st ->
    st_kind st = KDir ->
    Visited baseDir (Path.join [current; d_name ent]).

(** What holds of the stack and of the items while a walk from [baseDir]
    runs, when [Q] holds of the items pushed before it. *)
Definition WalkInv (Q : Item -> Prop) (baseDir : string)
  (acc : list string * list Item) : Prop :=
  Forall (Visited baseDir) acc.1 /\ Forall Q acc.2.

(** The items a walk from [baseDir] can push. *)
Definition Collected (reason_ category_ baseDir : string) (it : Item) : Prop :=
  exists current ents ent st,
    Visited baseDir current /\
    readdir fs current = Ok ents /\
    ent ∈ ents /\
    path it = Path.join [current; d_name ent] /\
    ensureHomeScoped HOME cwd (path it) = true /\
    isDenyListed HOME cwd (path it) = false /\
    lstat fs (path it) = Ok st /\
    st_kind st = KFile /\
    passesFilters opts now st = true /\
    bytes it = st_size st /\
    mtime it = st_mtimeMs st / 1000 /\
    category it = category_ /\
    reason it = reason_ /\
    trashable it = true.

(** An item that some walk of the scan pushed. *)
Definition Found (it : Item) : Prop :=
  exists reason_ category_ baseDir, Collected reason_ category_ baseDir it.
End Reach.

(** ** The scan cache over the life of the server *)

Section Server.
Context {FS : Type} `{FsOps FS}.
Variables HOME cwd : string.
Variable JSON_parse : string -> option JSON.

(** The caches the server can hold: empty at start, then whatever the
    two handlers leave, call after call. *)
Inductive Reachable : gmap CacheKey (Z * Report) -> Prop :=
| Reach_start : Reachable ∅
| Reach_scan c brewCache fuel fs now rq r c' :
    Reachable c ->
    scanHandler HOME cwd brewCache fuel fs now c rq = Some (r, c') ->
    Reachable c'
| Reach_apply c ts fs rq body :
    Reachable c ->
    Reachable (cache_after (applyHandler HOME cwd JSON_parse ts fs c rq body)).
End Server.

(** The sum of the [bytes] fields. *)
Definition sumBytes (its : list Item) : Z := foldr Z.add 0 (map bytes its).

(** ** Readings of the apply loop *)

Section ApplyReadings.
Context {FS : Type} `{FsOps FS}.

(** The bytes that line 2448 reads for a path. *)
Definition liveBytes (fs : FS) (p : string) : Z :=
  match statSync fs p with Ok s => st_size s | Throw _ => 0 end.

(** Whether line 2459 asks for a recursive removal. *)
Definition liveIsDirectory (fs : FS) (p : string) : bool :=
  match statSync fs p with
  | Ok s => match st_kind s with KDir => true | _ => false end
  | Throw _ => false
  end.

(** The totals are those of the entries that count. *)
Definition Tallied (a : @ApplyState FS) : Prop :=
  a_count a = Z.of_nat (length (omap countedBytes (a_details a))) /\
  a_totalBytes a = floatSum (omap countedBytes (a_details a)).

(** No [rmSync] call was made and no entry says [deleted]. *)
Definition NoRm (a : @ApplyState FS) : Prop :=
  Forall (fun c => isRm c = false) (w_calls (a_world a)) /\
  Forall (fun d => forall p n, d <> DDeleted p n) (a_details a).
End ApplyReadings.

Definition eventPath (e : Sh.Event) : string :=
  match e with
  | Sh.Missing p | Sh.OutsideHome p | Sh.DenyListed p | Sh.WouldRemove p _
  | Sh.Trashed p _ | Sh.TrashFailed p | Sh.Deleted p _ | Sh.DeleteFailed p => p
  end.

(** ** Readings of a dry run *)

Section DryReadings.
Context {FS : Type} `{FsOps FS}.
Variables HOME cwd : string.


(** The removal or the move of [p] throws [e] and leaves the world [w']. *)
Definition mutationThrows (ts mode : string) (w : @World FS) (p : string)
  (w' : @World FS) (e : string) : Prop :=
  if String.eqb mode "delete" then
    exists fs',
      rmSync (w_fs w) p (liveIsDirectory (w_fs w) p) = (fs', Some e) /\
      w' = {| w_fs := fs';
              w_calls := w_calls w ++ [CallRm p (liveIsDirectory (w_fs w) p)] |}
  else safeTrashMove HOME ts w p = (w', Throw e).
End DryReadings.

(** ** The size of a walk *)

Section Size.
Context {FS : Type} `{FsOps FS}.
Variables HOME cwd : string.
Variable fs : FS.

(** The walk puts [full] on its stack. *)
Definition descends (full : string) : bool :=
  ensureHomeScoped HOME cwd full && negb (isDenyListed HOME cwd full) &&
  match lstat fs full with
  | Ok st => match st_kind st with KDir => true | _ => false end
  | Throw _ => false
  end.

(** The directories that the walk pushes when it reads [current]. *)
Definition children (current : string) : list string :=
  match readdir fs current with
  | Ok ents => filter (fun full => descends full = true)
                      (map (fun ent => Path.join [current; d_name ent]) ents)
  | Throw _ => []
  end.

(** The directories at and below [d], down to depth [n]. *)
Fixpoint cost (n : nat) (d : string) : nat :=
  match n with
  | O => 1
  | S n' => 1 + sum_list (map (cost n') (children d))
  end.

(** The directory tree is finite in depth: [height] decreases from a
    directory to the directories that the walk enters from it. *)
Definition Shallow (height : string -> nat) : Prop :=
  forall d c, c ∈ children d -> (height c < height d)%nat.

(** The fuel that covers the walk of [d]. *)
Definition dirCost (height : string -> nat) (d : string) : nat := cost (height d) d.

(** The fuel that covers a stack. *)
Definition stackCost (height : string -> nat) (stack : list string) : nat :=
  sum_list (map (dirCost height) stack).
End Size.

(** A computation with fuel that gives one and the same result from some
    amount of fuel on. *)
Definition Settles {A : Type} (f : nat -> option A) : Prop :=
  exists n0 a, forall n, (n0 <= n)%nat -> f n = Some a.

(** ** A concrete filesystem and a JSON reader, for the examples

    The theorems below hold for every [FsOps] and every [JSON_parse]; the
    examples run the handlers on this small filesystem: a table from
    absolute, normalised paths to nodes. A symbolic link is followed when it
    is the last component of a path. *)

Module Fixture.

Inductive Node :=
| NFile (size mtimeMs : Z)
| NDir
| NLink (target : string).

Definition Disk : Type := list (string * Node).

Fixpoint find (k : string) (d : Disk) : option Node :=
  match d with
  | [] => None
  | (k', n) :: rest => if String.eqb k k' then Some n else find k rest
  end.

(** The node a path leads to, through at most [fuel] links. *)
Fixpoint follow (fuel : nat) (d : Disk) (k : string) : option Node :=
  match find k d with
  | Some (NLink t) =>
      match fuel with
      | O => None
      | S fuel' => follow fuel' d t
      end
  | r => r
  end.

Definition statsOf (n : Node) : Stats :=
  match n with
  | NFile size mtimeMs => {| st_kind := KFile; st_size := size; st_mtimeMs := mtimeMs |}
  | NDir => {| st_kind := KDir; st_size := 0; st_mtimeMs := 0 |}
  | NLink _ => {| st_kind := KSymlink; st_size := 0; st_mtimeMs := 0 |}
  end.

(** The name of [k] inside the directory [dir], when [k] is an entry of it. *)
Definition childName (dir k : string) : option string :=
  match Str.stripPrefix (dir +:+ "/") k with
  | Some name => if Str.isEmpty name || Str.hasChar "/" name then None else Some name
  | None => None
  end.

Definition under (dir k : string) : bool :=
  String.eqb k dir || Str.startsWith k (dir +:+ "/").

Definition isDirNode (n : Node) : bool :=
  match n with NDir => true | _ => false end.

Definition rekey (src dest k : string) : string :=
  match Str.stripPrefix src k with
  | Some r => dest +:+ r
  | None => k
  end.

Section Ops.
Variable cwd : string.
(** The paths that the user may not remove or move. *)
Variable locked : string -> bool.

Definition key (p : string) : string := Path.resolve cwd p.

Definition d_exists (d : Disk) (p : string) : bool :=
  match follow 8 d (key p) with Some _ => true | None => false end.

Definition d_readdir (d : Disk) (p : string) : Outcome (list Dirent) :=
  match follow 8 d (key p) with
  | Some NDir =>
      Ok (omap (fun '(k, n) =>
                  match childName (key p) k with
                  | Some name => Some {| d_name := name; d_isDirectory := isDirNode n |}
                  | None => None
                  end) d)
  | Some _ => Throw "ENOTDIR"
  | None => Throw "ENOENT"
  end.

Definition d_lstat (d : Disk) (p : string) : Outcome Stats :=
  match find (key p) d with
  | Some n => Ok (statsOf n)
  | None => Throw "ENOENT"
  end.

Definition d_stat (d : Disk) (p : string) : Outcome Stats :=
  match follow 8 d (key p) with
  | Some n => Ok (statsOf n)
  | None => Throw "ENOENT"
  end.

Definition d_mkdir (d : Disk) (p : string) : Disk * option string :=
  match find (key p) d with
  | Some NDir => (d, None)
  | Some _ => (d, Some "EEXIST")
  | None => (d ++ [(key p, NDir)], None)
  end.

Definition d_rename (d : Disk) (src dest : string) : Disk * option string :=
  match find (key src) d with
  | None => (d, Some "ENOENT")
  | Some _ =>
      if locked (key src) then (d, Some "EACCES") else
      let kept := filter (fun '(k, _) => under (key dest) k = false) d in
      (map (fun '(k, n) => if under (key src) k then (rekey (key src) (key dest) k, n) else (k, n)) kept,
       None)
  end.

Definition d_rm (d : Disk) (p : string) (recursive : bool) : Disk * option string :=
  match find (key p) d with
  | None => (d, None)
  | Some n =>
      if locked (key p) then (d, Some "EACCES")
      else match n with
           | NDir =>
               if recursive then (filter (fun '(k, _) => under (key p) k = false) d, None)
               else (d, Some "ERR_FS_EISDIR")
           | _ => (filter (fun '(k, _) => String.eqb k (key p) = false) d, None)
           end
  end.

Definition diskOps : FsOps Disk :=
  {| existsSync := d_exists;
     readdir := d_readdir;
     lstat := d_lstat;
     statSync := d_stat;
     mkdirSync := d_mkdir;
     renameSync := d_rename;
     rmSync := d_rm |}.
End Ops.

(** *** A reader for JSON texts made of objects, arrays, strings without
    [\u] escapes, integers and the three literals *)

Definition isJsonSpace (c : ascii) : bool :=
  match c with
  | " "%char | "009"%char | "010"%char | "013"%char => true
  | _ => false
  end.

Definition skipWs (s : string) : string := Str.dropWhile isJsonSpace s.

(** The characters of a string literal after its opening quote. *)
Fixpoint readString (s : string) : option (string * string) :=
  match s with
  | EmptyString => None
  | String "034"%char rest => Some (EmptyString, rest)
  | String "\"%char (String e rest) =>
      let unesc := match e with
                   | "n"%char => Some "010"%char
                   | "t"%char => Some "009"%char
                   | "r"%char => Some "013"%char
                   | "b"%char => Some "008"%char
                   | "f"%char => Some "012"%char
                   | "/"%char => Some "/"%char
                   | "\"%char => Some "\"%char
                   | "034"%char => Some "034"%char
                   | _ => None
                   end in
      match unesc, readString rest with
      | Some c, Some (a, b) => Some (String c a, b)
      | _, _ => None
      end
  | String c rest =>
      match readString rest with
      | Some (a, b) => Some (String c a, b)
      | None => None
      end
  end.

Fixpoint readDigits (acc : Z) (s : string) : Z * string :=
  match s with
  | String c rest =>
      match Ascii.is_nat c with
      | Some d => readDigits (10 * acc + Z.of_nat d) rest
      | None => (acc, s)
      end
  | EmptyString => (acc, s)
  end.

Definition startsDigit (s : string) : bool :=
  match s with
  | String c _ => match Ascii.is_nat c with Some _ => true | None => false end
  | EmptyString => false
  end.

Definition readNumber (s : string) : option (JSON * string) :=
  let '(neg, s1) := match s with
                    | String "-"%char r => (true, r)
                    | _ => (false, s)
                    end in
  if startsDigit s1 then
    let '(n, rest) := readDigits 0 s1 in
    match rest with
    | String "."%char _ | String "e"%char _ | String "E"%char _ => None
    | _ => Some (JNum (if neg then - n else n), rest)
    end
  else None.

Fixpoint readValue (fuel : nat) (s : string) : option (JSON * string) :=
  match fuel with
  | O => None
  | S fuel' =>
      let s := skipWs s in
      match s with
      | String "034"%char r =>
          '(a, b) ← readString r; Some (JStr a, b)
      | String "["%char r =>
          match skipWs r with
          | String "]"%char r' => Some (JArr [], r')
          | _ => '(l, b) ← readElems fuel' r; Some (JArr l, b)
          end
      | String "{"%char r =>
          match skipWs r with
          | String "}"%char r' => Some (JObj [], r')
          | _ => '(l, b) ← readMembers fuel' r; Some (JObj l, b)
          end
      | _ =>
          match Str.stripPrefix "null" s, Str.stripPrefix "true" s, Str.stripPrefix "false" s with
          | Some r, _, _ => Some (JNull, r)
          | _, Some r, _ => Some (JBool true, r)
          | _, _, Some r => Some (JBool false, r)
          | _, _, _ => readNumber s
          end
      end
  end
with readElems (fuel : nat) (s : string) : option (list JSON * string) :=
  match fuel with
  | O => None
  | S fuel' =>
      '(v, r) ← readValue fuel' s;
      match skipWs r with
      | String ","%char r' => '(l, b) ← readElems fuel' r'; Some (v :: l, b)
      | String "]"%char r' => Some ([v], r')
      | _ => None
      end
  end
with readMembers (fuel : nat) (s : string) : option (list (string * JSON) * string) :=
  match fuel with
  | O => None
  | S fuel' =>
      match skipWs s with
      | String "034"%char r =>
          '(k, r) ← readString r;
          match skipWs r with
          | String ":"%char r =>
              '(v, r) ← readValue fuel' r;
              match skipWs r with
              | String ","%char r' => '(l, b) ← readMembers fuel' r'; Some ((k, v) :: l, b)
              | String "}"%char r' => Some ([(k, v)], r')
              | _ => None
              end
          | _ => None
          end
      | _ => None
      end
  end.

Definition parse (txt : string) : option JSON :=
  match readValue (2 * String.length txt + 2) txt with
  | Some (j, rest) => if Str.isEmpty (skipWs rest) then Some j else None
  | None => None
  end.

End Fixture.

(** ** A home directory for the examples *)

Module Demo.
Import Fixture.

Definition HOME : string := "/Users/u".
Definition cwd : string := "/srv/app".
Definition MB : Z := 1024 * 1024.
Definition day : Z := 86400 * 1000.
Definition now0 : Z := 20000 * day.

Definition big : string := "/Users/u/Library/Caches/big.bin".
Definition small : string := "/Users/u/Library/Caches/small.bin".
Definition lnk : string := "/Users/u/Library/Caches/lnk".
Definition inbox : string := "/Users/u/Library/Mail/inbox.mbox".
Definition thesis : string := "/Users/u/Documents/thesis.pdf".
Definition gone : string := "/Users/u/Documents/gone.txt".
Definition sibling : string := "/Users/u/PicturesBackup/f".

(** A 60 MB and a 10 MB cache file, both 40 days old, a link to the first,
    a mailbox, a document, and a directory whose name extends [Pictures]. *)
Definition disk : Disk :=
  [("/Users/u", NDir);
   ("/Users/u/Library", NDir);
   ("/Users/u/Library/Caches", NDir);
   (big, NFile (60 * MB) (now0 - 40 * day));
   (small, NFile (10 * MB) (now0 - 40 * day));
   (lnk, NLink big);
   ("/Users/u/Library/Mail", NDir);
   (inbox, NFile (5 * MB) (now0 - 400 * day));
   ("/Users/u/Documents", NDir);
   (thesis, NFile (90 * MB) (now0 - 400 * day));
   ("/Users/u/PicturesBackup", NDir);
   (sibling, NFile (70 * MB) (now0 - 400 * day))].

Definition unlocked (k : string) : bool := false.
Definition bigLocked (k : string) : bool := String.eqb k big.

Definition ops : FsOps Disk := diskOps cwd unlocked.
Definition opsLocked : FsOps Disk := diskOps cwd bigLocked.

Definition quoted (s : string) : string := Sh.dq +:+ s +:+ Sh.dq.

(** The JSON text of a plan with these paths. *)
Definition planBody (paths : list string) : string :=
  "{" +:+ quoted "items" +:+ ":[" +:+
  Str.join "," (map (fun p => "{" +:+ quoted "path" +:+ ":" +:+ quoted p +:+ "}") paths)
  +:+ "]}".

(** A plan in the plain-text form. *)
Definition textPlan : string :=
  "# cleanup plan" +:+ String "010" "" +:+
  small +:+ String "010" "" +:+
  String "010" "" +:+
  "  # done" +:+ String "010" "" +:+
  gone +:+ String "010" "".

Definition scanQuery (minSize olderThan : option Z) (include : QVal) : RawQuery :=
  {| r_minSize := minSize; r_olderThan := olderThan; r_include := include;
     r_exclude := QAbsent; r_downloads := QAbsent; r_dryRun := QAbsent; r_mode := QAbsent |}.

(** The query of the scenario: 50 MB, 30 days, [user-caches]. *)
Definition scenarioQuery : RawQuery :=
  scanQuery (Some 52428800) (Some 30) (QStr "user-caches").

Definition applyQuery (dryRun mode : QVal) : RawQuery :=
  {| r_minSize := None; r_olderThan := None; r_include := QAbsent;
     r_exclude := QAbsent; r_downloads := QAbsent; r_dryRun := dryRun; r_mode := mode |}.

Definition bigItem : Item :=
  {| path := big; bytes := 60 * MB; mtime := (now0 - 40 * day) / 1000;
     category := "user-caches"; reason := "User Library cache"; trashable := true |}.

Definition smallItem : Item :=
  {| path := small; bytes := 10 * MB; mtime := (now0 - 40 * day) / 1000;
     category := "user-caches"; reason := "User Library cache"; trashable := true |}.

(** The report of the scenario. *)
Definition report : Report :=
  {| generatedAt := now0; home := HOME;
     totals := {| count := 1; bytes_total := 60 * MB |};
     categories := ["user-caches"];
     items := [bigItem] |}.

Definition timestamp : string := "2026-11-03-0741".

Definition scan (rq : RawQuery) :=
  scanHandler (H := ops) HOME cwd None 8 disk now0 ∅ rq.

Definition apply (o : FsOps Disk) (rq : RawQuery) (body : string) :=
  applyHandler (H := o) HOME cwd Fixture.parse timestamp disk ∅ rq body.
End Demo.

(** ** More homes and plans for the examples *)

(** A cache directory with a sparse file of about 9 PB and a file of one
    byte. *)
Module Huge.
Import Fixture.

Definition image : string := "/Users/u/Library/Caches/image.sparse".
Definition one : string := "/Users/u/Library/Caches/one".

Definition disk : Disk :=
  [("/Users/u", NDir);
   ("/Users/u/Library", NDir);
   ("/Users/u/Library/Caches", NDir);
   (image, NFile 9024791438684160 (Demo.now0 - 40 * Demo.day));
   (one, NFile 1 (Demo.now0 - 40 * Demo.day))].

(** A scan of [user-caches] with both filters at 0. *)
Definition scan :=
  scanHandler (H := Demo.ops) Demo.HOME Demo.cwd None 8 disk Demo.now0 ∅
    (Demo.scanQuery (Some 0) (Some 0) (QStr "user-caches")).
End Huge.

(** A home whose Chrome cache directory is a symbolic link to a directory
    on another volume. The rows below [chrome] say what the paths through
    the link lead to. *)
Module Linked.
Import Fixture.

Definition chrome : string := "/Users/u/Library/Caches/Google/Chrome".
Definition blob : string := "/Users/u/Library/Caches/Google/Chrome/blob.bin".

Definition disk : Disk :=
  [("/Users/u", NDir);
   ("/Users/u/Library", NDir);
   ("/Users/u/Library/Caches", NDir);
   ("/Users/u/Library/Caches/Google", NDir);
   (chrome, NLink "/Volumes/ext/chrome");
   ("/Volumes/ext/chrome", NDir);
   ("/Volumes/ext/chrome/blob.bin", NFile (60 * Demo.MB) (Demo.now0 - 40 * Demo.day));
   (blob, NFile (60 * Demo.MB) (Demo.now0 - 40 * Demo.day))].

Definition blobItem : Item :=
  {| path := blob; bytes := 60 * Demo.MB; mtime := (Demo.now0 - 40 * Demo.day) / 1000;
     category := "browsers"; reason := "Browser cache"; trashable := true |}.

(** A scan without parameters. *)
Definition scan :=
  scanHandler (H := Demo.ops) Demo.HOME Demo.cwd None 8 disk Demo.now0 ∅
    (Demo.scanQuery None None QAbsent).
End Linked.

(** A home with a photo library outside [Pictures]. *)
Module Photos.
Import Fixture.

Definition lib : string := "/Users/u/Movies/Trip.photoslibrary".
Definition db : string := "/Users/u/Movies/Trip.photoslibrary/database/Photos.sqlite".

Definition disk : Disk :=
  [("/Users/u", NDir);
   ("/Users/u/Movies", NDir);
   (lib, NDir);
   ("/Users/u/Movies/Trip.photoslibrary/database", NDir);
   (db, NFile (200 * Demo.MB) (Demo.now0 - 400 * Demo.day))].

Definition apply (rq : RawQuery) (body : string) :=
  applyHandler (H := Demo.ops) Demo.HOME Demo.cwd Fixture.parse Demo.timestamp disk ∅ rq body.
End Photos.

(** Plans whose items are written out. *)
Module Plans.
(** The JSON text of a plan with these item texts. *)
Definition planOf (items : list string) : string :=
  "{" +:+ Demo.quoted "items" +:+ ":[" +:+ Str.join "," items +:+ "]}".

(** [{"path":"p"}] *)
Definition named (p : string) : string :=
  "{" +:+ Demo.quoted "path" +:+ ":" +:+ Demo.quoted p +:+ "}".

(** [{"path":{"toString":0}}] *)
Definition odd : string :=
  "{" +:+ Demo.quoted "path" +:+ ":{" +:+ Demo.quoted "toString" +:+ ":0}}".

(** The two cache files of the example, then [null]. *)
Definition withNull : string := planOf [named Demo.big; named Demo.small; "null"].

(** The 10 MB file of the example, then an item whose path is an object
    with a field [toString]. *)
Definition withOdd : string := planOf [named Demo.small; odd].
End Plans.

(** ** What one directory entry adds to a walk *)

Section Entry.
Context {FS : Type} `{FsOps FS}.
Variables HOME cwd : string.
Variable fs : FS.
Variable now : Z.
Variable opts : Opts.
Variables reason_ category_ : string.

(** The item that line 2228 pushes for the entry [ent] of [current], when
    it pushes one. *)
Definition pushedItem (current : string) (ent : Dirent) : option Item :=
  let full := Path.join [current; d_name ent] in
  if negb (ensureHomeScoped HOME cwd full) || isDenyListed HOME cwd full then None
  else
    match lstat fs full with
    | Throw _ => None
    | Ok st =>
        match st_kind st with
        | KFile =>
            if passesFilters opts now st then
              Some {| path := full; bytes := st_size st; mtime := st_mtimeMs st / 1000;
                      category := category_; reason := reason_; trashable := true |}
            else None
        | _ => None
        end
    end.
End Entry.

(** The place of a category in the order in which [scanHandler] walks. *)
Definition catRank (c : string) : nat :=
  if String.eqb c "user-caches" then 0
  else if String.eqb c "browsers" then 1
  else if String.eqb c "dev" then 2
  else if String.eqb c "pkg" then 3
  else if String.eqb c "downloads" then 4
  else if String.eqb c "deep" then 5
  else 6.

(** The categories that [scanHandler] has a walk for. *)
Definition scannedCategories : list string :=
  ["user-caches"; "browsers"; "dev"; "pkg"; "downloads"; "deep"].

(** The items are grouped by category, in the order of the walks, up to the
    category of rank [r]; each has a requested category and is trashable. *)
Definition Grouped (cats : list string) (r : nat) (its : list Item) : Prop :=
  StronglySorted (fun a b => (catRank (category a) <= catRank (category b))%nat) its /\
  Forall (fun it => (catRank (category it) <= r)%nat /\
                    includes cats (category it) = true /\
                    category it ∈ scannedCategories /\
                    trashable it = true) its.

(** The cache key of a scan (lines 2257-2262): the two bounds, the
    categories sorted, the downloads flag. *)
Definition scanKey (q : Query) : CacheKey :=
  (default DEFAULT_MIN_BYTES (q_minSize q),
   default DEFAULT_OLDER_DAYS (q_olderThan q),
   merge_sort String.le (effectiveCats q),
   q_downloads q).

(** ** What an apply call may touch *)

Section Targets.
Variables HOME ts : string.

(** The trash directory of [ensureTrashDir] (line 2398). *)
Definition trashPath : string := Path.join [HOME; ".Trash"].

(** A mutating call that the loop body makes for the path [p]: the trash
    directory is made, [p] is moved into it under its own name or under
    its name and the time, or [p] is removed. *)
Definition callFor (p : string) (c : FsCall) : Prop :=
  match c with
  | CallMkdir t => t = trashPath
  | CallRename src dest =>
      src = p /\
      (dest = Path.join [trashPath; Path.basename p] \/
       dest = Path.join [trashPath; Path.basename p +:+ "-" +:+ ts])
  | CallRm q _ => q = p
  end.
End Targets.

(** ** Readings of the shell loop *)

(** The entries of the log of [apply_plan] that pass the three tests, and
    so reach the lines that add to [total] and [count]. *)
Definition attempted (e : Sh.Event) : bool :=
  match e with
  | Sh.Missing _ | Sh.OutsideHome _ | Sh.DenyListed _ => false
  | _ => true
  end.

(** The entries that a dry run can log. *)
Definition dryEvent (e : Sh.Event) : bool :=
  match e with
  | Sh.Missing _ | Sh.OutsideHome _ | Sh.DenyListed _ | Sh.WouldRemove _ _ => true
  | _ => false
  end.

(** ** Static files: [contentTypeFor] and [serveStatic] ([script.js] 2133-2184) *)

(** [s.toLowerCase()], on the ASCII letters; the extensions that
    [contentTypeFor] knows are made of these. *)
Definition lowerChar (c : ascii) : ascii :=
  let n := nat_of_ascii c in
  if (65 <=? n)%nat && (n <=? 90)%nat then ascii_of_nat (n + 32) else c.

Fixpoint toLowerCase (s : string) : string :=
  match s with
  | EmptyString => EmptyString
  | String c s' => String (lowerChar c) (toLowerCase s')
  end.

(** What [serveStatic] sends: 403, 404, or 200 with a content type and the
    bytes of the file. *)
Inductive StaticAnswer :=
| Forbidden
| NotFound
| FileSent (contentType : string) (data : string).

Section Static.
Context {FS : Type} `{FsOps FS}.
(** [process.cwd()], which is the static root *)
Variable cwd : string.
(** [decodeURIComponent]: [None] when it throws *)
Variable decodeURIComponent : string -> option string.
(** [path.extname] *)
Variable extname : string -> string.
(** [fs.promises.readFile] *)
Variable readFile : FS -> string -> Outcome string.

Definition contentTypeFor (filePath : string) : string :=
  let ext := toLowerCase (extname filePath) in
  if String.eqb ext ".html" then "text/html; charset=utf-8"
  else if String.eqb ext ".css" then "text/css; charset=utf-8"
  else if String.eqb ext ".js" then "application/javascript; charset=utf-8"
  else if String.eqb ext ".json" then "application/json; charset=utf-8"
  else if String.eqb ext ".svg" then "image/svg+xml"
  else if String.eqb ext ".png" then "image/png"
  else if String.eqb ext ".jpg" then "image/jpeg"
  else if String.eqb ext ".jpeg" then "image/jpeg"
  else if String.eqb ext ".gif" then "image/gif"
  else "application/octet-stream".

(** [parsed.pathname || '/'] *)
Definition orSlash (pathname : option string) : string :=
  match pathname with
  | Some p => if Str.isEmpty p then "/" else p
  | None => "/"
  end.

(** [fp] and [resolved] of [serveStatic] (lines 2152-2157). *)
Definition staticFile (pathname : string) : string :=
  let pathname := if String.eqb pathname "/" then "/index.html" else pathname in
  Path.join [cwd; pathname].

Definition staticTarget (pathname : string) : string :=
  Path.resolve cwd (staticFile pathname).

(** [serveStatic]: [None] when [decodeURIComponent] throws, which is
    outside the [try] block, so that no answer is sent. *)
Definition serveStatic (fs : FS) (pathname : option string) : option StaticAnswer :=
  match decodeURIComponent (orSlash pathname) with
  | None => None
  | Some pathname =>
      let resolved := staticTarget pathname in
      if negb (Str.startsWith resolved (Path.resolve cwd cwd +:+ Path.sep)) then Some Forbidden
      else
        match lstat fs resolved with
        | Throw _ => Some NotFound
        | Ok lst =>
            match st_kind lst with
            | KSymlink => Some Forbidden
            | _ =>
                match statSync fs resolved with
                | Throw _ => Some NotFound
                | Ok st =>
                    match st_kind st with
                    | KDir => Some Forbidden
                    | _ =>
                        match readFile fs resolved with
                        | Throw _ => Some NotFound
                        | Ok data => Some (FileSent (contentTypeFor resolved) data)
                        end
                    end
                end
            end
        end
  end.
End Static.

(** ** The router ([script.js] 2485-2506) *)

Inductive Route := ToPreflight | ToPing | ToScan | ToApply | ToStatic.

Definition route (method : string) (pathname : option string) : Route :=
  let pathname := orSlash pathname in
  if String.eqb method "OPTIONS" then ToPreflight
  else if String.eqb pathname "/api/ping" then ToPing
  else if String.eqb pathname "/api/scan" && String.eqb method "GET" then ToScan
  else if String.eqb pathname "/api/apply" && String.eqb method "POST" then ToApply
  else ToStatic.

(** A request: the method, [url.parse(req.url).pathname], the parsed query
    string and the body. *)
Record Request := {
  rq_method : string;
  rq_pathname : option string;
  rq_query : RawQuery;
  rq_body : string
}.

Inductive Answer :=
| Preflight
| Pong
| Scanned (r : Report)
| Applied (resp : option ApplyResponse)
| Static (a : option StaticAnswer).

(** What the server holds between requests, and the mutating calls it has
    made. *)
Record Server (FS : Type) := {
  sv_fs : FS;
  sv_cache : gmap CacheKey (Z * Report);
  sv_calls : list FsCall
}.
Arguments sv_fs {FS} _.
Arguments sv_cache {FS} _.
Arguments sv_calls {FS} _.

Section Serve.
Context {FS : Type} `{FsOps FS}.
Variables HOME cwd : string.
Variable brewCache : option string.
Variable JSON_parse : string -> option JSON.
Variable decodeURIComponent : string -> option string.
Variable extname : string -> string.
Variable readFile : FS -> string -> Outcome string.

(** One request: [now] is the clock, [ts] the text that [safeTrashMove]
    derives from it, [fuel] bounds the walks of a scan. *)
Definition serve (fuel : nat) (now : Z) (ts : string) (sv : Server FS) (rq : Request)
  : option (Answer * Server FS) :=
  match route (rq_method rq) (rq_pathname rq) with
  | ToPreflight => Some (Preflight, sv)
  | ToPing => Some (Pong, sv)
  | ToScan =>
      '(r, c') ← scanHandler HOME cwd brewCache fuel (sv_fs sv) now (sv_cache sv) (rq_query rq);
      Some (Scanned r, {| sv_fs := sv_fs sv; sv_cache := c'; sv_calls := sv_calls sv |})
  | ToApply =>
      let res := applyHandler HOME cwd JSON_parse ts (sv_fs sv) (sv_cache sv)
                   (rq_query rq) (rq_body rq) in
      Some (Applied (response res),
            {| sv_fs := fs_after res; sv_cache := cache_after res;
               sv_calls := sv_calls sv ++ calls res |})
  | ToStatic =>
      Some (Static (serveStatic cwd decodeURIComponent extname readFile (sv_fs sv)
                      (rq_pathname rq)),
            sv)
  end.
End Serve.

(** ** The page ([script.js] 1292-1301, 1480-1487, 1685-1695, 1879-1917) *)

Module Ui.

(** [s.replaceAll(c, r)] for a pattern of one character *)
Fixpoint replaceAll (c : ascii) (r : string) (s : string) : string :=
  match s with
  | EmptyString => EmptyString
  | String d s' => (if Ascii.eqb d c then r else String d EmptyString) +:+ replaceAll c r s'
  end.

Definition escapeHtml (s : string) : string :=
  replaceAll "'" "&#39;"
    (replaceAll "034" "&quot;"
       (replaceAll ">" "&gt;"
          (replaceAll "<" "&lt;"
             (replaceAll "&" "&amp;" s)))).

(** What [escapeHtml] makes of one character. *)
Definition escapeChar (c : ascii) : string :=
  if Ascii.eqb c "&" then "&amp;"
  else if Ascii.eqb c "<" then "&lt;"
  else if Ascii.eqb c ">" then "&gt;"
  else if Ascii.eqb c "034" then "&quot;"
  else if Ascii.eqb c "'" then "&#39;"
  else String c EmptyString.

Fixpoint escapeEach (s : string) : string :=
  match s with
  | EmptyString => EmptyString
  | String c s' => escapeChar c +:+ escapeEach s'
  end.

(** [normalizeItems], on an item with the fields of a report item *)
Definition normalizeItem (it : Item) : Item :=
  {| path := path it;
     bytes := bytes it;
     mtime := mtime it;
     category := if Str.isEmpty (category it) then "-" else category it;
     reason := reason it;
     trashable := trashable it |}.

Definition normalizeItems (its : list Item) : list Item := map normalizeItem its.

(** [computeTotals]: bytes are added when positive. *)
Definition computeTotals (its : list Item) : Totals :=
  fold_left (fun acc it =>
               {| count := count acc + 1;
                  bytes_total := if 0 <? bytes it then addNumber (bytes_total acc) (bytes it)
                                 else bytes_total acc |})
            its {| count := 0; bytes_total := 0 |}.

(** The result of [getScanParamsFromUI]: the two numbers of the inputs
    (0 when empty or not a number) and the checked categories, joined. *)
Record ScanParams := {
  p_minSize : Z;
  p_olderThan : Z;
  p_include : option string
}.

Definition getScanParamsFromUI (minBytes olderDays : Z) (cats : list string) : ScanParams :=
  {| p_minSize := minBytes;
     p_olderThan := olderDays;
     p_include := match cats with [] => None | _ => Some (Str.join "," cats) end |}.

(** The query string that [doServerScan] sends (lines 1913-1917), as the
    server reads it. *)
Definition scanRequest (p : ScanParams) : RawQuery :=
  let include := match p_include p with
                 | Some s => if Str.isEmpty s then None else Some s
                 | None => None
                 end in
  {| r_minSize := if p_minSize p =? 0 then None else Some (p_minSize p);
     r_olderThan := if p_olderThan p =? 0 then None else Some (p_olderThan p);
     r_include := match include with Some s => QStr s | None => QAbsent end;
     r_exclude := QAbsent;
     r_downloads := match include with
                    | Some s => if bool_decide ("downloads" ∈ Str.split "," s)
                                then QStr "1" else QAbsent
                    | None => QAbsent
                    end;
     r_dryRun := QAbsent;
     r_mode := QAbsent |}.
End Ui.

(** The categories that the server names (line 2070). *)
Definition CATEGORIES : list string :=
  ["user-caches"; "browsers"; "dev"; "pkg"; "downloads"; "docker"; "deep"].

(** ** A static root for the examples *)

Module Site.
Import Fixture.

Definition cwd : string := "/srv/app".

(** The page, a link beside it that leads out of the root, and a file
    above the root. *)
Definition disk : Disk :=
  [("/srv", NDir);
   ("/srv/app", NDir);
   ("/srv/app/index.html", NFile 120 0);
   ("/srv/app/passwd", NLink "/srv/secret");
   ("/srv/secret", NFile 7 0)].

Definition ops : FsOps Disk := diskOps cwd (fun _ => false).

(** A decoder for paths without escapes. *)
Definition decode (s : string) : option string :=
  if Str.hasChar "%" s then None else Some s.

(** The text from the last dot of the last segment. *)
Fixpoint fromLastDot (s : string) : option string :=
  match s with
  | EmptyString => None
  | String c s' =>
      match fromLastDot s' with
      | Some e => Some e
      | None => if Ascii.eqb c "." then Some s else None
      end
  end.

Definition extname (p : string) : string :=
  default "" (fromLastDot (Path.basename p)).

(** The bytes of a file: here its path, for want of content. *)
Definition readFile (d : Disk) (p : string) : Outcome string :=
  match follow 8 d (key cwd p) with
  | Some (NFile _ _) => Ok (key cwd p)
  | Some _ => Throw "EISDIR"
  | None => Throw "ENOENT"
  end.

Definition get (pathname : string) : option StaticAnswer :=
  serveStatic (H := ops) cwd decode extname readFile disk (Some pathname).
End Site.

(** What holds of each name of [CATEGORIES]: no comma, no white space
    around it, and a first character that is not white space. *)
Definition tidyName (c : string) : Prop :=
  Str.hasChar "," c = false /\ Str.trim c = c /\
  exists a c', c = String a c' /\ Ascii.is_space a = false.

(** ** The depth of a table of paths *)

(** A key of the table: at most [bound] characters, and not the name [.] or
    [..] in a directory. *)
Definition tidyKey (bound : nat) (k : string) : bool :=
  (String.length k <=? bound)%nat &&
  negb (Str.endsWith k "/.") && negb (Str.endsWith k "/..").

(** What is left of [bound] below the path [d]. *)
Definition depthLeft (cwd : string) (bound : nat) (d : string) : nat :=
  bound + 1 - String.length (Path.resolve cwd d).

(** ** The walks of a scan, as a list *)

Section Roots.
Context {FS : Type} `{FsOps FS}.
Variables HOME cwd : string.
Variable brewCache : option string.
Variable fs : FS.

Definition rootsOf (category_ reason_ : string) (dirs : list string)
  : list (string * string * string) :=
  map (fun d => (category_, reason_, d)) dirs.

(** The walks that [scanHandler] can make (lines 2275-2364), in order:
    category, reason and base directory. *)
Definition scanRoots : list (string * string * string) :=
  rootsOf "user-caches" "User Library cache" [Path.join [HOME; "Library"; "Caches"]] ++
  rootsOf "browsers" "Browser cache"
    [Path.join [HOME; "Library"; "Caches"; "com.apple.Safari"];
     Path.join [HOME; "Library"; "Caches"; "Google"; "Chrome"];
     Path.join [HOME; "Library"; "Caches"; "Microsoft Edge"];
     Path.join [HOME; "Library"; "Caches"; "Firefox"; "Profiles"]] ++
  rootsOf "dev" "Developer cache"
    [Path.join [HOME; "Library"; "Developer"; "Xcode"; "DerivedData"];
     Path.join [HOME; "Library"; "Developer"; "Xcode"; "iOS DeviceSupport"];
     Path.join [HOME; "Library"; "Developer"; "CoreSimulator"; "Caches"]] ++
  rootsOf "pkg" "Homebrew cache"
    (match brewCache with
     | Some bcache => if Str.isEmpty bcache then [] else [bcache]
     | None => []
     end) ++
  rootsOf "pkg" "Package manager cache"
    [Path.join [HOME; ".npm"; "_cacache"];
     Path.join [HOME; "Library"; "Caches"; "npm"];
     Path.join [HOME; "Library"; "Caches"; "Yarn"];
     Path.join [HOME; "Library"; "pnpm"; "store"];
     Path.join [HOME; "Library"; "Caches"; "pnpm"];
     Path.join [HOME; ".cache"; "pip"];
     Path.join [HOME; "Library"; "Caches"; "pip"];
     Path.join [HOME; ".cache"; "pipx"]] ++
  rootsOf "downloads" "Downloads item" [Path.join [HOME; "Downloads"]] ++
  rootsOf "deep" "App container cache"
    (if existsSync fs (Path.join [HOME; "Library"; "Containers"]) then
       map (fun appDir => Path.join [appDir; "Data"; "Library"; "Caches"])
           (listDirs fs (Path.join [HOME; "Library"; "Containers"]))
     else []) ++
  rootsOf "deep" "Simulator device cache"
    (if existsSync fs (Path.join [HOME; "Library"; "Developer"; "CoreSimulator"; "Devices"]) then
       map (fun devDir => Path.join [devDir; "data"; "Library"; "Caches"])
           (listDirs fs (Path.join [HOME; "Library"; "Developer"; "CoreSimulator"; "Devices"]))
     else []) ++
  rootsOf "deep" "Xcode archive content"
    [Path.join [HOME; "Library"; "Developer"; "Xcode"; "Archives"]] ++
  rootsOf "deep" "Logs" [Path.join [HOME; "Library"; "Logs"]].

(** The item is collected by the walk of one of the roots, for a
    category that was asked for and a base directory that exists. *)
Definition FromRoots (now : Z) (opts : Opts) (cats : list string)
  (roots : list (string * string * string)) (it : Item) : Prop :=
  exists category_ reason_ baseDir,
    (category_, reason_, baseDir) ∈ roots /\
    includes cats category_ = true /\
    existsSync fs baseDir = true /\
    Collected HOME cwd fs now opts reason_ category_ baseDir it.

(** What a step of the scan appends to [items]: the items from [roots]. *)
Definition Appends (now : Z) (opts : Opts) (cats : list string)
  (roots : list (string * string * string)) (items out : list Item) : Prop :=
  exists new,
    out = items ++ new /\
    forall it, it ∈ new <-> FromRoots now opts cats roots it.
End Roots.

(** The same file as [it], as the walk of [~/Library/Caches] reports it. *)
Definition asUserCache (it : Item) : Item :=
  {| path := path it; bytes := bytes it; mtime := mtime it;
     category := "user-caches"; reason := "User Library cache"; trashable := true |}.

(** The roots of the deny-listed subtrees, below the home root. *)
Definition denyNames : list string :=
  ["Pictures"; "Library/Mail"; "Library/Mobile Documents"; "Desktop"; "Documents"].

(** ** A home directory with a browser cache *)

Module Browse.
Import Fixture.

Definition chrome : string := "/Users/u/Library/Caches/Google/Chrome".
Definition blob : string := "/Users/u/Library/Caches/Google/Chrome/blob.bin".

Definition disk : Disk :=
  [("/Users/u", NDir);
   ("/Users/u/Library", NDir);
   ("/Users/u/Library/Caches", NDir);
   ("/Users/u/Library/Caches/Google", NDir);
   (chrome, NDir);
   (blob, NFile (60 * Demo.MB) (Demo.now0 - 40 * Demo.day))].

Definition blobItem : Item :=
  {| path := blob; bytes := 60 * Demo.MB; mtime := (Demo.now0 - 40 * Demo.day) / 1000;
     category := "browsers"; reason := "Browser cache"; trashable := true |}.

(** The report of a scan without parameters: the one file, twice. *)
Definition report : Report :=
  {| generatedAt := Demo.now0; home := Demo.HOME;
     totals := {| count := 2; bytes_total := 120 * Demo.MB |};
     categories := ["user-caches"; "browsers"; "dev"; "pkg"];
     items := [asUserCache blobItem; blobItem] |}.

Definition scan :=
  scanHandler (H := Demo.ops) Demo.HOME Demo.cwd None 8 disk Demo.now0 ∅
    (Demo.scanQuery None None QAbsent).
End Browse.

(** ** The life of the server *)

Section Life.
Context {FS : Type} `{FsOps FS}.
Variables HOME cwd : string.
Variable JSON_parse : string -> option JSON.
Variable decodeURIComponent : string -> option string.
Variable extname : string -> string.
Variable readFile : FS -> string -> Outcome string.

(** The states the server can be in: it starts with an empty cache, it
    answers requests, and between two requests the filesystem can change
    under it. *)
Inductive Serves : Server FS -> Prop :=
| Serves_start fs :
    Serves {| sv_fs := fs; sv_cache := ∅; sv_calls := [] |}
| Serves_request sv brewCache fuel now ts rq ans sv' :
    Serves sv ->
    serve HOME cwd brewCache JSON_parse decodeURIComponent extname readFile
          fuel now ts sv rq = Some (ans, sv') ->
    Serves sv'
| Serves_outside sv fs' :
    Serves sv ->
    Serves {| sv_fs := fs'; sv_cache := sv_cache sv; sv_calls := sv_calls sv |}.

(** A mutating call on a path that passes the two tests of the handlers:
    the trash directory is made, or a path is removed or moved to the
    trash directory for which [ensureHomeScoped] holds and [isDenyListed]
    does not. Such a path lies strictly under the home root, is none of
    the five deny-listed directories, lies below none of them and not
    inside a photo-library bundle; it can be the bundle directory of a
    photo library outside [Pictures]. *)
Definition callInScope (call : FsCall) : Prop :=
  exists ts p,
    callFor HOME ts p call /\ p <> "" /\
    ensureHomeScoped HOME cwd p = true /\ isDenyListed HOME cwd p = false /\
    underHome HOME cwd p /\ ~ underDenyRoot HOME cwd p /\ ~ inPhotoBundle cwd p.
End Life.

(** ** The command line of the shell front-end ([disk_cleaner.sh] 4-24,
       428-530) *)

Module Cli.

(** The global variables of the script: a value for each name. *)
Definition Env : Type := string -> string.

Definition set (x v : string) (e : Env) : Env :=
  fun y => if String.eqb y x then v else e y.

(** The test [-eq 1] on a variable that holds 0 or 1. *)
Definition isOne (e : Env) (x : string) : bool := String.eqb (e x) "1".

Section Main.
Variable HOME_DIR : string.
(** What [date +%Y%m%d-%H%M%S] prints *)
Variable stamp : string.

(** The variables when the script starts (lines 4-24). *)
Definition initial : Env :=
  set "HOME_DIR" HOME_DIR
    (set "LOG_PATH" (HOME_DIR +:+ "/Library/Logs/disk_cleaner.log")
       (set "DRY_RUN" "1"
          (set "APPLY" "0"
             (set "USE_TRASH" "1"
                (set "YES" "0"
                   (set "NO_COLOR" "0"
                      (set "VERBOSE" "0"
                         (set "DEFAULT_CATS" "user-caches,browsers,dev,pkg"
                            (set "ENABLE_DOWNLOADS" "0"
                               (set "ENABLE_DOCKER" "0"
                                  (set "SERVE" "0"
                                     (set "PORT" "8000"
                                        (set "EASY" "0" (fun _ => "")))))))))))))).

(** [parse_args]: [None] when the script exits (help, an unknown word)
    or stops on the unset second parameter of a word that takes a
    value, under [set -u]. *)
Fixpoint parse_args (args : list string) (e : Env) : option Env :=
  match args with
  | [] => Some e
  | a :: rest =>
      let value (x : string) :=
        match rest with
        | v :: rest' => parse_args rest' (set x v e)
        | [] => None
        end in
      if String.eqb a "--serve" then parse_args rest (set "SERVE" "1" e)
      else if String.eqb a "--port" then value "PORT"
      else if String.eqb a "--easy" then parse_args rest (set "EASY" "1" e)
      else if String.eqb a "--scan-output" then value "SCAN_OUTPUT"
      else if String.eqb a "--scan-to-downloads" then
        parse_args rest
          (set "SCAN_OUTPUT"
               (HOME_DIR +:+ "/Downloads/disk_cleaner_report-" +:+ stamp +:+ ".json") e)
      else if String.eqb a "--apply-from" then value "APPLY_FROM"
      else if String.eqb a "--dry-run" then
        parse_args rest (set "APPLY" "0" (set "DRY_RUN" "1" e))
      else if String.eqb a "--apply" then
        parse_args rest (set "APPLY" "1" (set "DRY_RUN" "0" e))
      else if String.eqb a "--trash" then parse_args rest (set "USE_TRASH" "1" e)
      else if String.eqb a "--no-trash" then parse_args rest (set "USE_TRASH" "0" e)
      else if String.eqb a "--min-size" then value "MIN_SIZE"
      else if String.eqb a "--older-than" then value "OLDER_THAN"
      else if String.eqb a "--include" then value "INCLUDE_CATS"
      else if String.eqb a "--exclude" then value "EXCLUDE_CATS"
      else if String.eqb a "--log" then value "LOG_PATH"
      else if String.eqb a "--no-color" then parse_args rest (set "NO_COLOR" "1" e)
      else if String.eqb a "--yes" then parse_args rest (set "YES" "1" e)
      else if String.eqb a "--verbose" then parse_args rest (set "VERBOSE" "1" e)
      else if String.eqb a "--downloads" then parse_args rest (set "ENABLE_DOWNLOADS" "1" e)
      else if String.eqb a "--docker" then parse_args rest (set "ENABLE_DOCKER" "1" e)
      else None
  end.

(** The easy mode of [main] (lines 467-472). *)
Definition easy (e : Env) : Env :=
  if isOne e "EASY" then
    let e := if Str.isEmpty (e "MIN_SIZE") then set "MIN_SIZE" "50M" e else e in
    let e := if Str.isEmpty (e "OLDER_THAN") then set "OLDER_THAN" "30" e else e in
    let e := if isOne e "ENABLE_DOWNLOADS" then e else set "ENABLE_DOWNLOADS" "1" e in
    set "SERVE" "1" e
  else e.

(** Whether [main] reaches [apply_plan], and with what: the values of
    [DRY_RUN] and [USE_TRASH] as [apply_plan] tests them, and the plan
    file. [confirmed] is the answer of the user to the question of
    [double_confirm_no_trash]. The serve mode ends the script before. *)
Definition toApply (args : list string) (confirmed : bool)
  : option (bool * bool * string) :=
  e ← parse_args args initial;
  let e := easy e in
  if isOne e "SERVE" then None
  else if Str.isEmpty (e "SCAN_OUTPUT") && Str.isEmpty (e "APPLY_FROM") then None
  else if Str.isEmpty (e "APPLY_FROM") then None
  else if String.eqb (e "USE_TRASH") "0" && negb (isOne e "YES") && negb confirmed
  then None
  else Some (isOne e "DRY_RUN", isOne e "USE_TRASH", e "APPLY_FROM").
End Main.

Section Run.
Context {FS : Type} `{FsOps FS}.
Variable HOME_DIR : string.
Variables stamp ts : string.
(** The content of a file, when it is a regular file *)
Variable readPlan : string -> option string.

(** The filesystem that the moves and removals of [apply_plan] leave
    when [main] is run on [args]; the files that the script writes for
    itself (the log, the report, the temporary list) are not part of
    it. *)
Definition applied (args : list string) (confirmed : bool) (fs : FS) : FS :=
  match toApply HOME_DIR stamp args confirmed with
  | Some (dry, trash, plan) =>
      match readPlan plan with
      | Some content => Sh.l_fs (Sh.apply_plan HOME_DIR ts dry trash fs content)
      | None => fs
      end
  | None => fs
  end.
End Run.
End Cli.

(** * Part II: facts about the program *)

(** * Facts about strings *)

Module StrFacts.
Import Str.

Lemma app_cons c s t : String c s +:+ t = String c (s +:+ t).
Proof. reflexivity. Qed.

Lemma app_empty_l t : "" +:+ t = t.
Proof. reflexivity. Qed.

Lemma app_empty_r s : s +:+ "" = s.
Proof. induction s as [|c s IH]; [done|]. by rewrite app_cons, IH. Qed.

Lemma app_assoc' s t u : (s +:+ t) +:+ u = s +:+ t +:+ u.
Proof. induction s as [|c s IH]; [done|]. by rewrite !app_cons, IH. Qed.

Lemma eqb_refl' c : Ascii.eqb c c = true.
Proof. by apply Ascii.eqb_eq. Qed.

Lemma startsWith_spec s pre : startsWith s pre = true <-> exists r, s = pre +:+ r.
Proof.
  revert s. induction pre as [|c pre IH]; intros s; simpl.
  - split; [by exists s|done].
  - destruct s as [|d s].
    + split; [done|]. intros [r Hr]. by rewrite app_cons in Hr.
    + destruct (Ascii.eqb c d) eqn:E.
      * apply Ascii.eqb_eq in E as ->. rewrite IH. split.
        -- intros [r ->]. by exists r.
        -- intros [r Hr]. rewrite app_cons in Hr. exists r. congruence.
      * split; [done|]. intros [r Hr]. rewrite app_cons in Hr.
        apply Ascii.eqb_neq in E. congruence.
Qed.

Lemma startsWith_app s t : startsWith (s +:+ t) s = true.
Proof. apply startsWith_spec. eauto. Qed.

Lemma startsWith_trans s a b :
  startsWith s a = true -> startsWith a b = true -> startsWith s b = true.
Proof.
  rewrite !startsWith_spec. intros [r ->] [r' ->]. exists (r' +:+ r).
  by rewrite app_assoc'.
Qed.

Lemma includes_here s sub : startsWith s sub = true -> includes s sub = true.
Proof. destruct s; simpl; by intros ->. Qed.

Lemma includes_spec_r s a b sub : s = a +:+ sub +:+ b -> includes s sub = true.
Proof.
  revert s. induction a as [|c a IH]; intros s ->.
  - rewrite app_empty_l. apply includes_here, startsWith_app.
  - rewrite app_cons. simpl. rewrite (IH _ eq_refl). by rewrite orb_true_r.
Qed.

Lemma endsWith_spec s suf : endsWith s suf = true -> exists a, s = a +:+ suf.
Proof.
  induction s as [|c s IH]; cbn [endsWith].
  - rewrite orb_false_r. intros ->%String.eqb_eq. by exists "".
  - intros [->%String.eqb_eq | Hs]%orb_true_iff.
    + by exists "".
    + destruct (IH Hs) as [a ->]. by exists (String c a).
Qed.

(** ** Cutting at a separator *)

Lemma split_nonempty c s : split c s <> [].
Proof.
  destruct s as [|d s]; simpl; [done|].
  destruct (Ascii.eqb d c); [done|]. by destruct (split c s).
Qed.

Lemma split_free c s : hasChar c s = false -> split c s = [s].
Proof.
  induction s as [|d s IH]; simpl; [done|].
  intros [E Hs]%orb_false_iff. rewrite Ascii.eqb_sym, E, (IH Hs). done.
Qed.

Lemma split_app c a b : split c (a +:+ String c b) = split c a ++ split c b.
Proof.
  induction a as [|d a IH].
  - rewrite app_empty_l. simpl. by rewrite eqb_refl'.
  - rewrite app_cons. simpl. destruct (Ascii.eqb d c); rewrite IH; [done|].
    pose proof (split_nonempty c a). by destruct (split c a).
Qed.

Lemma split_segments c s : Forall (fun seg => hasChar c seg = false) (split c s).
Proof.
  induction s as [|d s IH]; simpl.
  - by repeat constructor.
  - destruct (Ascii.eqb d c) eqn:E; [by constructor|].
    pose proof (split_nonempty c s). destruct (split c s) as [|seg rest]; [done|].
    inversion IH; subst. constructor; [|done]. simpl.
    by rewrite Ascii.eqb_sym, E.
Qed.

Lemma join_cons sep a b rest :
  join sep (a :: b :: rest) = a +:+ sep +:+ join sep (b :: rest).
Proof. reflexivity. Qed.

Lemma join_app sep l k :
  l <> [] -> k <> [] -> join sep (l ++ k) = join sep l +:+ sep +:+ join sep k.
Proof.
  intros Hl Hk. induction l as [|a l IH]; [done|].
  destruct l as [|b l].
  - destruct k; [done|]. reflexivity.
  - rewrite <- !app_comm_cons, join_cons.
    rewrite (join_cons sep a b l), app_comm_cons, IH by done.
    by rewrite !app_assoc'.
Qed.

Lemma split_join c l :
  l <> [] -> Forall (fun seg => hasChar c seg = false) l ->
  split c (join (String c "") l) = l.
Proof.
  induction l as [|a l IH]; [done|]. intros _ Hall.
  inversion Hall as [|?? Ha Hl]; subst.
  destruct l as [|b l].
  - simpl. by apply split_free.
  - rewrite join_cons. change (String c "" +:+ ?x) with (String c x).
    rewrite split_app, (split_free _ _ Ha), IH by done. done.
Qed.
End StrFacts.

(** ** Sums of byte counts *)

Module NumberFacts.

(** An integer up to 2^53 in magnitude is a double. *)
Lemma roundDouble_exact z : Z.abs z <= 2 ^ 53 -> roundDouble z = z.
Proof. intros Hz. unfold roundDouble. by rewrite (proj2 (Z.leb_le _ _) Hz). Qed.

Lemma abs_signed z m : z <> 0 -> 0 < m -> Z.abs (Z.sgn z * m) = m /\ Z.sgn (Z.sgn z * m) = Z.sgn z.
Proof. intros Hz Hm. destruct z; [done| |]; simpl; destruct m; try done; lia. Qed.

(** A significand of 53 bits times a power of two is a double. *)
Lemma roundDouble_scaled z q e :
  z <> 0 -> 0 <= e -> 2 ^ 52 <= q <= 2 ^ 53 ->
  roundDouble (Z.sgn z * (q * 2 ^ e)) = Z.sgn z * (q * 2 ^ e).
Proof.
  intros Hz He Hq.
  assert (0 < 2 ^ e) as HP by (apply Z.pow_pos_nonneg; lia).
  assert (0 < q * 2 ^ e) as Hm by nia.
  destruct (abs_signed z (q * 2 ^ e) Hz Hm) as [Habs Hsgn].
  unfold roundDouble. rewrite Habs, Hsgn.
  destruct (Z.leb_spec (q * 2 ^ e) (2 ^ 53)) as [|Hbig]; [done|].
  destruct (Z.eq_dec q (2 ^ 53)) as [->|Hne].
  - assert (Z.log2 (2 ^ 53 * 2 ^ e) = 53 + e) as ->.
    { rewrite <- Z.pow_add_r by lia. apply Z.log2_pow2. lia. }
    replace (53 + e - 52) with (e + 1) by lia.
    rewrite (Z.pow_add_r 2 e 1) by lia.
    replace (2 ^ 53 * 2 ^ e) with (2 ^ 52 * (2 ^ e * 2 ^ 1)) by (change (2 ^ 53) with (2 ^ 52 * 2); change (2 ^ 1) with 2; ring).
    rewrite Z.div_mul, Z.mod_mul by (change (2 ^ 1) with 2; lia).
    assert ((2 * 0 <? 2 ^ e * 2 ^ 1) = true) as -> by (apply Z.ltb_lt; change (2 ^ 1) with 2; lia).
    done.
  - assert (Z.log2 (q * 2 ^ e) = 52 + e) as ->.
    { apply Z.log2_unique; [lia|]. replace (Z.succ (52 + e)) with (53 + e) by lia.
      rewrite !Z.pow_add_r by lia. split.
      - apply Z.mul_le_mono_nonneg_r; lia.
      - apply Zmult_lt_compat_r; lia. }
    replace (52 + e - 52) with e by lia.
    rewrite Z.div_mul, Z.mod_mul by lia.
    assert ((2 * 0 <? 2 ^ e) = true) as -> by (apply Z.ltb_lt; lia).
    done.
Qed.

(** What [roundDouble] gives is a double: rounding it again changes
    nothing. *)
Lemma roundDouble_idem z : roundDouble (roundDouble z) = roundDouble z.
Proof.
  unfold roundDouble at 2 3.
  destruct (Z.leb_spec (Z.abs z) (2 ^ 53)) as [Hs|Hb]; [by apply roundDouble_exact|].
  assert (z <> 0) as Hz by (intros ->; simpl in Hb; lia).
  assert (0 < Z.abs z) as Ha by lia.
  destruct (Z.log2_spec (Z.abs z) Ha) as [Hlo Hhi].
  assert (53 <= Z.log2 (Z.abs z)) as Hl.
  { apply Z.log2_le_pow2; [done|lia]. }
  set (e := Z.log2 (Z.abs z) - 52) in *.
  replace (Z.log2 (Z.abs z)) with (52 + e) in Hlo by lia.
  replace (Z.succ (Z.log2 (Z.abs z))) with (53 + e) in Hhi by lia.
  rewrite Z.pow_add_r in Hlo, Hhi by lia.
  assert (0 < 2 ^ e) as HP by (apply Z.pow_pos_nonneg; lia).
  pose proof (Z.div_mod (Z.abs z) (2 ^ e) ltac:(lia)) as Hdm.
  pose proof (Z.mod_pos_bound (Z.abs z) (2 ^ e) HP) as Hr.
  set (q := Z.abs z / 2 ^ e) in *. set (r := Z.abs z mod 2 ^ e) in *.
  assert (2 ^ 52 <= q < 2 ^ 53) as Hq by nia.
  apply roundDouble_scaled; [done|lia|].
  repeat case_match; lia.
Qed.

Lemma addNumber_idem a b : roundDouble (addNumber a b) = addNumber a b.
Proof. apply roundDouble_idem. Qed.

(** Adding 0 to a double gives it back. *)
Lemma addNumber_0_r a : roundDouble a = a -> addNumber a 0 = a.
Proof. intros Ha. unfold addNumber. by rewrite Z.add_0_r. Qed.

Lemma floatSum_snoc l n : floatSum (l ++ [n]) = addNumber (floatSum l) n.
Proof. unfold floatSum. by rewrite fold_left_app. Qed.

(** Sizes that are not negative and sum to at most 2^53 add without
    rounding. *)
Lemma fold_addNumber_exact l acc :
  0 <= acc -> Forall (fun n => 0 <= n) l -> acc + foldr Z.add 0 l <= 2 ^ 53 ->
  fold_left addNumber l acc = acc + foldr Z.add 0 l.
Proof.
  intros Hacc Hall. revert acc Hacc.
  induction Hall as [|n l Hn Hall IH]; intros acc Hacc Hsum; simpl in *; [lia|].
  assert (0 <= foldr Z.add 0 l) as Hrest.
  { clear -Hall. induction Hall; simpl; lia. }
  unfold addNumber at 2. rewrite roundDouble_exact by lia.
  rewrite IH; lia.
Qed.

Lemma floatSum_exact l :
  Forall (fun n => 0 <= n) l -> foldr Z.add 0 l <= 2 ^ 53 ->
  floatSum l = foldr Z.add 0 l.
Proof. intros Hall Hsum. unfold floatSum. rewrite fold_addNumber_exact; [lia|lia|done|lia]. Qed.

(** Above 2^53 the sum is rounded: 9024791438684160 and 1. *)
Example floatSum_rounds : floatSum [9024791438684160; 1] = 9024791438684160.
Proof. vm_compute. reflexivity. Qed.

Example roundDouble_ties :
  roundDouble (2 ^ 53 + 1) = 2 ^ 53 /\ roundDouble (2 ^ 53 + 3) = 2 ^ 53 + 4 /\
  roundDouble (2 ^ 54 + 2) = 2 ^ 54 /\ roundDouble (2 ^ 54 + 6) = 2 ^ 54 + 8 /\
  roundDouble (- (2 ^ 53 + 3)) = - (2 ^ 53 + 4) /\ roundDouble (2 ^ 54 + 3) = 2 ^ 54 + 4.
Proof. vm_compute. repeat split. Qed.
End NumberFacts.

Module PathFacts.
Import Str StrFacts Path.

Lemma plain_step allow acc s : plain s -> normStep allow acc s = s :: acc.
Proof.
  intros (H1 & H2 & H3 & _). unfold normStep.
  destruct (String.eqb_spec s ""); [done|].
  destruct (String.eqb_spec s "."); [done|].
  by destruct (String.eqb_spec s "..").
Qed.

Lemma step_cases allow acc s :
  hasChar "/" s = false ->
  (s = "" \/ s = ".") /\ normStep allow acc s = acc
  \/ s = ".." /\ normStep allow acc s =
       match acc with
       | top :: rest =>
           if String.eqb top ".." then (if allow then ".." :: acc else acc) else rest
       | [] => if allow then [".."] else []
       end
  \/ plain s /\ normStep allow acc s = s :: acc.
Proof.
  intros Hs. unfold normStep.
  destruct (String.eqb_spec s ""); [by left; auto|].
  destruct (String.eqb_spec s "."); [by left; auto|].
  destruct (String.eqb_spec s ".."); [by right; left|].
  right; right. by repeat split.
Qed.

Lemma step_false_plain acc s :
  hasChar "/" s = false -> Forall plain acc -> Forall plain (normStep false acc s).
Proof.
  intros Hs Hacc. destruct (step_cases false acc s Hs) as [[_ ->]|[[_ ->]|[Hp ->]]].
  - done.
  - destruct acc as [|top rest]; [done|]. inversion Hacc; subst.
    by destruct (String.eqb top "..").
  - by constructor.
Qed.

Lemma fold_false_plain segs acc :
  Forall (fun s => hasChar "/" s = false) segs -> Forall plain acc ->
  Forall plain (fold_left (normStep false) segs acc).
Proof.
  revert acc. induction segs as [|s segs IH]; intros acc Hs Hacc; simpl; [done|].
  inversion Hs; subst. apply IH; [done|]. by apply step_false_plain.
Qed.

Lemma fold_plain allow names acc :
  Forall plain names -> fold_left (normStep allow) names acc = rev names ++ acc.
Proof.
  revert acc. induction names as [|s names IH]; intros acc Hn; simpl; [done|].
  inversion Hn; subst. rewrite plain_step, IH by done.
  by rewrite <- app_assoc.
Qed.

Lemma normalizeSegs_app_plain allow segs names :
  Forall plain names ->
  normalizeSegs allow (segs ++ names) = normalizeSegs allow segs ++ names.
Proof.
  intros Hn. unfold normalizeSegs. rewrite fold_left_app, fold_plain by done.
  by rewrite rev_app_distr, rev_involutive.
Qed.

Lemma normalizeSegs_empty_r allow segs :
  normalizeSegs allow (segs ++ [""]) = normalizeSegs allow segs.
Proof. unfold normalizeSegs. by rewrite fold_left_app. Qed.

Lemma normalizeSegs_empty_l allow segs :
  normalizeSegs allow ("" :: segs) = normalizeSegs allow segs.
Proof. done. Qed.

Lemma normalizeSegs_plain segs :
  Forall (fun s => hasChar "/" s = false) segs -> Forall plain (normalizeSegs false segs).
Proof.
  intros Hs. unfold normalizeSegs. apply Forall_rev.
  by apply fold_false_plain.
Qed.
End PathFacts.

Module NormFacts.
Import Str StrFacts Path PathFacts.

Lemma fold_true_shape X :
  Forall (fun s => hasChar "/" s = false) X ->
  Forall (fun s => s = ".." \/ plain s) (fold_left (normStep true) X []).
Proof.
  induction X as [|s X IH] using rev_ind; intros HX; [done|].
  apply Forall_app in HX as [HX Hs]. inversion Hs; subst.
  rewrite fold_left_app. simpl. specialize (IH HX).
  destruct (step_cases true (fold_left (normStep true) X []) s) as [[_ ->]|[[-> ->]|[Hp ->]]];
    [done|done| |by constructor; auto].
  destruct (fold_left (normStep true) X []) as [|top rest]; [by constructor; auto|].
  inversion IH; subst. destruct (String.eqb top ".."); [|done].
  constructor; auto.
Qed.

Lemma step_dotdot_cons allow top Z :
  top <> ".." -> normStep allow (top :: Z) ".." = Z.
Proof.
  intros Hne. unfold normStep.
  change (String.eqb ".." "") with false. change (String.eqb ".." ".") with false.
  change (String.eqb ".." "..") with true. cbv iota.
  by destruct (String.eqb_spec top "..").
Qed.

(** Normalising a relative part first and resolving it afterwards is
    resolving it directly. *)
Lemma norm_compose X acc :
  Forall (fun s => hasChar "/" s = false) X ->
  fold_left (normStep false) (normalizeSegs true X) acc = fold_left (normStep false) X acc.
Proof.
  unfold normalizeSegs.
  induction X as [|s X IH] using rev_ind; intros HX; [done|].
  apply Forall_app in HX as [HX Hs]. inversion Hs as [|?? Hs' _]; subst.
  specialize (IH HX). pose proof (fold_true_shape X HX) as Hshape.
  rewrite !fold_left_app. simpl. rewrite <- IH.
  destruct (step_cases true (fold_left (normStep true) X []) s Hs') as [[Hc ->]|[[-> ->]|[Hp ->]]].
  - by destruct Hc as [-> | ->].
  - destruct (fold_left (normStep true) X []) as [|top rest] eqn:E; simpl.
    + done.
    + destruct (String.eqb_spec top "..") as [->|Hne].
      * simpl. by rewrite fold_left_app.
      * inversion Hshape as [|?? [?|Hp] _]; subst; [done|].
        rewrite fold_left_app. simpl. rewrite (plain_step false _ top Hp).
        by rewrite step_dotdot_cons.
  - simpl. rewrite fold_left_app. simpl. by rewrite !plain_step.
Qed.

Lemma last_app a b : b <> "" -> last (a +:+ b) = last b.
Proof.
  intros Hb. induction a as [|c a IH]; [done|].
  rewrite app_cons. simpl. rewrite IH.
  destruct (a +:+ b) eqn:E; [|done].
  destruct a; [by rewrite app_empty_l in E|by rewrite app_cons in E].
Qed.

Lemma last_free c s : hasChar c s = false -> last s <> Some c.
Proof.
  induction s as [|d s IH]; simpl; [done|].
  intros [E Hs]%orb_false_iff. destruct s; [|by apply IH].
  intros [= ->]. by rewrite eqb_refl' in E.
Qed.

Lemma plain_nonempty s : plain s -> isEmpty s = false.
Proof. intros (H & _). by destruct s. Qed.

Lemma plain_not_abs s t : plain s -> isAbsolute (s +:+ t) = false.
Proof.
  intros (H & _ & _ & Hf). destruct s as [|c s]; [done|].
  rewrite app_cons. unfold isAbsolute. simpl in *.
  apply orb_false_iff in Hf as [-> _]. done.
Qed.
End NormFacts.

Module ResolveFacts.
Import Str StrFacts Path PathFacts NormFacts.

Section WithCwd.
Variable cwd : string.
Hypothesis cwd_abs : isAbsolute cwd = true.

Lemma cwd_nonempty : isEmpty cwd = false.
Proof using cwd_abs. by destruct cwd. Qed.

Lemma resolveRaw_abs p : snd (resolveRaw cwd p) = true.
Proof using cwd_abs.
  unfold resolveRaw. destruct (isEmpty p); simpl.
  - by rewrite cwd_nonempty.
  - destruct (isAbsolute p) eqn:E; [done|]. by rewrite cwd_nonempty.
Qed.

Lemma resolve_render p : resolve cwd p = render (resolveSegs cwd p).
Proof using cwd_abs.
  unfold resolve, resolveSegs. pose proof (resolveRaw_abs p) as Habs.
  destruct (resolveRaw cwd p) as [raw abs]. simpl in Habs. by subst.
Qed.

Lemma resolveSegs_plain p : Forall plain (resolveSegs cwd p).
Proof using cwd_abs.
  unfold resolveSegs. pose proof (resolveRaw_abs p) as Habs.
  destruct (resolveRaw cwd p) as [raw abs]. simpl in Habs. subst.
  apply normalizeSegs_plain, split_segments.
Qed.

Lemma split_trailing p : split "/" (p +:+ "/") = split "/" p ++ [""].
Proof. by rewrite (split_app "/" p ""). Qed.

Lemma resolveSegs_abs p :
  isAbsolute p = true -> resolveSegs cwd p = normalizeSegs false (split "/" p).
Proof.
  intros Hp. unfold resolveSegs, resolveRaw.
  assert (isEmpty p = false) as -> by by destruct p.
  rewrite Hp. simpl. by rewrite split_trailing, normalizeSegs_empty_r.
Qed.

Lemma resolveSegs_rel p :
  isAbsolute p = false ->
  resolveSegs cwd p = normalizeSegs false (split "/" cwd ++ split "/" p).
Proof using cwd_abs.
  intros Hp. unfold resolveSegs, resolveRaw.
  destruct p as [|c p].
  - simpl. rewrite cwd_nonempty, cwd_abs. simpl. rewrite app_empty_r.
    by rewrite (split_app "/" cwd "").
  - cbn [isEmpty]. rewrite Hp, cwd_nonempty, cwd_abs. simpl negb.
    change ("/" +:+ ?x) with (String "/" x).
    rewrite (split_app "/" cwd), split_trailing, app_assoc.
    by rewrite normalizeSegs_empty_r.
Qed.

Lemma normalizeSegs_id allow names :
  Forall plain names -> normalizeSegs allow names = names.
Proof. intros Hp. exact (normalizeSegs_app_plain allow [] names Hp). Qed.

Lemma filter_plain names :
  Forall plain names -> filter (fun s => s <> "") names = names.
Proof.
  induction 1 as [|s names Hs _ IH]; [done|].
  rewrite filter_cons. destruct (decide (s <> "")) as [_|Hn]; [by rewrite IH|].
  destruct Hs as [Hs _]. by destruct Hn.
Qed.

Lemma join_head sep a rest : exists t, Str.join sep (a :: rest) = a +:+ t.
Proof.
  destruct rest; [exists ""; simpl; by rewrite app_empty_r|].
  eexists. apply join_cons.
Qed.

Lemma join_nonempty sep a rest : a <> "" -> isEmpty (Str.join sep (a :: rest)) = false.
Proof.
  intros Ha. destruct (join_head sep a rest) as [t ->]. by destruct a.
Qed.

Lemma join_app_nonempty l k :
  k <> [] -> Forall plain k -> isEmpty (Str.join "/" (l ++ k)) = false.
Proof.
  intros Hk Hp. destruct l as [|a l].
  - destruct k as [|z k]; [done|]. inversion Hp as [|?? [Hz _] _]; subst.
    by apply join_nonempty.
  - rewrite (join_app "/" (a :: l) k) by done.
    by destruct (Str.join "/" (a :: l)).
Qed.

Lemma last_join names :
  names <> [] -> Forall plain names -> last (Str.join "/" names) <> Some "/"%char.
Proof.
  induction names as [|z k IH]; [done|]. intros _ Hp.
  inversion Hp as [|?? Hz Hk]; subst. destruct k as [|y k].
  - apply last_free. apply Hz.
  - rewrite join_cons, last_app by done.
    change ("/" +:+ ?x) with (String "/" x).
    assert (isEmpty (Str.join "/" (y :: k)) = false) as Hne.
    { apply join_nonempty. inversion Hk as [|?? [? _] _]; by subst. }
    cbn [last]. destruct (Str.join "/" (y :: k)) eqn:E; [done|].
    by apply IH.
Qed.

Lemma join_not_abs h l :
  h <> "" -> hasChar "/" h = false -> isAbsolute (Str.join "/" (h :: l)) = false.
Proof.
  intros Hh Hf. destruct (join_head "/" h l) as [t ->].
  destruct h as [|c h]; [done|]. rewrite app_cons. unfold isAbsolute. simpl in *.
  by apply orb_false_iff in Hf as [-> _].
Qed.

(** [path.join] of a directory and names, resolved: the segments of the
    directory followed by the names. *)
Lemma join_form base names :
  Forall plain names -> names <> [] ->
  Path.join (base :: names) =
    (if isAbsolute base then "/" else "") +:+
    Str.join "/" (normalizeSegs (negb (isAbsolute base)) (split "/" base) ++ names).
Proof.
  intros Hp Hne. unfold Path.join. rewrite filter_cons.
  rewrite (filter_plain names) by done.
  assert (forall joined a,
    isEmpty joined = false ->
    last joined <> Some "/"%char ->
    isAbsolute joined = a ->
    isEmpty (normalizeString joined (negb a)) = false ->
    (if isEmpty joined then "." else normalize joined) =
      (if a then "/" else "") +:+ normalizeString joined (negb a)) as Hnorm.
  { intros joined a H1 H2 H3 H4. rewrite H1. unfold normalize. rewrite H1, H3, H4.
    rewrite bool_decide_eq_false_2 by done. by destruct a. }
  destruct (decide (base <> "")) as [Hb|Hb].
  - assert (Str.join "/" (base :: names) = base +:+ "/" +:+ Str.join "/" names) as Hj.
    { destruct names; [done|]. apply join_cons. }
    assert (split "/" (Str.join "/" (base :: names)) = split "/" base ++ names) as Hs.
    { rewrite Hj. change ("/" +:+ ?x) with (String "/" x).
      rewrite split_app, split_join; [done..|].
      eapply Forall_impl; [exact Hp|]. by intros ? (_ & _ & _ & ?). }
    rewrite (Hnorm _ (isAbsolute base)).
    + unfold normalizeString. by rewrite Hs, normalizeSegs_app_plain.
    + by apply join_nonempty.
    + rewrite Hj, last_app by done. change ("/" +:+ ?x) with (String "/" x).
      pose proof (join_app_nonempty [] names Hne Hp) as Hn. simpl in Hn.
      cbn [last]. destruct (Str.join "/" names) eqn:E; [done|].
      rewrite <- E. by apply last_join.
    + rewrite Hj. destruct base; [done|]. by rewrite app_cons.
    + unfold normalizeString. rewrite Hs, normalizeSegs_app_plain by done.
      by apply join_app_nonempty.
  - assert (base = "") as -> by (destruct base; [done|by destruct Hb]).
    pose proof (join_app_nonempty [] names Hne Hp) as Hn. simpl in Hn.
    assert (split "/" (Str.join "/" names) = names) as Hs.
    { apply split_join; [done|].
      eapply Forall_impl; [exact Hp|]. by intros ? (_ & _ & _ & ?). }
    assert (normalizeString (Str.join "/" names) true = Str.join "/" names) as Hns.
    { unfold normalizeString. rewrite Hs.
      by rewrite normalizeSegs_id. }
    rewrite (Hnorm _ false); simpl negb.
    + by rewrite Hns.
    + done.
    + by apply last_join.
    + destruct names as [|z k]; [done|]. inversion Hp as [|?? Hz _]; subst.
      apply join_not_abs; apply Hz.
    + by rewrite Hns.
Qed.

Lemma resolveSegs_join base names :
  Forall plain names -> names <> [] ->
  resolveSegs cwd (Path.join (base :: names)) = resolveSegs cwd base ++ names.
Proof using cwd_abs.
  intros Hp Hne. rewrite join_form by done.
  assert (Forall (fun s => hasChar "/" s = false) names) as Hfree.
  { eapply Forall_impl; [exact Hp|]. by intros ? (_ & _ & _ & ?). }
  destruct (isAbsolute base) eqn:Hb; simpl negb.
  - set (N := normalizeSegs false (split "/" base)).
    assert (Forall plain N) as HN by apply normalizeSegs_plain, split_segments.
    rewrite resolveSegs_abs by done.
    change ("/" +:+ ?x) with (String "/" x). cbn [split]. rewrite eqb_refl'.
    rewrite split_join.
    + rewrite normalizeSegs_empty_l, normalizeSegs_app_plain by done.
      rewrite (resolveSegs_abs base Hb). fold N.
      by rewrite (normalizeSegs_id false N).
    + destruct N; [by destruct names|done].
    + apply Forall_app. split; [|done].
      eapply Forall_impl; [exact HN|]. by intros ? (_ & _ & _ & ?).
  - rewrite app_empty_l.
    set (N := normalizeSegs true (split "/" base)).
    assert (Forall (fun s => s = ".." \/ plain s) N) as HN.
    { apply Forall_rev, fold_true_shape, split_segments. }
    assert (Forall (fun s => s <> "" /\ hasChar "/" s = false) (N ++ names)) as Hall.
    { apply Forall_app. split.
      - eapply Forall_impl; [exact HN|]. intros ? [->|(? & _ & _ & ?)]; by split.
      - eapply Forall_impl; [exact Hp|]. by intros ? (? & _ & _ & ?). }
    rewrite resolveSegs_rel.
    + rewrite split_join.
      * rewrite app_assoc, normalizeSegs_app_plain by done. f_equal.
        rewrite (resolveSegs_rel base Hb). unfold normalizeSegs. f_equal.
        rewrite !fold_left_app. apply norm_compose, split_segments.
      * destruct N; [by destruct names|done].
      * eapply Forall_impl; [exact Hall|]. by intros ? [_ ?].
    + destruct (N ++ names) as [|h l] eqn:E; [by destruct N, names|].
      inversion Hall as [|?? [Hh Hf] _]; subst. by apply join_not_abs.
Qed.
End WithCwd.
End ResolveFacts.

Module SafetyFacts.
Import Str StrFacts PathFacts NormFacts ResolveFacts.
#[local] Arguments Ascii.eqb : simpl never.

Lemma render_slashed l : l <> [] -> render l = slashed l.
Proof.
  induction l as [|a l IH]; [done|]. intros _. unfold render in *.
  destruct l as [|b l].
  - simpl. by rewrite app_empty_r.
  - rewrite join_cons. cbn [slashed]. by rewrite IH.
Qed.

Lemma slashed_app a b : slashed (a ++ b) = slashed a +:+ slashed b.
Proof.
  induction a as [|x a IH]; [done|]. simpl. rewrite IH.
  change ("/" +:+ ?x) with (String "/" x). by rewrite app_cons, !app_assoc'.
Qed.

Lemma slashed_head l : l = [] \/ exists t, slashed l = String "/" t.
Proof. destruct l; [by left|right]. simpl. eauto. Qed.

(** Two names followed by a separator: the shorter text is a prefix of
    the longer one only when the names are equal. *)
Lemma name_boundary x y T U :
  hasChar "/" x = false -> hasChar "/" y = false ->
  (U = "" \/ exists U', U = String "/" U') ->
  startsWith (y +:+ U) (x +:+ String "/" T) = true ->
  x = y /\ startsWith U (String "/" T) = true.
Proof.
  revert y. induction x as [|c x IH]; intros y Hx Hy HU.
  - rewrite app_empty_l. destruct y as [|d y].
    + by rewrite app_empty_l.
    + rewrite app_cons. simpl in *. apply orb_false_iff in Hy as [-> _]. done.
  - simpl in Hx. apply orb_false_iff in Hx as [Hc Hx].
    destruct y as [|d y].
    + rewrite app_empty_l, app_cons. destruct HU as [->|[U' ->]]; [done|].
      simpl. rewrite Ascii.eqb_sym, Hc. done.
    + simpl in Hy. apply orb_false_iff in Hy as [Hd Hy].
      rewrite !app_cons. simpl. destruct (Ascii.eqb c d) eqn:E; [|done].
      apply Ascii.eqb_eq in E as ->. intros Hs.
      destruct (IH y Hx Hy HU Hs) as [-> ?]. done.
Qed.

Lemma slashed_prefix a b :
  Forall plain a -> Forall plain b ->
  startsWith (slashed b) (slashed a +:+ "/") = true ->
  exists s k, b = a ++ s :: k.
Proof.
  intros Ha. revert b. induction Ha as [|x a Hx Ha IH]; intros b Hb.
  - destruct b as [|s k]; [done|]. eauto.
  - destruct b as [|y b]; [done|]. inversion Hb as [|?? Hy Hb']; subst.
    cbn [slashed]. change ("/" +:+ ?x) with (String "/" x).
    rewrite !app_cons, !app_assoc'. simpl.
    assert (exists T, slashed a +:+ "/" = String "/" T) as [T HT].
    { destruct a; simpl; eauto. }
    rewrite HT. intros Hs.
    apply name_boundary in Hs as [-> Hs]; [| apply Hx | apply Hy |].
    + rewrite <- HT in Hs. destruct (IH b Hb' Hs) as (s & k & ->). eauto.
    + destruct (slashed_head b) as [->|[t ->]]; eauto.
Qed.

Lemma render_prefix_strict a b :
  Forall plain a -> Forall plain b ->
  startsWith (render b) (render a +:+ "/") = true ->
  exists s k, b = a ++ s :: k.
Proof.
  intros Ha Hb. destruct a as [|x a].
  - unfold render. simpl. destruct b as [|y b]; [done|].
    destruct (join_head "/" y b) as [t ->].
    inversion Hb as [|?? (Hy & _ & _ & Hf) _]; subst.
    destruct y as [|d y]; [done|]. rewrite app_cons. simpl in *.
    apply orb_false_iff in Hf as [-> _]. done.
  - rewrite (render_slashed (x :: a)) by done. destruct b as [|y b].
    + unfold render. simpl. inversion Ha as [|?? (Hx & _) _]; subst.
      destruct x; [done|]. done.
    + rewrite (render_slashed (y :: b)) by done. by apply slashed_prefix.
Qed.

Lemma render_prefix a b : a `prefix_of` b -> startsWith (render b) (render a) = true.
Proof.
  intros [k ->]. destruct a as [|x a].
  - unfold render. done.
  - rewrite !render_slashed by done. rewrite slashed_app. apply startsWith_app.
Qed.

Section WithHome.
Variables HOME cwd : string.
Hypothesis cwd_abs : Path.isAbsolute cwd = true.

Lemma ensureHomeScoped_sound p :
  ensureHomeScoped HOME cwd p = true -> underHome HOME cwd p.
Proof using cwd_abs.
  unfold ensureHomeScoped, underHome, homeSegs.
  rewrite !resolve_render by done. intros Hs.
  apply render_prefix_strict in Hs; [done|by apply resolveSegs_plain..].
Qed.

Lemma plain_name s :
  negb (String.eqb s "") && negb (String.eqb s ".") && negb (String.eqb s "..")
    && negb (hasChar "/" s) = true -> plain s.
Proof.
  intros (((H1 & H2)%andb_true_iff & H3)%andb_true_iff & H4)%andb_true_iff.
  apply negb_true_iff in H1, H2, H3, H4.
  apply String.eqb_neq in H1, H2, H3. done.
Qed.

Lemma resolve_under names :
  Forall plain names -> names <> [] ->
  Path.resolve cwd (Path.join (HOME :: names)) = render (homeSegs HOME cwd ++ names).
Proof using cwd_abs.
  intros Hp Hne. by rewrite resolve_render, resolveSegs_join.
Qed.

Lemma bundle_matches p :
  inPhotoBundle cwd p -> matchPhotosLibrary (Path.resolve cwd p) = true.
Proof using cwd_abs.
  intros (pre & s & post & Hsegs & Hpost & Hs).
  rewrite resolve_render, Hsegs by done.
  rewrite render_slashed by by destruct pre.
  rewrite slashed_app. cbn [slashed].
  apply endsWith_spec in Hs as [s0 ->].
  destruct post as [|y post]; [done|]. cbn [slashed].
  unfold matchPhotosLibrary. apply orb_true_iff. left.
  apply (includes_spec_r _ (slashed pre +:+ "/" +:+ s0) (y +:+ slashed post)).
  change ("/" +:+ ?x) with (String "/" x).
  rewrite !app_assoc'; do 2 f_equal; by rewrite ?app_assoc'.
Qed.

Lemma isDenyListed_complete p :
  underDenySubtree HOME cwd p -> isDenyListed HOME cwd p = true.
Proof using cwd_abs.
  intros [(root & Hroot & Hpre)|Hb]; unfold isDenyListed.
  - unfold pics, mail, icloudDocs, desktop, documents.
    rewrite !resolve_under
      by first [ done
               | repeat first [ apply List.Forall_nil
                              | apply List.Forall_cons; [apply plain_name; reflexivity|] ] ].
    rewrite (resolve_render cwd cwd_abs p).
    apply render_prefix in Hpre.
    unfold denyRoots in Hroot.
    repeat (apply elem_of_cons in Hroot as [->|Hroot]; [rewrite Hpre; by repeat case_match|]).
    by apply elem_of_nil in Hroot.
  - rewrite (bundle_matches p Hb). by repeat case_match.
Qed.

Lemma isDenyListed_sound p :
  isDenyListed HOME cwd p = false -> ~ underDenySubtree HOME cwd p.
Proof using cwd_abs.
  intros Hf Hu. apply isDenyListed_complete in Hu. congruence.
Qed.
End WithHome.
End SafetyFacts.

Module WalkFacts.

Lemma fold_left_elem_inv {A B} (f : A -> B -> A) (I : A -> Prop) (l : list B) (a : A) :
  (forall a x, x ∈ l -> I a -> I (f a x)) -> I a -> I (fold_left f l a).
Proof.
  revert a. induction l as [|x l IH]; intros a Hstep Ha; simpl; [done|].
  apply IH.
  - intros a' y Hy. apply Hstep. by right.
  - apply Hstep; [by left|done].
Qed.

Section Walk.
Context {FS : Type} `{FsOps FS}.
Variables HOME cwd : string.
Variable fs : FS.
Variable now : Z.
Variable opts : Opts.
Variables reason_ category_ : string.
Variable baseDir : string.
(** What is known of the items pushed before the walk, and kept by it. *)
Variable Q : Item -> Prop.
Hypothesis Q_collected :
  forall it, Collected HOME cwd fs now opts reason_ category_ baseDir it -> Q it.

(** A directory that the walk entered is a directory for [lstat], not a
    symbolic link. *)
Lemma Visited_is_directory d :
  Visited HOME cwd fs baseDir d ->
  d = baseDir \/ exists st, lstat fs d = Ok st /\ st_kind st = KDir.
Proof. destruct 1 as [|current ents ent st]; [by left|right; eauto]. Qed.

Lemma walkEntry_inv current ents acc ent :
  Visited HOME cwd fs baseDir current ->
  readdir fs current = Ok ents -> ent ∈ ents ->
  WalkInv HOME cwd fs Q baseDir acc ->
  WalkInv HOME cwd fs Q baseDir (walkEntry HOME cwd fs now opts reason_ category_ current acc ent).
Proof using Q_collected.
  intros Hcur Hents Hent [Hstack Hitems]. unfold walkEntry.
  destruct acc as [stack items]. simpl in *.
  destruct (ensureHomeScoped HOME cwd _) eqn:Hscope; simpl; [|done].
  destruct (isDenyListed HOME cwd _) eqn:Hdeny; [done|].
  destruct (lstat fs _) as [st|e] eqn:Hst; [|done].
  destruct (st_kind st) eqn:Hkind; [|split; simpl; [|done]|done|done].
  - destruct (passesFilters opts now st) eqn:Hpass; [|done].
    split; simpl; [done|]. apply Forall_app. split; [done|].
    constructor; [|done]. apply Q_collected.
    exists current, ents, ent, st. simpl. by repeat split.
  - constructor; [|done]. by eapply Visited_sub.
Qed.

Lemma walkLoop_inv fuel stack items out :
  Forall (Visited HOME cwd fs baseDir) stack -> Forall Q items ->
  walkLoop HOME cwd fs now opts reason_ category_ fuel stack items = Some out ->
  Forall Q out.
Proof using Q_collected.
  revert stack items. induction fuel as [|fuel IH]; intros stack items Hstack Hitems.
  - destruct stack; simpl; [|done]. by intros [= <-].
  - destruct stack as [|current rest]; simpl; [by intros [= <-]|].
    inversion Hstack as [|?? Hcur Hrest]; subst.
    destruct (readdir fs current) as [ents|e] eqn:Hents; [|by apply IH].
    destruct (fold_left _ ents (rest, items)) as [stack' items'] eqn:Hfold.
    assert (WalkInv HOME cwd fs Q baseDir (stack', items')) as [Hs' Hi'].
    { rewrite <- Hfold. apply fold_left_elem_inv; [|done].
      intros acc ent Hent Hacc. by eapply walkEntry_inv. }
    by apply IH.
Qed.

Lemma walkCollect_inv fuel items out :
  Forall Q items ->
  walkCollect HOME cwd fs now opts reason_ category_ fuel baseDir items = Some out ->
  Forall Q out.
Proof using Q_collected.
  intros Hitems. apply walkLoop_inv; [|done]. repeat constructor.
Qed.
End Walk.

Section Scan.
Context {FS : Type} `{FsOps FS}.
Variables HOME cwd : string.
Variable fs : FS.
Variable now : Z.
Variable opts : Opts.

Lemma walkCollect_found reason_ category_ fuel d items out :
  Forall (Found HOME cwd fs now opts) items ->
  walkCollect HOME cwd fs now opts reason_ category_ fuel d items = Some out ->
  Forall (Found HOME cwd fs now opts) out.
Proof.
  apply walkCollect_inv. intros it Hit. by exists reason_, category_, d.
Qed.

Lemma walkIfExists_found reason_ category_ fuel d items out :
  Forall (Found HOME cwd fs now opts) items ->
  walkIfExists HOME cwd fs now opts reason_ category_ fuel d items = Some out ->
  Forall (Found HOME cwd fs now opts) out.
Proof.
  unfold walkIfExists. destruct (existsSync fs d).
  - apply walkCollect_found.
  - by intros ? [= <-].
Qed.

Lemma walkEach_found reason_ category_ fuel dirs items out :
  Forall (Found HOME cwd fs now opts) items ->
  walkEach HOME cwd fs now opts reason_ category_ fuel dirs items = Some out ->
  Forall (Found HOME cwd fs now opts) out.
Proof.
  revert items. induction dirs as [|d dirs IH]; intros items Hitems; simpl.
  - by intros [= <-].
  - destruct (walkIfExists _ _ _ _ _ _ _ _ d items) as [items'|] eqn:E; [|done].
    apply IH. by eapply walkIfExists_found.
Qed.

Lemma collectAll_found brewCache fuel cats its :
  collectAll HOME cwd brewCache fuel fs now opts cats = Some its ->
  Forall (Found HOME cwd fs now opts) its.
Proof.
  unfold collectAll. intros Hc.
  repeat match type of Hc with
         | (_ ≫= _) = Some _ =>
             let x := fresh "its" in let E := fresh "E" in
             apply bind_Some in Hc as (x & E & Hc)
         end.
  repeat match goal with
         | E : (if ?b then _ else _) = Some _ |- _ => destruct b
         | E : match ?o with Some _ => _ | None => _ end = Some _ |- _ => destruct o
         | E : Some _ = Some _ |- _ => apply (inj Some) in E; subst
         | E : (_ ≫= _) = Some _ |- _ =>
             let x := fresh "its" in let E' := fresh "E" in
             apply bind_Some in E as (x & E' & E)
         end;
  repeat match goal with
         | E : walkIfExists _ _ _ _ _ _ _ _ _ ?i = Some _ |- _ =>
             apply walkIfExists_found in E; [|by eauto]
         | E : walkEach _ _ _ _ _ _ _ _ _ ?i = Some _ |- _ =>
             apply walkEach_found in E; [|by eauto]
         | E : walkCollect _ _ _ _ _ _ _ _ _ ?i = Some _ |- _ =>
             apply walkCollect_found in E; [|by eauto]
         end; eauto.
Qed.
End Scan.
End WalkFacts.

Module ScanFacts.
Import WalkFacts.

Section Scan.
Context {FS : Type} `{FsOps FS}.
Variables HOME cwd : string.

(** The options and the report of a scan that walks the disk. *)
Lemma scanHandler_cases brewCache fuel fs now c rq r c' :
  scanHandler HOME cwd brewCache fuel fs now c rq = Some (r, c') ->
  (exists k ts, c !! k = Some (ts, r) /\ now - ts < SCAN_CACHE_TTL_MS /\ c' = c)
  \/ (exists its k,
        collectAll HOME cwd brewCache fuel fs now
          (scanOptions (parseQuery rq))
          (effectiveCats (parseQuery rq)) = Some its /\
        r = {| generatedAt := now; home := HOME; totals := sumTotals its;
               categories := effectiveCats (parseQuery rq); items := its |} /\
        c' = <[k := (now, r)]> c).
Proof.
  unfold scanHandler.
  set (key := (_, _, _, _)).
  intros Hs. cbv zeta in Hs.
  assert (forall o, (o ≫= (fun its : list Item =>
              Some ({| generatedAt := now; home := HOME; totals := sumTotals its;
                       categories := effectiveCats (parseQuery rq); items := its |},
                    <[key := (now, {| generatedAt := now; home := HOME;
                                      totals := sumTotals its;
                                      categories := effectiveCats (parseQuery rq);
                                      items := its |})]> c))) = Some (r, c') ->
            exists its, o = Some its /\
              r = {| generatedAt := now; home := HOME; totals := sumTotals its;
                     categories := effectiveCats (parseQuery rq); items := its |} /\
              c' = <[key := (now, r)]> c) as Hfresh.
  { intros o (its & -> & [= <- <-])%bind_Some. by exists its. }
  revert Hs.
  match goal with
  | |- match ?o with _ => _ end = _ -> _ => destruct o as [[ts body]|] eqn:Hk
  end; intros Hs.
  - destruct (now - ts <? SCAN_CACHE_TTL_MS) eqn:Httl.
    + simplify_eq. left. exists key, ts. repeat split; [done|lia].
    + right. apply Hfresh in Hs as (its & ? & ? & ?). by exists its, key.
  - right. apply Hfresh in Hs as (its & ? & ? & ?). by exists its, key.
Qed.

Variable JSON_parse : string -> option JSON.

Lemma applyHandler_cache ts fs c rq body :
  cache_after (applyHandler HOME cwd JSON_parse ts fs c rq body) = c
  \/ cache_after (applyHandler HOME cwd JSON_parse ts fs c rq body) = ∅.
Proof.
  unfold applyHandler. destruct (planItems _); [|by left].
  destruct (applyLoop _ _ _ _ _ _ _) as [a [e|]]; [by left|by right].
Qed.

(** A property of every report that a walk builds holds of every report
    in the cache, and so of every report that a scan call returns. *)
Section Invariant.
Variable P : Report -> Prop.
Hypothesis P_fresh :
  forall brewCache fuel fs now opts cats its,
    collectAll HOME cwd brewCache fuel fs now opts cats = Some its ->
    P {| generatedAt := now; home := HOME; totals := sumTotals its;
         categories := cats; items := its |}.

Lemma cache_inv c :
  Reachable HOME cwd JSON_parse c ->
  forall k ts r, c !! k = Some (ts, r) -> P r.
Proof using P_fresh.
  induction 1 as [|c brewCache fuel fs now rq r c' Hc IH Hscan|c ts fs rq body Hc IH];
    intros k ts' r' Hk.
  - by rewrite lookup_empty in Hk.
  - apply scanHandler_cases in Hscan
      as [(k0 & ts0 & Hk0 & _ & ->)|(its & k0 & Hits & -> & ->)]; [by eapply IH|].
    destruct (decide (k0 = k)) as [->|Hne].
    + rewrite lookup_insert_eq in Hk. injection Hk as <- <-. by eapply P_fresh.
    + rewrite lookup_insert_ne in Hk by done. by eapply IH.
  - destruct (applyHandler_cache ts fs c rq body) as [E|E]; rewrite E in Hk.
    + by eapply IH.
    + by rewrite lookup_empty in Hk.
Qed.

Lemma scan_report_inv c brewCache fuel fs now rq r c' :
  Reachable HOME cwd JSON_parse c ->
  scanHandler HOME cwd brewCache fuel fs now c rq = Some (r, c') ->
  P r.
Proof using P_fresh.
  intros Hc Hscan.
  apply scanHandler_cases in Hscan
    as [(k0 & ts0 & Hk0 & _ & ->)|(its & k0 & Hits & -> & ->)].
  - by eapply cache_inv.
  - by eapply P_fresh.
Qed.
End Invariant.
End Scan.

Lemma sumTotals_spec its :
  sumTotals its = {| count := Z.of_nat (length its);
                     bytes_total := floatSum (map bytes its) |}.
Proof.
  unfold sumTotals, floatSum.
  assert (forall n b,
    fold_left (fun acc it => {| count := count acc + 1;
                                bytes_total := addNumber (bytes_total acc) (bytes it) |})
              its {| count := n; bytes_total := b |}
    = {| count := n + Z.of_nat (length its);
         bytes_total := fold_left addNumber (map bytes its) b |}) as Hgen.
  { induction its as [|it its IH]; intros n b; simpl.
    - f_equal; lia.
    - rewrite IH. f_equal; lia. }
  rewrite Hgen. f_equal.
Qed.
End ScanFacts.

Module ApplyFacts.

(** The items of the wire shape [{ path, category }] with a text for
    path can be read. *)
Lemma itemPath_text fields s :
  lookupField "path" fields = Some (JStr s) -> itemPath (JObj fields) = Ok s.
Proof. intros Hf. unfold itemPath. simpl. rewrite Hf. simpl. by destruct s. Qed.

Lemma itemPath_null : exists e, itemPath JNull = Throw e.
Proof. by eexists. Qed.

Section Apply.
Context {FS : Type} `{FsOps FS}.
Variables HOME cwd : string.
Variable ts : string.

Ltac step_cases :=
  unfold applyPath, pushDetail, pushCounted, pushError;
  repeat case_match; simplify_eq; simpl in *.

Lemma applyPath_detail dryRun mode a p :
  exists d, a_details (applyPath HOME cwd ts dryRun mode a p) = a_details a ++ [d] /\ detailPath d = p.
Proof. step_cases; eauto. Qed.

Lemma applyPath_tallied dryRun mode a p :
  Tallied a -> Tallied (applyPath HOME cwd ts dryRun mode a p).
Proof.
  intros [Hc Hb]. unfold Tallied.
  step_cases; rewrite omap_app; simpl;
    rewrite ?app_nil_r, ?length_app, ?NumberFacts.floatSum_snoc;
    simpl; split; first [lia | congruence].
Qed.

Lemma applyPath_dry_world mode a p : a_world (applyPath HOME cwd ts true mode a p) = a_world a.
Proof. step_cases; done. Qed.

Lemma safeTrashMove_calls w p :
  exists new, w_calls (safeTrashMove HOME ts w p).1 = w_calls w ++ new /\
              Forall (fun c => isRm c = false) new.
Proof.
  unfold safeTrashMove, ensureTrashDir.
  repeat case_match; simplify_eq; simpl;
    first [ by exists []; rewrite app_nil_r
          | rewrite <- ?app_assoc; eexists; split; [done|by repeat constructor] ].
Qed.

Lemma applyPath_no_rm dryRun mode a p :
  String.eqb mode "delete" = false -> NoRm a -> NoRm (applyPath HOME cwd ts dryRun mode a p).
Proof.
  intros Hmode [Hcalls Hdet]. unfold NoRm.
  pose proof (safeTrashMove_calls (a_world a) p) as (new & Hnew & Hrm).
  step_cases;
    (split; [|by apply Forall_app; split; [done|repeat constructor]]);
    try done; rewrite Hnew; by apply Forall_app.
Qed.

Lemma applyPath_deny dryRun mode a p :
  p <> "" -> existsSync (w_fs (a_world a)) p = true ->
  ensureHomeScoped HOME cwd p = true -> isDenyListed HOME cwd p = true ->
  applyPath HOME cwd ts dryRun mode a p = pushDetail a (DSkipped p "deny_listed").
Proof.
  intros Hp He Hs Hd. unfold applyPath. rewrite He, Hs, Hd.
  by destruct p.
Qed.


Lemma applyPath_throws mode a p w' e :
  p <> "" -> existsSync (w_fs (a_world a)) p = true ->
  ensureHomeScoped HOME cwd p = true -> isDenyListed HOME cwd p = false ->
  mutationThrows HOME ts mode (a_world a) p w' e ->
  applyPath HOME cwd ts false mode a p = pushError a w' (DError p e).
Proof.
  intros Hp He Hs Hd. unfold mutationThrows, applyPath, liveIsDirectory.
  rewrite He, Hs, Hd. destruct p; [done|]. simpl.
  destruct (String.eqb mode "delete").
  - intros (fs' & Hrm & ->). destruct (statSync _ _) as [st|]; by rewrite Hrm.
  - by intros ->.
Qed.

(** The step on a path that passes the three tests, outside a dry
    run: the removal or the move, whatever the path is. *)
Lemma applyPath_live mode a p :
  p <> "" -> existsSync (w_fs (a_world a)) p = true ->
  ensureHomeScoped HOME cwd p = true -> isDenyListed HOME cwd p = false ->
  applyPath HOME cwd ts false mode a p =
    let w := a_world a in
    let n := liveBytes (w_fs w) p in
    if String.eqb mode "delete" then
      let recursive := liveIsDirectory (w_fs w) p in
      let w' fs' := {| w_fs := fs'; w_calls := w_calls w ++ [CallRm p recursive] |} in
      match rmSync (w_fs w) p recursive with
      | (fs', None) => pushCounted a (w' fs') (DDeleted p n) n
      | (fs', Some e) => pushError a (w' fs') (DError p e)
      end
    else
      match safeTrashMove HOME ts w p with
      | (w', Ok dest) => pushCounted a w' (DTrashed p dest n) n
      | (w', Throw e) => pushError a w' (DError p e)
      end.
Proof.
  intros Hp He Hs Hd. unfold applyPath, liveBytes, liveIsDirectory. rewrite He, Hs, Hd.
  destruct p; [done|]. simpl.
  destruct (String.eqb mode "delete").
  - destruct (statSync _ _) as [st|]; by destruct (rmSync _ _ _) as [fs' [err|]].
  - by destruct (statSync _ _) as [st|].
Qed.


(** *** The loop *)

Lemma applyLoop_inv (I : @ApplyState FS -> Prop) dryRun mode its a :
  (forall a p, I a -> I (applyPath HOME cwd ts dryRun mode a p)) ->
  I a -> I (applyLoop HOME cwd ts dryRun mode its a).1.
Proof.
  intros Hstep. revert a. induction its as [|it its IH]; intros a Ha; simpl; [done|].
  destruct (itemPath it); [|done]. apply IH, Hstep, Ha.
Qed.

Lemma applyLoop_app dryRun mode pre post a :
  applyLoop HOME cwd ts dryRun mode (pre ++ post) a =
    match applyLoop HOME cwd ts dryRun mode pre a with
    | (a1, None) => applyLoop HOME cwd ts dryRun mode post a1
    | (a1, Some e) => (a1, Some e)
    end.
Proof.
  revert a. induction pre as [|it pre IH]; intros a; simpl; [done|].
  by destruct (itemPath it).
Qed.

Lemma applyLoop_details dryRun mode its paths a :
  Forall2 (fun it p => itemPath it = Ok p) its paths ->
  exists a' ds,
    applyLoop HOME cwd ts dryRun mode its a = (a', None) /\
    a_details a' = a_details a ++ ds /\
    Forall2 (fun it d => itemPath it = Ok (detailPath d)) its ds.
Proof.
  intros Hits. revert a. induction Hits as [|it p its paths Hp _ IH]; intros a; simpl.
  - exists a, []. by rewrite app_nil_r.
  - rewrite Hp.
    destruct (applyPath_detail dryRun mode a p) as (d & Hd & Hpath).
    destruct (IH (applyPath HOME cwd ts dryRun mode a p)) as (a' & ds & Hloop & Hds & Hall).
    exists a', (d :: ds). split; [done|]. split.
    + by rewrite Hds, Hd, <- app_assoc.
    + constructor; [by rewrite Hpath|done].
Qed.


Lemma applyLoop_stops dryRun mode pre bad post e a a1 :
  applyLoop HOME cwd ts dryRun mode pre a = (a1, None) ->
  itemPath bad = Throw e ->
  applyLoop HOME cwd ts dryRun mode (pre ++ bad :: post) a = (a1, Some e).
Proof. intros Hpre Hbad. rewrite applyLoop_app, Hpre. simpl. by rewrite Hbad. Qed.
End Apply.

Section Shell.
Context {FS : Type} `{FsOps FS}.
Variables HOME_DIR ts : string.
Variables DRY_RUN USE_TRASH : bool.

Lemma apply_one_log s p :
  exists e, Sh.l_log (Sh.apply_one HOME_DIR ts DRY_RUN USE_TRASH s p) = Sh.l_log s ++ [e]
            /\ eventPath e = p.
Proof.
  unfold Sh.apply_one, Sh.skip, Sh.tally. repeat case_match; simpl; eauto.
Qed.

Lemma fold_apply_one_log paths s :
  exists es, Sh.l_log (fold_left (Sh.apply_one HOME_DIR ts DRY_RUN USE_TRASH) paths s)
             = Sh.l_log s ++ es
             /\ Forall2 (fun p e => eventPath e = p) paths es.
Proof.
  revert s. induction paths as [|p paths IH]; intros s; simpl.
  - exists []. by rewrite app_nil_r.
  - destruct (apply_one_log s p) as (e & He & Hp).
    destruct (IH (Sh.apply_one HOME_DIR ts DRY_RUN USE_TRASH s p)) as (es & Hes & Hall).
    exists (e :: es). rewrite Hes, He, <- app_assoc. split; [done|]. by constructor.
Qed.
End Shell.
End ApplyFacts.

Module Termination.

Lemma settles_ret {A} (a : A) : Settles (fun _ => Some a).
Proof. by exists 0%nat, a. Qed.

Lemma settles_bind {A B} (f : nat -> option A) (g : nat -> A -> option B) :
  Settles f -> (forall a, Settles (fun n => g n a)) ->
  Settles (fun n => f n ≫= g n).
Proof.
  intros (n0 & a & Hf) Hg. destruct (Hg a) as (n1 & b & Hgb).
  exists (n0 `max` n1)%nat, b. intros n Hn.
  rewrite Hf by lia. simpl. apply Hgb. lia.
Qed.

Lemma settles_if {A} (b : bool) (f g : nat -> option A) :
  Settles f -> Settles g -> Settles (fun n => if b then f n else g n).
Proof. by destruct b. Qed.

Section Walk.
Context {FS : Type} `{FsOps FS}.
Variables HOME cwd : string.
Variable fs : FS.
Variable now : Z.
Variable opts : Opts.
Variable height : string -> nat.
Hypothesis shallow : Shallow HOME cwd fs height.

Lemma cost_mono m n d : (m <= n)%nat -> (cost HOME cwd fs m d <= cost HOME cwd fs n d)%nat.
Proof.
  revert n d. induction m as [|m IH]; intros n d Hmn.
  - destruct n; simpl; lia.
  - destruct n as [|n]; [lia|]. simpl.
    assert (sum_list (map (cost HOME cwd fs m) (children HOME cwd fs d))
            <= sum_list (map (cost HOME cwd fs n) (children HOME cwd fs d)))%nat; [|lia].
    induction (children HOME cwd fs d) as [|c l IHl]; simpl; [lia|].
    specialize (IH n c). lia.
Qed.

Lemma cost_children d :
  (1 + stackCost HOME cwd fs height (children HOME cwd fs d) <= dirCost HOME cwd fs height d)%nat.
Proof using shallow.
  unfold stackCost, dirCost. pose proof (shallow d) as Hd.
  destruct (height d) as [|n] eqn:Hh.
  - destruct (children HOME cwd fs d) as [|c l]; [simpl; lia|].
    specialize (Hd c (list_elem_of_here _ _)). lia.
  - simpl.
    assert (forall l, (forall c, c ∈ l -> (height c < S n)%nat) ->
              (sum_list (map (fun c => cost HOME cwd fs (height c) c) l)
               <= sum_list (map (cost HOME cwd fs n) l))%nat) as Hsum.
    { induction l as [|c l IHl]; intros Hl; simpl; [lia|].
      pose proof (cost_mono (height c) n c) as Hc.
      specialize (Hl c (list_elem_of_here _ _)) as Hlt.
      assert (forall c', c' ∈ l -> (height c' < S n)%nat) as Hl'
        by (intros c' Hc'; apply Hl; by right).
      specialize (IHl Hl'). lia. }
    specialize (Hsum _ Hd). lia.
Qed.

Lemma stackCost_app l k :
  stackCost HOME cwd fs height (l ++ k) =
    (stackCost HOME cwd fs height l + stackCost HOME cwd fs height k)%nat.
Proof.
  unfold stackCost. induction l as [|d l IH]; [done|]. simpl. rewrite IH. lia.
Qed.

Lemma stackCost_rev l :
  stackCost HOME cwd fs height (rev l) = stackCost HOME cwd fs height l.
Proof.
  induction l as [|d l IH]; [done|]. simpl rev. rewrite stackCost_app, IH.
  unfold stackCost, dirCost. simpl. lia.
Qed.

Variables reason_ category_ : string.

Lemma walkEntry_stack current acc ent :
  (walkEntry HOME cwd fs now opts reason_ category_ current acc ent).1 =
    if descends HOME cwd fs (Path.join [current; d_name ent])
    then Path.join [current; d_name ent] :: acc.1 else acc.1.
Proof.
  unfold walkEntry, descends. destruct acc as [stack items].
  destruct (ensureHomeScoped HOME cwd _); simpl; [|done].
  destruct (isDenyListed HOME cwd _); simpl; [done|].
  destruct (lstat fs _) as [st|e]; simpl; [|done].
  destruct (st_kind st); simpl; try done.
  by destruct (passesFilters opts now st).
Qed.

Lemma fold_walkEntry_stack current ents acc :
  (fold_left (walkEntry HOME cwd fs now opts reason_ category_ current) ents acc).1
  = rev (filter (fun full => descends HOME cwd fs full = true)
                (map (fun ent => Path.join [current; d_name ent]) ents)) ++ acc.1.
Proof.
  revert acc. induction ents as [|ent ents IH]; intros acc; [done|].
  cbn [fold_left map]. rewrite IH, walkEntry_stack, filter_cons.
  destruct (descends HOME cwd fs (Path.join [current; d_name ent])) eqn:E.
  - rewrite decide_True by done. simpl. by rewrite <- app_assoc.
  - rewrite decide_False by (by intros ?). done.
Qed.

Lemma walkLoop_total fuel stack items :
  (stackCost HOME cwd fs height stack <= fuel)%nat ->
  exists out, walkLoop HOME cwd fs now opts reason_ category_ fuel stack items = Some out.
Proof using shallow.
  revert stack items. induction fuel as [|fuel IH]; intros stack items Hfuel.
  - destruct stack as [|d stack]; [by eexists|].
    unfold stackCost, dirCost in Hfuel. simpl in Hfuel. destruct (height d); simpl in Hfuel; lia.
  - destruct stack as [|current rest]; [by eexists|]. simpl.
    pose proof (cost_children current) as Hc.
    change (stackCost HOME cwd fs height (current :: rest))
      with (dirCost HOME cwd fs height current + stackCost HOME cwd fs height rest)%nat in Hfuel.
    unfold children in Hc.
    destruct (readdir fs current) as [ents|e] eqn:Hents.
    + destruct (fold_left _ ents (rest, items)) as [stack' items'] eqn:Hfold.
      apply IH.
      pose proof (fold_walkEntry_stack current ents (rest, items)) as Hs.
      rewrite Hfold in Hs. simpl in Hs. rewrite Hs, stackCost_app, stackCost_rev. lia.
    + apply IH. lia.
Qed.

Lemma walkLoop_mono fuel fuel' stack items out :
  walkLoop HOME cwd fs now opts reason_ category_ fuel stack items = Some out ->
  (fuel <= fuel')%nat ->
  walkLoop HOME cwd fs now opts reason_ category_ fuel' stack items = Some out.
Proof.
  revert fuel' stack items. induction fuel as [|fuel IH]; intros fuel' stack items Hw Hle.
  - destruct stack; [|done]. by destruct fuel'.
  - destruct fuel' as [|fuel']; [lia|]. destruct stack as [|current rest]; [done|].
    simpl in *. destruct (readdir fs current) as [ents|e].
    + destruct (fold_left _ ents (rest, items)) as [stack' items'].
      apply IH; [done|lia].
    + apply IH; [done|lia].
Qed.

Lemma walkCollect_settles d items :
  Settles (fun fuel => walkCollect HOME cwd fs now opts reason_ category_ fuel d items).
Proof using shallow.
  destruct (walkLoop_total (stackCost HOME cwd fs height [d]) [d] items) as [out Hout];
    [done|].
  exists (stackCost HOME cwd fs height [d]), out. intros n Hn.
  by eapply walkLoop_mono.
Qed.

Lemma walkIfExists_settles d items :
  Settles (fun fuel => walkIfExists HOME cwd fs now opts reason_ category_ fuel d items).
Proof using shallow.
  unfold walkIfExists. apply settles_if; [apply walkCollect_settles|apply settles_ret].
Qed.

Lemma walkEach_settles dirs items :
  Settles (fun fuel => walkEach HOME cwd fs now opts reason_ category_ fuel dirs items).
Proof using shallow.
  revert items. induction dirs as [|d dirs IH]; intros items; [apply settles_ret|].
  destruct (walkIfExists_settles d items) as (n0 & its & Hd).
  destruct (IH its) as (n1 & out & Hout).
  exists (n0 `max` n1)%nat, out. intros n Hn. simpl.
  rewrite Hd by lia. apply Hout. lia.
Qed.
End Walk.

Section Scan.
Context {FS : Type} `{FsOps FS}.
Variables HOME cwd : string.
Variable fs : FS.
Variable height : string -> nat.
Hypothesis shallow : Shallow HOME cwd fs height.

Lemma collectAll_settles brewCache now opts cats :
  Settles (fun fuel => collectAll HOME cwd brewCache fuel fs now opts cats).
Proof using shallow.
  unfold collectAll.
  repeat first
    [ apply settles_ret
    | apply (walkEach_settles HOME cwd fs now opts height shallow)
    | apply (walkIfExists_settles HOME cwd fs now opts height shallow)
    | apply (walkCollect_settles HOME cwd fs now opts height shallow)
    | apply settles_bind; [|intros ?]
    | apply settles_if
    | match goal with
      | |- Settles (fun _ => match ?o with Some _ => _ | None => _ end) => destruct o
      end ].
Qed.

(** On a directory tree of finite depth, the scan handler answers,
    given fuel enough. *)
Lemma scanHandler_settles brewCache now c rq :
  Settles (fun fuel => scanHandler HOME cwd brewCache fuel fs now c rq).
Proof using shallow.
  unfold scanHandler.
  match goal with
  | |- Settles (fun _ => match ?o with _ => _ end) => destruct o as [[ts body]|]
  end.
  - destruct (now - ts <? SCAN_CACHE_TTL_MS); [apply settles_ret|].
    apply settles_bind; [apply collectAll_settles|intros ?; apply settles_ret].
  - apply settles_bind; [apply collectAll_settles|intros ?; apply settles_ret].
Qed.
End Scan.
End Termination.

Module WalkExact.
Import WalkFacts Termination.

Lemma elem_of_rev_list {A} (x : A) (l : list A) : x ∈ l -> x ∈ rev l.
Proof. rewrite !list_elem_of_In. apply in_rev. Qed.

Section Walk.
Context {FS : Type} `{FsOps FS}.
Variables HOME cwd : string.
Variable fs : FS.
Variable now : Z.
Variable opts : Opts.
Variables reason_ category_ : string.

Lemma walkEntry_items current acc ent :
  (walkEntry HOME cwd fs now opts reason_ category_ current acc ent).2 =
    acc.2 ++ option_list (pushedItem HOME cwd fs now opts reason_ category_ current ent).
Proof.
  unfold walkEntry, pushedItem. destruct acc as [stack items]. simpl.
  destruct (negb (ensureHomeScoped HOME cwd _) || isDenyListed HOME cwd _);
    simpl; [by rewrite app_nil_r|].
  destruct (lstat fs _) as [st|e]; simpl; [|by rewrite app_nil_r].
  destruct (st_kind st); simpl; rewrite ?app_nil_r; try done.
  destruct (passesFilters opts now st); simpl; by rewrite ?app_nil_r.
Qed.

Lemma fold_walkEntry_items current ents acc :
  (fold_left (walkEntry HOME cwd fs now opts reason_ category_ current) ents acc).2 =
    acc.2 ++ omap (pushedItem HOME cwd fs now opts reason_ category_ current) ents.
Proof.
  revert acc. induction ents as [|ent ents IH]; intros acc; simpl.
  - by rewrite app_nil_r.
  - rewrite IH, walkEntry_items, <- app_assoc. f_equal.
    by destruct (pushedItem _ _ _ _ _ _ _ _ _).
Qed.

(** One turn of the loop, written out. *)
Lemma walkLoop_step fuel current rest items :
  walkLoop HOME cwd fs now opts reason_ category_ (S fuel) (current :: rest) items =
    match readdir fs current with
    | Throw _ => walkLoop HOME cwd fs now opts reason_ category_ fuel rest items
    | Ok ents =>
        walkLoop HOME cwd fs now opts reason_ category_ fuel
          (rev (children HOME cwd fs current) ++ rest)
          (items ++ omap (pushedItem HOME cwd fs now opts reason_ category_ current) ents)
    end.
Proof.
  simpl. unfold children. destruct (readdir fs current) as [ents|e]; [|done].
  pose proof (fold_walkEntry_stack HOME cwd fs now opts reason_ category_
                current ents (rest, items)) as Hs.
  pose proof (fold_walkEntry_items current ents (rest, items)) as Hi.
  destruct (fold_left _ ents (rest, items)) as [stack' items']. simpl in *. by subst.
Qed.

(** The walk keeps what was pushed before it, in order, in front. *)
Lemma walkLoop_prefix fuel stack items out :
  walkLoop HOME cwd fs now opts reason_ category_ fuel stack items = Some out ->
  exists new, out = items ++ new.
Proof.
  revert stack items. induction fuel as [|fuel IH]; intros stack items.
  - destruct stack; [|done]. intros [= <-]. exists []. by rewrite app_nil_r.
  - destruct stack as [|current rest].
    + intros [= <-]. exists []. by rewrite app_nil_r.
    + rewrite walkLoop_step. destruct (readdir fs current) as [ents|e]; [|apply IH].
      intros [new ->]%IH. rewrite <- app_assoc. eauto.
Qed.

Lemma pushedItem_collected baseDir current ents ent it :
  Visited HOME cwd fs baseDir current ->
  readdir fs current = Ok ents -> ent ∈ ents ->
  pushedItem HOME cwd fs now opts reason_ category_ current ent = Some it ->
  Collected HOME cwd fs now opts reason_ category_ baseDir it.
Proof.
  intros Hv Hr He. unfold pushedItem.
  destruct (ensureHomeScoped HOME cwd _) eqn:Hs; simpl; [|done].
  destruct (isDenyListed HOME cwd _) eqn:Hd; [done|].
  destruct (lstat fs _) as [st|e] eqn:Hl; [|done].
  destruct (st_kind st) eqn:Hk; try done.
  destruct (passesFilters opts now st) eqn:Hp; [|done].
  intros [= <-]. exists current, ents, ent, st. simpl. by repeat split.
Qed.

Lemma collected_pushedItem current ents ent st it :
  readdir fs current = Ok ents -> ent ∈ ents ->
  path it = Path.join [current; d_name ent] ->
  ensureHomeScoped HOME cwd (path it) = true ->
  isDenyListed HOME cwd (path it) = false ->
  lstat fs (path it) = Ok st -> st_kind st = KFile ->
  passesFilters opts now st = true ->
  bytes it = st_size st -> mtime it = st_mtimeMs st / 1000 ->
  category it = category_ -> reason it = reason_ -> trashable it = true ->
  pushedItem HOME cwd fs now opts reason_ category_ current ent = Some it.
Proof.
  intros Hr He Hp Hs Hd Hl Hk Hf Hb Hm Hc Hre Ht. unfold pushedItem.
  rewrite <- Hp, Hs, Hd, Hl, Hk, Hf. simpl. destruct it. simpl in *. by subst.
Qed.

Lemma child_elem current c :
  c ∈ children HOME cwd fs current <->
  exists ents ent st,
    readdir fs current = Ok ents /\ ent ∈ ents /\
    c = Path.join [current; d_name ent] /\
    ensureHomeScoped HOME cwd c = true /\ isDenyListed HOME cwd c = false /\
    lstat fs c = Ok st /\ st_kind st = KDir.
Proof.
  unfold children, descends. split.
  - destruct (readdir fs current) as [ents|e]; [|by intros ?%elem_of_nil].
    intros [Hdesc (ent & -> & Hent)%list_elem_of_fmap]%list_elem_of_filter.
    apply andb_true_iff in Hdesc as [[Hs Hd%negb_true_iff]%andb_true_iff Hl].
    destruct (lstat fs _) as [st|] eqn:Hst; [|done].
    destruct (st_kind st) eqn:Hk; try done.
    exists ents, ent, st. by repeat split.
  - intros (ents & ent & st & -> & Hent & -> & Hs & Hd & Hl & Hk).
    apply list_elem_of_filter. split.
    + by rewrite Hs, Hd, Hl, Hk.
    + apply list_elem_of_fmap. eauto.
Qed.

(** A directory that the walk reaches from [b] is [b], or is reached
    from one of the directories that the walk enters from [b]. *)
Lemma Visited_first b x :
  Visited HOME cwd fs b x ->
  x = b \/ exists c, c ∈ children HOME cwd fs b /\ Visited HOME cwd fs c x.
Proof.
  induction 1 as [|current ents ent st Hv IH Hr He Hs Hd Hl Hk]; [by left|right].
  destruct IH as [->|(c & Hc & Hvc)].
  - exists (Path.join [b; d_name ent]). split; [|constructor].
    apply child_elem. exists ents, ent, st. by repeat split.
  - exists c. split; [done|]. by eapply Visited_sub.
Qed.

Lemma walkLoop_complete fuel stack items out :
  walkLoop HOME cwd fs now opts reason_ category_ fuel stack items = Some out ->
  forall d it, d ∈ stack ->
    Collected HOME cwd fs now opts reason_ category_ d it -> it ∈ out.
Proof.
  revert stack items. induction fuel as [|fuel IH]; intros stack items.
  - destruct stack; [|done]. by intros _ d it ?%elem_of_nil.
  - destruct stack as [|current rest]; [by intros _ d it ?%elem_of_nil|].
    rewrite walkLoop_step. intros Hw d it Hd Hc.
    destruct (readdir fs current) as [ents|e] eqn:Hents.
    + apply elem_of_cons in Hd as [->|Hd].
      * destruct Hc as (cur' & ents' & ent & st & Hv & Hr & He & Hp & Hrest).
        apply Visited_first in Hv as [->|(c & Hc & Hvc)].
        -- rewrite Hents in Hr. injection Hr as <-.
           destruct Hrest as (Hs & Hde & Hl & Hk & Hf & Hb & Hm & Hca & Hre & Ht).
           pose proof (collected_pushedItem current ents ent st it Hents He Hp Hs Hde Hl
                         Hk Hf Hb Hm Hca Hre Ht) as Hpush.
           apply walkLoop_prefix in Hw as [new ->].
           apply elem_of_app. left. apply elem_of_app. right.
           apply list_elem_of_omap. eauto.
        -- eapply (IH _ _ Hw c).
           ++ apply elem_of_app. left. by apply elem_of_rev_list.
           ++ exists cur', ents', ent, st. by split.
      * eapply (IH _ _ Hw d); [|done]. apply elem_of_app. by right.
    + apply elem_of_cons in Hd as [->|Hd]; [|by eapply (IH _ _ Hw d)].
      destruct Hc as (cur' & ents' & ent & st & Hv & Hr & He & Hp & Hrest).
      apply Visited_first in Hv as [->|(c & Hc & Hvc)].
      * by rewrite Hents in Hr.
      * apply child_elem in Hc as (? & ? & ? & Hr' & _). by rewrite Hents in Hr'.
Qed.

Lemma walkLoop_shift pre fuel stack items :
  walkLoop HOME cwd fs now opts reason_ category_ fuel stack (pre ++ items) =
    (pre ++.) <$> walkLoop HOME cwd fs now opts reason_ category_ fuel stack items.
Proof.
  revert stack items. induction fuel as [|fuel IH]; intros stack items.
  - by destruct stack.
  - destruct stack as [|current rest]; [done|].
    rewrite !walkLoop_step. destruct (readdir fs current) as [ents|e]; [|apply IH].
    rewrite <- app_assoc. apply IH.
Qed.

(** A walk adds exactly the items that it can collect from its base
    directory, behind the items that were there. *)
Lemma walkCollect_adds fuel baseDir items out :
  walkCollect HOME cwd fs now opts reason_ category_ fuel baseDir items = Some out ->
  exists new,
    out = items ++ new /\
    walkCollect HOME cwd fs now opts reason_ category_ fuel baseDir [] = Some new /\
    forall it, it ∈ new <-> Collected HOME cwd fs now opts reason_ category_ baseDir it.
Proof.
  unfold walkCollect. rewrite <- (app_nil_r items) at 1. rewrite walkLoop_shift.
  intros (new & Hnew & ->)%fmap_Some. exists new. split; [done|]. split; [done|].
  intros it. split.
  - revert it. apply Forall_forall.
    eapply (walkLoop_inv HOME cwd fs now opts reason_ category_ baseDir
              (Collected HOME cwd fs now opts reason_ category_ baseDir));
      [done| |constructor|exact Hnew].
    repeat constructor.
  - intros Hc. eapply walkLoop_complete; [exact Hnew| |exact Hc]. apply list_elem_of_here.
Qed.
End Walk.
End WalkExact.

Module RootFacts.
Import WalkFacts WalkExact.

Section Scan.
Context {FS : Type} `{FsOps FS}.
Variables HOME cwd : string.
Variable fs : FS.
Variable now : Z.
Variable opts : Opts.
Variable cats : list string.

Lemma FromRoots_app r1 r2 it :
  FromRoots HOME cwd fs now opts cats (r1 ++ r2) it <->
  FromRoots HOME cwd fs now opts cats r1 it \/ FromRoots HOME cwd fs now opts cats r2 it.
Proof.
  unfold FromRoots. split.
  - intros (c & r & d & [Hin|Hin]%elem_of_app & Hrest); [left|right]; by exists c, r, d.
  - intros [(c & r & d & Hin & Hrest)|(c & r & d & Hin & Hrest)];
      exists c, r, d; (split; [|done]); apply elem_of_app; auto.
Qed.

Lemma Appends_seq r1 r2 a b c :
  Appends HOME cwd fs now opts cats r1 a b ->
  Appends HOME cwd fs now opts cats r2 b c ->
  Appends HOME cwd fs now opts cats (r1 ++ r2) a c.
Proof.
  intros (n1 & -> & H1) (n2 & -> & H2). exists (n1 ++ n2). split; [by rewrite app_assoc|].
  intros it. rewrite elem_of_app, FromRoots_app, H1, H2. done.
Qed.

(** No item comes from roots none of which is asked for and there. *)
Lemma Appends_none roots items :
  Forall (fun r => includes cats r.1.1 = false \/ existsSync fs r.2 = false) roots ->
  Appends HOME cwd fs now opts cats roots items items.
Proof.
  intros Hall. exists []. split; [by rewrite app_nil_r|].
  intros it. split; [by intros ?%elem_of_nil|].
  intros (c & r & d & Hin & Hc & He & _). rewrite Forall_forall in Hall.
  destruct (Hall _ Hin) as [Hoff|Hoff]; simpl in Hoff; congruence.
Qed.

Lemma Appends_off category_ reason_ dirs items :
  includes cats category_ = false ->
  Appends HOME cwd fs now opts cats (rootsOf category_ reason_ dirs) items items.
Proof.
  intros Hoff. apply Appends_none, Forall_forall.
  intros r (d & -> & _)%list_elem_of_fmap. by left.
Qed.

Section Walk.
Variables reason_ category_ : string.
Hypothesis asked : includes cats category_ = true.

Lemma walkCollect_appends fuel d items out :
  existsSync fs d = true ->
  walkCollect HOME cwd fs now opts reason_ category_ fuel d items = Some out ->
  Appends HOME cwd fs now opts cats (rootsOf category_ reason_ [d]) items out.
Proof using asked.
  intros He (new & -> & _ & Hnew)%walkCollect_adds. exists new. split; [done|].
  intros it. rewrite Hnew. split.
  - intros Hc. exists category_, reason_, d. repeat split; try done.
    apply list_elem_of_here.
  - intros (c & r & d' & Hin & _ & _ & Hc).
    apply list_elem_of_singleton in Hin. by injection Hin as -> -> ->.
Qed.

Lemma walkIfExists_appends fuel d items out :
  walkIfExists HOME cwd fs now opts reason_ category_ fuel d items = Some out ->
  Appends HOME cwd fs now opts cats (rootsOf category_ reason_ [d]) items out.
Proof using asked.
  unfold walkIfExists. destruct (existsSync fs d) eqn:He.
  - by apply walkCollect_appends.
  - intros [= <-]. apply Appends_none. constructor; [by right|done].
Qed.

Lemma walkEach_appends fuel dirs items out :
  walkEach HOME cwd fs now opts reason_ category_ fuel dirs items = Some out ->
  Appends HOME cwd fs now opts cats (rootsOf category_ reason_ dirs) items out.
Proof using asked.
  revert items. induction dirs as [|d dirs IH]; intros items; simpl.
  - intros [= <-]. by apply Appends_none.
  - destruct (walkIfExists _ _ _ _ _ _ _ _ d items) as [items'|] eqn:E; [|done].
    intros Hrest.
    apply (Appends_seq (rootsOf category_ reason_ [d]) (rootsOf category_ reason_ dirs)
             items items' out); [by apply walkIfExists_appends with fuel|by apply IH].
Qed.
End Walk.

(** The items of a scan are what the walks of its roots collect. *)
Lemma collectAll_appends brewCache fuel its :
  collectAll HOME cwd brewCache fuel fs now opts cats = Some its ->
  Appends HOME cwd fs now opts cats (scanRoots HOME brewCache fs) [] its.
Proof.
  unfold collectAll. intros Hc.
  apply bind_Some in Hc as (i1 & E1 & Hc).
  apply bind_Some in Hc as (i2 & E2 & Hc).
  apply bind_Some in Hc as (i3 & E3 & Hc).
  apply bind_Some in Hc as (i4 & E4 & Hc).
  apply bind_Some in Hc as (i5 & E5 & Hc).
  unfold scanRoots.
  apply Appends_seq with i1.
  { destruct (includes cats "user-caches") eqn:Hin.
    - by apply walkIfExists_appends with fuel.
    - injection E1 as <-. by apply Appends_off. }
  apply Appends_seq with i2.
  { destruct (includes cats "browsers") eqn:Hin.
    - by apply walkEach_appends with fuel.
    - injection E2 as <-. by apply Appends_off. }
  apply Appends_seq with i3.
  { destruct (includes cats "dev") eqn:Hin.
    - by apply walkEach_appends with fuel.
    - injection E3 as <-. by apply Appends_off. }
  assert (Appends HOME cwd fs now opts cats
            (rootsOf "downloads" "Downloads item" [Path.join [HOME; "Downloads"]] ++
             rootsOf "deep" "App container cache"
               (if existsSync fs (Path.join [HOME; "Library"; "Containers"]) then
                  map (fun appDir => Path.join [appDir; "Data"; "Library"; "Caches"])
                      (listDirs fs (Path.join [HOME; "Library"; "Containers"]))
                else []) ++
             rootsOf "deep" "Simulator device cache"
               (if existsSync fs
                     (Path.join [HOME; "Library"; "Developer"; "CoreSimulator"; "Devices"]) then
                  map (fun devDir => Path.join [devDir; "data"; "Library"; "Caches"])
                      (listDirs fs
                         (Path.join [HOME; "Library"; "Developer"; "CoreSimulator"; "Devices"]))
                else []) ++
             rootsOf "deep" "Xcode archive content"
               [Path.join [HOME; "Library"; "Developer"; "Xcode"; "Archives"]] ++
             rootsOf "deep" "Logs" [Path.join [HOME; "Library"; "Logs"]])
            i4 its) as Htail.
  { apply Appends_seq with i5.
    { destruct (includes cats "downloads") eqn:Hin.
      - by apply walkIfExists_appends with fuel.
      - injection E5 as <-. by apply Appends_off. }
    destruct (includes cats "deep") eqn:Hdeep.
    2:{ injection Hc as <-.
        apply Appends_seq with i5; [by apply Appends_off|].
        apply Appends_seq with i5; [by apply Appends_off|].
        apply Appends_seq with i5; by apply Appends_off. }
    cbv zeta in Hc.
    apply bind_Some in Hc as (i6 & E6 & Hc).
    apply bind_Some in Hc as (i7 & E7 & Hc).
    apply bind_Some in Hc as (i8 & E8 & Hc).
    apply Appends_seq with i6.
    { destruct (existsSync fs (Path.join [HOME; "Library"; "Containers"])).
      - by apply walkEach_appends with fuel.
      - injection E6 as <-. by apply Appends_none. }
    apply Appends_seq with i7.
    { destruct (existsSync fs
                  (Path.join [HOME; "Library"; "Developer"; "CoreSimulator"; "Devices"])).
      - by apply walkEach_appends with fuel.
      - injection E7 as <-. by apply Appends_none. }
    apply Appends_seq with i8; by apply walkIfExists_appends with fuel. }
  destruct (includes cats "pkg") eqn:Hpkg.
  2:{ injection E4 as <-.
      apply Appends_seq with i3; [by apply Appends_off|].
      apply Appends_seq with i3; [by apply Appends_off|].
      exact Htail. }
  apply bind_Some in E4 as (ib & Eb & E4).
  apply Appends_seq with ib.
  { destruct brewCache as [bcache|]; [|injection Eb as <-; by apply Appends_none].
    destruct (Str.isEmpty bcache); simpl in Eb;
      [injection Eb as <-; by apply Appends_none|].
    destruct (existsSync fs bcache) eqn:He.
    - by apply walkCollect_appends with fuel.
    - injection Eb as <-. apply Appends_none. constructor; [by right|done]. }
  apply Appends_seq with i4; [by apply walkEach_appends with fuel|].
  exact Htail.
Qed.
End Scan.
End RootFacts.

Module ScanOrder.
Import WalkFacts ScanFacts Termination WalkExact.

Lemma Grouped_mono cats r r' its :
  (r <= r')%nat -> Grouped cats r its -> Grouped cats r' its.
Proof.
  intros Hr [Hs Ha]. split; [done|].
  eapply Forall_impl; [exact Ha|]. intros it (? & ? & ? & ?). repeat split; [lia|done..].
Qed.

Lemma Grouped_nil cats : Grouped cats 0 [].
Proof. split; constructor. Qed.

Section Walk.
Context {FS : Type} `{FsOps FS}.
Variables HOME cwd : string.
Variable fs : FS.
Variable now : Z.
Variable opts : Opts.
Variable cats : list string.
Variables reason_ category_ : string.
Hypothesis requested : includes cats category_ = true.
Hypothesis scanned : category_ ∈ scannedCategories.

Lemma walkCollect_grouped r fuel d items out :
  (r <= catRank category_)%nat -> Grouped cats r items ->
  walkCollect HOME cwd fs now opts reason_ category_ fuel d items = Some out ->
  Grouped cats (catRank category_) out.
Proof using requested scanned.
  intros Hr [Hs Ha] (new & -> & _ & Hnew)%walkCollect_adds.
  assert (Forall (fun it => category it = category_ /\ trashable it = true) new) as Hn.
  { apply Forall_forall. intros it Hit%Hnew.
    destruct Hit as (? & ? & ? & ? & ? & ? & ? & ? & ? & ? & ? & ? & ? & ? & ? & ? & ? & ?).
    done. }
  clear Hnew. split.
  - apply StronglySorted_app_2; [|done|].
    + intros a b Ha' Hb'. rewrite Forall_forall in Ha, Hn.
      destruct (Ha a Ha') as (? & _). destruct (Hn b Hb') as [-> _]. lia.
    + induction Hn as [|it new [Hc _] Hn IH]; constructor; [done|].
      eapply Forall_impl; [exact Hn|]. intros b [-> _]. rewrite Hc. lia.
  - apply Forall_app. split.
    + eapply Forall_impl; [exact Ha|]. intros it (? & ? & ? & ?). repeat split; [lia|done..].
    + eapply Forall_impl; [exact Hn|]. intros it [-> ?]. by repeat split.
Qed.

Lemma walkIfExists_grouped r fuel d items out :
  (r <= catRank category_)%nat -> Grouped cats r items ->
  walkIfExists HOME cwd fs now opts reason_ category_ fuel d items = Some out ->
  Grouped cats (catRank category_) out.
Proof using requested scanned.
  intros Hr Hg. unfold walkIfExists. destruct (existsSync fs d).
  - by apply walkCollect_grouped with r.
  - intros [= <-]. by apply Grouped_mono with r.
Qed.

Lemma walkEach_grouped r fuel dirs items out :
  (r <= catRank category_)%nat -> Grouped cats r items ->
  walkEach HOME cwd fs now opts reason_ category_ fuel dirs items = Some out ->
  Grouped cats (catRank category_) out.
Proof using requested scanned.
  revert r items. induction dirs as [|d dirs IH]; intros r items Hr Hg; simpl.
  - intros [= <-]. by apply Grouped_mono with r.
  - destruct (walkIfExists _ _ _ _ _ _ _ _ d items) as [items'|] eqn:E; [|done].
    apply (IH (catRank category_)); [done|]. by eapply walkIfExists_grouped.
Qed.
End Walk.

Ltac in_scanned := apply list_elem_of_In; simpl; auto 10.
Ltac rank_le := vm_compute; lia.
Ltac by_walk lem Hin E G :=
  match type of G with
  | Grouped _ ?r _ =>
      let Hl := fresh in
      epose proof (lem _ _ _ _ _ _ _ _ Hin) as Hl;
      eapply (Hl ltac:(in_scanned) r) in E; [exact E|rank_le|exact G]
  end.

Section Scan.
Context {FS : Type} `{FsOps FS}.
Variables HOME cwd : string.
Variable fs : FS.
Variable now : Z.
Variable opts : Opts.

Lemma collectAll_grouped brewCache fuel cats its :
  collectAll HOME cwd brewCache fuel fs now opts cats = Some its ->
  Grouped cats 5 its.
Proof.
  unfold collectAll. intros Hc.
  apply bind_Some in Hc as (i1 & E1 & Hc).
  apply bind_Some in Hc as (i2 & E2 & Hc).
  apply bind_Some in Hc as (i3 & E3 & Hc).
  apply bind_Some in Hc as (i4 & E4 & Hc).
  apply bind_Some in Hc as (i5 & E5 & Hc).
  assert (Grouped cats 0 i1) as G1.
  { destruct (includes cats "user-caches") eqn:Hin.
    - pose proof (Grouped_nil cats) as G0. by_walk walkIfExists_grouped Hin E1 G0.
    - injection E1 as <-. apply Grouped_nil. }
  assert (Grouped cats 1 i2) as G2.
  { destruct (includes cats "browsers") eqn:Hin.
    - by_walk walkEach_grouped Hin E2 G1.
    - injection E2 as <-. by apply Grouped_mono with 0%nat; [lia|]. }
  assert (Grouped cats 2 i3) as G3.
  { destruct (includes cats "dev") eqn:Hin.
    - by_walk walkEach_grouped Hin E3 G2.
    - injection E3 as <-. by apply Grouped_mono with 1%nat; [lia|]. }
  assert (Grouped cats 3 i4) as G4.
  { destruct (includes cats "pkg") eqn:Hin.
    - apply bind_Some in E4 as (i & Eb & E4).
      assert (Grouped cats 3 i) as Gb.
      { destruct brewCache as [bcache|].
        - match type of Eb with (if ?b then _ else _) = _ => destruct b end.
          + by_walk walkCollect_grouped Hin Eb G3.
          + injection Eb as <-. by apply Grouped_mono with 2%nat; [lia|].
        - injection Eb as <-. by apply Grouped_mono with 2%nat; [lia|]. }
      by_walk walkEach_grouped Hin E4 Gb.
    - injection E4 as <-. by apply Grouped_mono with 2%nat; [lia|]. }
  assert (Grouped cats 4 i5) as G5.
  { destruct (includes cats "downloads") eqn:Hin.
    - by_walk walkIfExists_grouped Hin E5 G4.
    - injection E5 as <-. by apply Grouped_mono with 3%nat; [lia|]. }
  destruct (includes cats "deep") eqn:Hin.
  - cbv zeta in Hc.
    apply bind_Some in Hc as (i6 & E6 & Hc).
    apply bind_Some in Hc as (i7 & E7 & Hc).
    apply bind_Some in Hc as (i8 & E8 & Hc).
    assert (Grouped cats 5 i6) as G6.
    { match type of E6 with (if ?b then _ else _) = _ => destruct b end.
      - by_walk walkEach_grouped Hin E6 G5.
      - injection E6 as <-. by apply Grouped_mono with 4%nat; [lia|]. }
    assert (Grouped cats 5 i7) as G7.
    { match type of E7 with (if ?b then _ else _) = _ => destruct b end.
      - by_walk walkEach_grouped Hin E7 G6.
      - by injection E7 as <-. }
    assert (Grouped cats 5 i8) as G8.
    { by_walk walkIfExists_grouped Hin E8 G7. }
    by_walk walkIfExists_grouped Hin Hc G8.
  - injection Hc as <-. by apply Grouped_mono with 4%nat; [lia|].
Qed.
End Scan.
End ScanOrder.

Module CacheFacts.
Import WalkFacts ScanFacts.

(** Sorting forgets the order in which the categories were given. *)
Lemma sorted_cats_perm (l k : list string) :
  l ≡ₚ k -> merge_sort String.le l = merge_sort String.le k.
Proof.
  intros Hp. apply (Sorted_unique String.le).
  - apply (Sorted_merge_sort String.le).
  - apply (Sorted_merge_sort String.le).
  - by rewrite !merge_sort_Permutation.
Qed.

Section Scan.
Context {FS : Type} `{FsOps FS}.
Variables HOME cwd : string.

Lemma scanHandler_hit brewCache fuel fs now c rq ts r :
  c !! scanKey (parseQuery rq) = Some (ts, r) ->
  now - ts < SCAN_CACHE_TTL_MS ->
  scanHandler HOME cwd brewCache fuel fs now c rq = Some (r, c).
Proof.
  intros Hk Httl. unfold scanHandler. cbv zeta. fold (scanKey (parseQuery rq)).
  rewrite Hk. by destruct (Z.ltb_spec (now - ts) SCAN_CACHE_TTL_MS); [|lia].
Qed.

(** The two ways a scan call answers, with the key it uses. *)
Lemma scanHandler_key brewCache fuel fs now c rq r c' :
  scanHandler HOME cwd brewCache fuel fs now c rq = Some (r, c') ->
  (exists ts, c !! scanKey (parseQuery rq) = Some (ts, r) /\
              now - ts < SCAN_CACHE_TTL_MS /\ c' = c)
  \/ ((forall ts r0, c !! scanKey (parseQuery rq) = Some (ts, r0) ->
                     SCAN_CACHE_TTL_MS <= now - ts) /\
      exists its,
        collectAll HOME cwd brewCache fuel fs now
          (scanOptions (parseQuery rq)) (effectiveCats (parseQuery rq)) = Some its /\
        r = {| generatedAt := now; home := HOME; totals := sumTotals its;
               categories := effectiveCats (parseQuery rq); items := its |} /\
        c' = <[scanKey (parseQuery rq) := (now, r)]> c).
Proof.
  unfold scanHandler. cbv zeta. fold (scanKey (parseQuery rq)).
  destruct (c !! scanKey (parseQuery rq)) as [[ts body]|] eqn:Hk.
  - destruct (Z.ltb_spec (now - ts) SCAN_CACHE_TTL_MS).
    + intros [= <- <-]. left. by exists ts.
    + intros (its & Hits & [= <- <-])%bind_Some. right. split.
      * by intros ts' r0 [= <- <-].
      * by exists its.
  - intros (its & Hits & [= <- <-])%bind_Some. right. split; [done|]. by exists its.
Qed.

Variable JSON_parse : string -> option JSON.

(** A cached report is stored under the time it was generated at. *)
Lemma cache_stamp c :
  Reachable HOME cwd JSON_parse c ->
  forall k ts r, c !! k = Some (ts, r) -> generatedAt r = ts.
Proof.
  induction 1 as [|c brewCache fuel fs now rq r c' Hc IH Hscan|c ts fs rq body Hc IH];
    intros k ts' r' Hk.
  - by rewrite lookup_empty in Hk.
  - apply scanHandler_key in Hscan
      as [(ts0 & Hk0 & _ & ->)|(_ & its & Hits & -> & ->)]; [by eapply IH|].
    destruct (decide (scanKey (parseQuery rq) = k)) as [<-|Hne].
    + rewrite lookup_insert_eq in Hk. by injection Hk as <- <-.
    + rewrite lookup_insert_ne in Hk by done. by eapply IH.
  - destruct (applyHandler_cache HOME cwd JSON_parse ts fs c rq body) as [E|E];
      rewrite E in Hk.
    + by eapply IH.
    + by rewrite lookup_empty in Hk.
Qed.

Lemma scanHandler_stores brewCache fuel fs now c rq r c' :
  Reachable HOME cwd JSON_parse c ->
  scanHandler HOME cwd brewCache fuel fs now c rq = Some (r, c') ->
  c' !! scanKey (parseQuery rq) = Some (generatedAt r, r) /\
  now - generatedAt r < SCAN_CACHE_TTL_MS.
Proof.
  intros Hc [(ts & Hk & Httl & ->)|(_ & its & Hits & -> & ->)]%scanHandler_key.
  - rewrite (cache_stamp c Hc _ _ _ Hk). by rewrite Hk.
  - simpl. rewrite lookup_insert_eq. split; [done|]. unfold SCAN_CACHE_TTL_MS. lia.
Qed.
End Scan.
End CacheFacts.

(** ** Node paths, on examples *)

Example resolve_ex1 : Path.resolve "/srv/app" "/Users/u/../u/./Library//Caches/" = "/Users/u/Library/Caches".
Proof. vm_compute. reflexivity. Qed.
Example resolve_ex2 : Path.resolve "/srv/app" "a/../../b" = "/srv/b".
Proof. vm_compute. reflexivity. Qed.
Example resolve_ex3 : Path.resolve "/srv/app" "/../.." = "/".
Proof. vm_compute. reflexivity. Qed.
Example join_ex1 : Path.join ["/Users/u/"; "Library"; "Mobile Documents"] = "/Users/u/Library/Mobile Documents".
Proof. vm_compute. reflexivity. Qed.
Example join_ex2 : Path.join ["a/"; "../.."; "b/"] = "../b/".
Proof. vm_compute. reflexivity. Qed.
Example deny_ex1 : isDenyListed "/Users/u" "/srv" "/Users/u/PicturesBackup/f" = true.
Proof. vm_compute. reflexivity. Qed.
Example deny_ex2 : isDenyListed "/Users/u" "/srv" "/Users/u/Library/Caches/f" = false.
Proof. vm_compute. reflexivity. Qed.
Example home_ex1 : ensureHomeScoped "/Users/u" "/srv" "/Users/u2/f" = false.
Proof. vm_compute. reflexivity. Qed.
Example base_ex1 : Path.basename "/a/b/c.txt/" = "c.txt".
Proof. vm_compute. reflexivity. Qed.
Example join_ex3 : Path.join ["/Users/u"; "../x"; "."] = "/Users/x".
Proof. vm_compute. reflexivity. Qed.
Example normalize_ex1 : Path.normalize "/a/b/../../../c/" = "/c/".
Proof. vm_compute. reflexivity. Qed.
Example resolve_ex4 : Path.resolve "/srv/app" "" = "/srv/app".
Proof. vm_compute. reflexivity. Qed.
Example base_ex2 : Path.basename "/" = "".
Proof. vm_compute. reflexivity. Qed.

Import StrFacts NumberFacts PathFacts NormFacts ResolveFacts SafetyFacts WalkFacts ScanFacts
  ApplyFacts.

(** * The claims *)

(** ** Scan *)

(** The scenario of the specification, run: 52428800 bytes, 30 days,
    [user-caches], over a 60 MB and a 10 MB file that are 40 days old. *)
Lemma demo_scan : fst <$> Demo.scan Demo.scenarioQuery = Some Demo.report.
Proof. vm_compute. reflexivity. Qed.

Lemma demo_scan_result :
  exists c', scanHandler (H := Demo.ops) Demo.HOME Demo.cwd None 8 Demo.disk Demo.now0 ∅
               Demo.scenarioQuery = Some (Demo.report, c').
Proof.
  pose proof demo_scan as Hs. unfold Demo.scan in Hs.
  destruct (scanHandler _ _ _ _ _ _ _ _) as [[r c']|]; [|discriminate Hs].
  injection Hs as ->. by exists c'.
Qed.

Section ScanClaims.
Context {FS : Type} `{FsOps FS}.
Variables HOME cwd : string.
Variable JSON_parse : string -> option JSON.

Lemma found_in_scope fs now opts it :
  Found HOME cwd fs now opts it ->
  ensureHomeScoped HOME cwd (path it) = true /\ isDenyListed HOME cwd (path it) = false.
Proof.
  intros (reason_ & category_ & baseDir & current & ents & ent & st & Hc).
  destruct Hc as (_ & _ & _ & _ & Hs & Hd & _). by split.
Qed.

(** C1: whatever the categories, the minimum size and the minimum age of
    the request, every item of a report that a scan call returns (built
    by this call or taken from the cache) has a path that lies strictly
    under the home root, at a segment boundary, and neither under one of
    the deny-listed subtrees nor inside a photo-library bundle. *)
Theorem scan_items_within_scope c brewCache fuel fs now rq r c' it :
  Path.isAbsolute cwd = true ->
  Reachable HOME cwd JSON_parse c ->
  scanHandler HOME cwd brewCache fuel fs now c rq = Some (r, c') ->
  it ∈ items r ->
  underHome HOME cwd (path it) /\ ~ underDenySubtree HOME cwd (path it).
Proof.
  intros Hcwd Hc Hscan Hit.
  assert (Forall (fun it => ensureHomeScoped HOME cwd (path it) = true /\
                            isDenyListed HOME cwd (path it) = false) (items r)) as Hall.
  { eapply (scan_report_inv HOME cwd JSON_parse
              (fun r => Forall (fun it => ensureHomeScoped HOME cwd (path it) = true /\
                                          isDenyListed HOME cwd (path it) = false) (items r)));
      [|exact Hc|exact Hscan].
    intros brew fuel' fs' now' opts cats its Hits. simpl.
    apply collectAll_found in Hits.
    eapply Forall_impl; [exact Hits|]. intros it'. apply found_in_scope. }
  rewrite Forall_forall in Hall. destruct (Hall it Hit) as [Hs Hd]. split.
  - by apply ensureHomeScoped_sound.
  - by apply isDenyListed_sound.
Qed.

(** C6, as amended: in every report that a scan call returns,
    [totals.count] is the number of items, and [totals.bytes] is what
    adding the [bytes] of the items one after the other gives in
    JavaScript numbers, from 0 and in the order of the report. That is
    the sum of the [bytes] fields as long as this sum is at most 2^53 (no
    size being negative); above, each addition is rounded to a double. *)
Theorem scan_totals_add_items_as_doubles c brewCache fuel fs now rq r c' :
  Reachable HOME cwd JSON_parse c ->
  scanHandler HOME cwd brewCache fuel fs now c rq = Some (r, c') ->
  count (totals r) = Z.of_nat (length (items r)) /\
  bytes_total (totals r) = floatSum (map bytes (items r)) /\
  (Forall (fun it => 0 <= bytes it) (items r) ->
   sumBytes (items r) <= 2 ^ 53 ->
   bytes_total (totals r) = sumBytes (items r)).
Proof.
  intros Hc Hscan.
  assert (totals r = sumTotals (items r)) as ->.
  { eapply (scan_report_inv HOME cwd JSON_parse (fun r => totals r = sumTotals (items r)));
      [|exact Hc|exact Hscan]. done. }
  rewrite sumTotals_spec. simpl. split; [done|]. split; [done|].
  intros Hpos Hsum. apply floatSum_exact; [|exact Hsum].
  by apply Forall_fmap.
Qed.

End ScanClaims.

Section SymlinkClaims.
Context {FS : Type} `{FsOps FS}.
Variables HOME cwd : string.
Variable JSON_parse : string -> option JSON.

(** What a walk reports, by the roots of the scan. *)
Lemma report_from_roots brewCache fuel fs now opts cats its :
  collectAll HOME cwd brewCache fuel fs now opts cats = Some its ->
  forall it, it ∈ its <->
    FromRoots HOME cwd fs now opts cats (scanRoots HOME brewCache fs) it.
Proof. by intros (new & -> & Hnew)%RootFacts.collectAll_appends. Qed.

(** C4, as amended. Inside a walk, a directory entry that [lstat] reports
    as a symbolic link is neither reported nor entered (first part), and
    the items of every report are the regular files that the walks
    collect from the roots of the scan that built it, through entries
    that [lstat] reports as directories (second part; a report served
    from the cache was built by an earlier scan, on the filesystem of
    that scan). The roots themselves
    are tested with [existsSync] only, which follows links: the walk of
    a root that is a symbolic link collects what the paths below it hold
    (third part). The apply handler makes no test for links: outside a
    dry run, a path that is a symbolic link and passes the existence,
    scope and deny-list tests is removed in delete mode and else moved
    to the trash, like any other path (fourth part). *)
Theorem symlinks_are_skipped_inside_a_walk_only :
  (forall fs now opts reason_ category_ current acc ent st,
      lstat fs (Path.join [current; d_name ent]) = Ok st ->
      st_kind st = KSymlink ->
      walkEntry HOME cwd fs now opts reason_ category_ current acc ent = acc)
  /\ (forall c brewCache fuel fs now rq r c',
        Reachable HOME cwd JSON_parse c ->
        scanHandler HOME cwd brewCache fuel fs now c rq = Some (r, c') ->
        exists brew0 fs0 now0 opts0 cats0,
          ((exists ts, c !! scanKey (parseQuery rq) = Some (ts, r) /\
                       now - ts < SCAN_CACHE_TTL_MS) \/
           (brew0 = brewCache /\ fs0 = fs /\ now0 = now /\
            opts0 = scanOptions (parseQuery rq) /\
            cats0 = effectiveCats (parseQuery rq))) /\
          forall it, it ∈ items r <->
            FromRoots HOME cwd fs0 now0 opts0 cats0 (scanRoots HOME brew0 fs0) it)
  /\ (forall fs now opts reason_ category_ fuel baseDir items out st it,
        lstat fs baseDir = Ok st ->
        st_kind st = KSymlink ->
        walkCollect HOME cwd fs now opts reason_ category_ fuel baseDir items = Some out ->
        Collected HOME cwd fs now opts reason_ category_ baseDir it ->
        it ∈ out)
  /\ (forall ts mode (a : ApplyState) p st,
        lstat (w_fs (a_world a)) p = Ok st ->
        st_kind st = KSymlink ->
        p <> "" ->
        existsSync (w_fs (a_world a)) p = true ->
        ensureHomeScoped HOME cwd p = true ->
        isDenyListed HOME cwd p = false ->
        applyPath HOME cwd ts false mode a p =
          let w := a_world a in
          let n := liveBytes (w_fs w) p in
          if String.eqb mode "delete" then
            let recursive := liveIsDirectory (w_fs w) p in
            let w' fs' := {| w_fs := fs'; w_calls := w_calls w ++ [CallRm p recursive] |} in
            match rmSync (w_fs w) p recursive with
            | (fs', None) => pushCounted a (w' fs') (DDeleted p n) n
            | (fs', Some e) => pushError a (w' fs') (DError p e)
            end
          else
            match safeTrashMove HOME ts w p with
            | (w', Ok dest) => pushCounted a w' (DTrashed p dest n) n
            | (w', Throw e) => pushError a w' (DError p e)
            end).
Proof.
  split; [|split; [|split]].
  - intros fs now opts reason_ category_ current [stack its] ent st Hl Hk.
    unfold walkEntry. rewrite Hl, Hk. by destruct (_ || _).
  - intros c brewCache fuel fs now rq r c' Hc Hscan.
    destruct (CacheFacts.scanHandler_key _ _ _ _ _ _ _ _ _ _ Hscan)
      as [(ts & Hk & Httl & _)|(_ & its & Hits & -> & _)].
    + destruct (cache_inv HOME cwd JSON_parse
                  (fun r => exists brew0 fs0 now0 opts0 cats0,
                     forall it, it ∈ items r <->
                       FromRoots HOME cwd fs0 now0 opts0 cats0 (scanRoots HOME brew0 fs0) it))
        with (c := c) (k := scanKey (parseQuery rq)) (ts := ts) (r := r)
        as (brew0 & fs0 & now0 & opts0 & cats0 & Hall); [|done|done|].
      { intros brew fuel' fs' now' opts cats its Hits.
        exists brew, fs', now', opts, cats. simpl. by eapply report_from_roots. }
      exists brew0, fs0, now0, opts0, cats0. split; [left; eauto|done].
    + exists brewCache, fs, now, (scanOptions (parseQuery rq)), (effectiveCats (parseQuery rq)).
      split; [by right|]. simpl. by eapply report_from_roots.
  - intros fs now opts reason_ category_ fuel baseDir items out st it _ _ Hwalk Hcol.
    apply WalkExact.walkCollect_adds in Hwalk as (new & -> & _ & Hnew).
    apply elem_of_app. right. by apply Hnew.
  - intros ts mode a p st _ _ Hp He Hs Hd. by apply applyPath_live.
Qed.
End SymlinkClaims.

Lemma passesFilters_spec opts now st :
  passesFilters opts now st = true <->
    match minBytes opts with Some m => m = 0 \/ m <= st_size st | None => True end /\
    match olderDays opts with
    | Some d => d <= 0 \/ d * 86400 * 1000 <= now - st_mtimeMs st
    | None => True
    end.
Proof.
  unfold passesFilters. destruct (minBytes opts) as [m|], (olderDays opts) as [d|];
    simpl;
    repeat match goal with
           | |- context [?a =? ?b] => destruct (Z.eqb_spec a b); simpl
           | |- context [?a <? ?b] => destruct (Z.ltb_spec a b); simpl
           end;
    split; try done; try lia; intros [? ?]; lia.
Qed.

(** C8, as amended: the two filters are inclusive lower bounds, a filter
    that is zero (or, for the walker, undefined) imposes no constraint, and
    a visited regular file in scope is reported exactly when it passes both;
    the scan handler replaces an absent [minSize] by 50 MB and an absent
    [olderThan] by 30 days. With 52428800 bytes and 30 days, a 60 MB and a
    10 MB cache file, both 40 days old, give a report with the 60 MB file
    only. *)
Theorem filters_are_inclusive_lower_bounds :
  (forall opts now st,
     passesFilters opts now st = true <->
       match minBytes opts with Some m => m = 0 \/ m <= st_size st | None => True end /\
       match olderDays opts with
       | Some d => d <= 0 \/ d * 86400 * 1000 <= now - st_mtimeMs st
       | None => True
       end)
  /\ (forall (FS : Type) (ops : FsOps FS) HOME cwd fs now opts reason_ category_
             current stack its ent st,
        ensureHomeScoped HOME cwd (Path.join [current; d_name ent]) = true ->
        isDenyListed HOME cwd (Path.join [current; d_name ent]) = false ->
        lstat fs (Path.join [current; d_name ent]) = Ok st ->
        st_kind st = KFile ->
        walkEntry HOME cwd fs now opts reason_ category_ current (stack, its) ent =
          (stack,
           if passesFilters opts now st then
             its ++ [{| path := Path.join [current; d_name ent]; bytes := st_size st;
                        mtime := st_mtimeMs st / 1000; category := category_;
                        reason := reason_; trashable := true |}]
           else its))
  /\ (forall rq,
        scanOptions (parseQuery rq) =
          {| minBytes := Some (default 52428800 (r_minSize rq));
             olderDays := Some (default 30 (r_olderThan rq)) |})
  /\ fst <$> Demo.scan Demo.scenarioQuery = Some Demo.report.
Proof.
  split; [exact passesFilters_spec|]. split; [|split; [done|exact demo_scan]].
  intros FS ops HOME cwd fs now opts reason_ category_ current stack its ent st Hs Hd Hl Hk.
  unfold walkEntry. rewrite Hs, Hd, Hl, Hk. simpl. by destruct (passesFilters opts now st).
Qed.

(** The second part on the 10 MB file of the example, with 50 MB and 30
    days: it is not pushed. *)
Lemma filters_are_inclusive_lower_bounds_witness :
  walkEntry (H := Demo.ops) Demo.HOME Demo.cwd Demo.disk Demo.now0
    {| minBytes := Some 52428800; olderDays := Some 30 |}
    "User Library cache" "user-caches" "/Users/u/Library/Caches" ([], [])
    {| d_name := "small.bin"; d_isDirectory := false |} = ([], []).
Proof.
  exact (proj1 (proj2 filters_are_inclusive_lower_bounds) _ Demo.ops Demo.HOME Demo.cwd
           Demo.disk Demo.now0 {| minBytes := Some 52428800; olderDays := Some 30 |}
           "User Library cache" "user-caches" "/Users/u/Library/Caches" [] []
           {| d_name := "small.bin"; d_isDirectory := false |}
           {| st_kind := KFile; st_size := 10 * Demo.MB;
              st_mtimeMs := Demo.now0 - 40 * Demo.day |}
           eq_refl eq_refl eq_refl eq_refl).
Defined.

(** C8 fails as stated: with [minSize] and [olderThan] both absent, the
    10 MB cache file, a regular file that the walk visits, is left out of
    the report: the absent size filter constrains, by its default. *)
Lemma unset_filter_takes_default :
  r_minSize (Demo.scanQuery None None QAbsent) = None /\
  r_olderThan (Demo.scanQuery None None QAbsent) = None /\
  lstat (FsOps := Demo.ops) Demo.disk Demo.small =
    Ok {| st_kind := KFile; st_size := 10 * Demo.MB; st_mtimeMs := Demo.now0 - 40 * Demo.day |} /\
  (items ∘ fst) <$> Demo.scan (Demo.scanQuery None None QAbsent) = Some [Demo.bigItem] /\
  (items ∘ fst) <$> Demo.scan (Demo.scanQuery (Some 0) (Some 0) QAbsent)
    = Some [Demo.bigItem; Demo.smallItem].
Proof. repeat split; vm_compute; reflexivity. Qed.

(** The 60 MB file of the example report. *)
Lemma scan_items_within_scope_witness :
  underHome Demo.HOME Demo.cwd Demo.big /\ ~ underDenySubtree Demo.HOME Demo.cwd Demo.big.
Proof.
  destruct demo_scan_result as [c' Hscan].
  apply (@scan_items_within_scope Fixture.Disk Demo.ops Demo.HOME Demo.cwd Fixture.parse
           ∅ None 8%nat Demo.disk Demo.now0 Demo.scenarioQuery Demo.report c' Demo.bigItem).
  - reflexivity.
  - apply Reach_start.
  - exact Hscan.
  - apply list_elem_of_here.
Defined.

(** The totals of the example report: 60 MB is below 2^53, and the sum is
    exact. *)
Lemma scan_totals_add_items_as_doubles_witness :
  count (totals Demo.report) = Z.of_nat (length (items Demo.report)) /\
  bytes_total (totals Demo.report) = floatSum (map bytes (items Demo.report)) /\
  bytes_total (totals Demo.report) = sumBytes (items Demo.report).
Proof.
  destruct demo_scan_result as [c' Hscan].
  destruct (@scan_totals_add_items_as_doubles Fixture.Disk Demo.ops Demo.HOME Demo.cwd
              Fixture.parse ∅ None 8%nat Demo.disk Demo.now0 Demo.scenarioQuery Demo.report c')
    as (Hcount & Hfloat & Hexact).
  - apply Reach_start.
  - exact Hscan.
  - split; [exact Hcount|]. split; [exact Hfloat|]. apply Hexact.
    + repeat constructor. vm_compute. discriminate.
    + vm_compute. discriminate.
Defined.

(** C6 fails as stated: a cache directory with a sparse file of
    9024791438684160 bytes and a file of one byte. The report lists both,
    and its [totals.bytes] is 9024791438684160, one less than the sum of
    the two [bytes] fields: the sum is above 2^53 and is not a double. *)
Lemma totals_round_above_2_53 :
  (map bytes ∘ items ∘ fst) <$> Huge.scan = Some [9024791438684160; 1] /\
  (bytes_total ∘ totals ∘ fst) <$> Huge.scan = Some 9024791438684160 /\
  (sumBytes ∘ items ∘ fst) <$> Huge.scan = Some 9024791438684161.
Proof. repeat split; vm_compute; reflexivity. Qed.

(** The link in the cache directory of the example: the walk passes it. *)
Lemma symlinks_are_skipped_inside_a_walk_only_witness :
  walkEntry (H := Demo.ops) Demo.HOME Demo.cwd Demo.disk Demo.now0
    {| minBytes := Some 0; olderDays := Some 0 |}
    "User Library cache" "user-caches" "/Users/u/Library/Caches" ([], [])
    {| d_name := "lnk"; d_isDirectory := false |} = ([], []).
Proof.
  apply (proj1 (@symlinks_are_skipped_inside_a_walk_only Fixture.Disk Demo.ops Demo.HOME
                  Demo.cwd Fixture.parse)
           Demo.disk Demo.now0 {| minBytes := Some 0; olderDays := Some 0 |}
           "User Library cache" "user-caches" "/Users/u/Library/Caches" ([], [])
           {| d_name := "lnk"; d_isDirectory := false |}
           {| st_kind := KSymlink; st_size := 0; st_mtimeMs := 0 |}).
  - vm_compute. reflexivity.
  - reflexivity.
Defined.

(** A Chrome cache directory that is a symbolic link to a directory on
    another volume: the walk of [~/Library/Caches] does not enter it, the
    browsers walk, which starts there, does, and the file behind the link
    is in the report. *)
Example scan_walks_a_root_that_is_a_link :
  lstat (FsOps := Demo.ops) Linked.disk Linked.chrome =
    Ok {| st_kind := KSymlink; st_size := 0; st_mtimeMs := 0 |} /\
  (items ∘ fst) <$> Linked.scan = Some [Linked.blobItem].
Proof. split; vm_compute; reflexivity. Qed.

(** C4 fails as stated: the apply handler makes no test for symbolic links.
    A link in the cache directory, named by a plan in delete mode, is
    removed and reported as deleted. *)
Lemma apply_deletes_symlink :
  lstat (FsOps := Demo.ops) Demo.disk Demo.lnk =
    Ok {| st_kind := KSymlink; st_size := 0; st_mtimeMs := 0 |} /\
  response (Demo.apply Demo.ops (Demo.applyQuery QAbsent (QStr "delete")) (Demo.planBody [Demo.lnk]))
    = Some (Resp200 {| s_count := 1; s_bytes := 60 * Demo.MB; s_dryRun := false; s_mode := "delete" |}
                    [DDeleted Demo.lnk (60 * Demo.MB)]) /\
  calls (Demo.apply Demo.ops (Demo.applyQuery QAbsent (QStr "delete")) (Demo.planBody [Demo.lnk]))
    = [CallRm Demo.lnk false] /\
  Fixture.find Demo.lnk
    (fs_after (Demo.apply Demo.ops (Demo.applyQuery QAbsent (QStr "delete")) (Demo.planBody [Demo.lnk])))
    = None.
Proof. repeat split; vm_compute; reflexivity. Qed.

(** ** Apply *)

Section ApplyClaims.
Context {FS : Type} `{FsOps FS}.
Variables HOME cwd : string.
Variable JSON_parse : string -> option JSON.
Variable ts : string.

(** C2, as amended: in any mode, dry run or not, when the loop comes to a
    plan item whose path exists, passes the home-scope test and lies under
    a deny-listed subtree, the step records [skipped] with reason
    [deny_listed] for it, counts nothing, makes no filesystem call and
    leaves the filesystem as it found it; the loop goes on from there. *)
Theorem deny_listed_item_is_skipped dryRun mode pre it post a a1 p :
  Path.isAbsolute cwd = true ->
  applyLoop HOME cwd ts dryRun mode pre a = (a1, None) ->
  itemPath it = Ok p ->
  p <> "" ->
  existsSync (w_fs (a_world a1)) p = true ->
  ensureHomeScoped HOME cwd p = true ->
  underDenySubtree HOME cwd p ->
  applyLoop HOME cwd ts dryRun mode (pre ++ it :: post) a =
    applyLoop HOME cwd ts dryRun mode post (pushDetail a1 (DSkipped p "deny_listed")) /\
  a_world (pushDetail a1 (DSkipped p "deny_listed")) = a_world a1 /\
  a_count (pushDetail a1 (DSkipped p "deny_listed")) = a_count a1 /\
  a_totalBytes (pushDetail a1 (DSkipped p "deny_listed")) = a_totalBytes a1.
Proof.
  intros Hcwd Hpre Hit Hp He Hs Hd. repeat split.
  rewrite applyLoop_app, Hpre. cbn [applyLoop]. rewrite Hit.
  rewrite applyPath_deny; [done..|]. by apply isDenyListed_complete.
Qed.


(** C10: unless the [mode] parameter is exactly the string [delete], the
    call runs in trash mode: it makes no [rmSync] call and reports no item
    as deleted. *)
Theorem only_exact_delete_removes fs c rq body :
  r_mode rq <> QStr "delete" ->
  q_mode (parseQuery rq) = "trash" /\
  Forall (fun call => isRm call = false)
         (calls (applyHandler HOME cwd JSON_parse ts fs c rq body)) /\
  forall summary details,
    response (applyHandler HOME cwd JSON_parse ts fs c rq body)
      = Some (Resp200 summary details) ->
    s_mode summary = "trash" /\
    Forall (fun d => forall p n, d <> DDeleted p n) details.
Proof.
  intros Hmode.
  assert (q_mode (parseQuery rq) = "trash") as Hq.
  { unfold parseQuery, qIs. simpl. destruct (r_mode rq) as [|s|l]; try done.
    destruct (String.eqb_spec s "delete") as [->|]; done. }
  split; [done|]. unfold applyHandler. rewrite Hq.
  destruct (planItems (readJsonBody JSON_parse body)) as [its|]; [|by repeat split].
  set (a0 := {| a_world := {| w_fs := fs; w_calls := [] |}; a_details := [];
                a_totalBytes := 0; a_count := 0 |}).
  pose proof (applyLoop_inv HOME cwd ts NoRm (q_dryRun (parseQuery rq)) "trash" its a0) as Hn.
  destruct (applyLoop HOME cwd ts (q_dryRun (parseQuery rq)) "trash" its a0) as [a e].
  destruct Hn as [Hcalls Hdet].
  { intros a' p. by apply applyPath_no_rm. }
  { by split. }
  destruct e; simpl; (split; [done|]); [done|].
  by intros summary details [= <- <-].
Qed.
End ApplyClaims.

(** A plan in delete mode that names the document of the example. *)
Lemma deny_listed_item_is_skipped_witness :
  let a0 := {| a_world := {| w_fs := Demo.disk; w_calls := [] |};
               a_details := []; a_totalBytes := 0; a_count := 0 |} in
  applyLoop (H := Demo.ops) Demo.HOME Demo.cwd Demo.timestamp false "delete"
    ([] ++ JObj [("path", JStr Demo.thesis)] :: []) a0 =
    applyLoop (H := Demo.ops) Demo.HOME Demo.cwd Demo.timestamp false "delete" []
      (pushDetail a0 (DSkipped Demo.thesis "deny_listed")) /\
  a_world (pushDetail a0 (DSkipped Demo.thesis "deny_listed")) = a_world a0 /\
  a_count (pushDetail a0 (DSkipped Demo.thesis "deny_listed")) = a_count a0 /\
  a_totalBytes (pushDetail a0 (DSkipped Demo.thesis "deny_listed")) = a_totalBytes a0.
Proof.
  intros a0.
  apply (@deny_listed_item_is_skipped Fixture.Disk Demo.ops Demo.HOME Demo.cwd Demo.timestamp
           false "delete" [] (JObj [("path", JStr Demo.thesis)]) [] a0 a0 Demo.thesis).
  - reflexivity.
  - reflexivity.
  - reflexivity.
  - discriminate.
  - vm_compute. reflexivity.
  - vm_compute. reflexivity.
  - left. exists ["Users"; "u"; "Documents"]. split.
    + vm_compute. do 4 right. left.
    + exists ["thesis.pdf"]. vm_compute. reflexivity.
Defined.

(** C2 fails as stated: a path under [Documents] that no longer exists gets
    the entry [missing], not [deny_listed]. *)
Lemma missing_deny_listed_path_reports_missing :
  underDenySubtree Demo.HOME Demo.cwd Demo.gone /\
  response (Demo.apply Demo.ops (Demo.applyQuery QAbsent QAbsent) (Demo.planBody [Demo.gone]))
    = Some (Resp200 {| s_count := 0; s_bytes := 0; s_dryRun := false; s_mode := "trash" |}
                    [DMissing Demo.gone]) /\
  DMissing Demo.gone <> DSkipped Demo.gone "deny_listed".
Proof.
  split; [|split; [vm_compute; reflexivity|discriminate]].
  left. exists ["Users"; "u"; "Documents"]. split.
  - vm_compute. do 4 right. left.
  - exists ["gone.txt"]. vm_compute. reflexivity.
Qed.

(** The deny-list protects the paths under its subtrees, not the
    directories above them: a plan that names a mailbox and then
    [Library] skips the first and removes the second, mailbox included. *)
Example apply_removes_parent_of_denied :
  response (Demo.apply Demo.ops (Demo.applyQuery QAbsent (QStr "delete"))
              (Demo.planBody [Demo.inbox; "/Users/u/Library"]))
    = Some (Resp200 {| s_count := 1; s_bytes := 0; s_dryRun := false; s_mode := "delete" |}
                    [DSkipped Demo.inbox "deny_listed"; DDeleted "/Users/u/Library" 0]) /\
  Fixture.find Demo.inbox
    (fs_after (Demo.apply Demo.ops (Demo.applyQuery QAbsent (QStr "delete"))
                 (Demo.planBody [Demo.inbox; "/Users/u/Library"]))) = None.
Proof. split; vm_compute; reflexivity. Qed.


(** The scenario of the specification: delete mode, dry run, one file in
    scope. *)
Example dry_run_scenario :
  response (Demo.apply Demo.ops (Demo.applyQuery (QStr "1") (QStr "delete"))
              (Demo.planBody [Demo.small]))
    = Some (Resp200 {| s_count := 1; s_bytes := 10 * Demo.MB; s_dryRun := true;
                       s_mode := "delete" |}
                    [DDry Demo.small "delete" (10 * Demo.MB)]) /\
  Fixture.find Demo.small
    (fs_after (Demo.apply Demo.ops (Demo.applyQuery (QStr "1") (QStr "delete"))
                 (Demo.planBody [Demo.small])))
    = Some (Fixture.NFile (10 * Demo.MB) (Demo.now0 - 40 * Demo.day)).
Proof. split; vm_compute; reflexivity. Qed.

(** A removal that throws on the first item of a plan: the entry is
    [error], the second item is removed, and the totals are the second
    item's. *)
Example failure_isolation_scenario :
  response (Demo.apply Demo.opsLocked (Demo.applyQuery QAbsent (QStr "delete"))
              (Demo.planBody [Demo.big; Demo.small]))
    = Some (Resp200 {| s_count := 1; s_bytes := 10 * Demo.MB; s_dryRun := false;
                       s_mode := "delete" |}
                    [DError Demo.big "EACCES"; DDeleted Demo.small (10 * Demo.MB)]).
Proof. vm_compute. reflexivity. Qed.

(** C7: the loop is meant to isolate the failure of one item, and does so
    for a removal or a move that throws, inside the [try] block of lines
    2456-2469. The path of an item is read before, at line 2433, outside
    the block: on an item that is [null], or whose path is an object with
    a field [toString], the handler throws and sends no answer. Here the
    body parses and passes the guard of line 2424; the removal of the first
    file fails and is recorded, the second file is removed, and the third
    item, [null], ends the call: no entry for any item, no summary. The
    same two files without the third item get their answer. *)
Theorem unreadable_item_ends_apply_without_answer :
  planItems (readJsonBody Fixture.parse Plans.withNull) =
    Some [JObj [("path", JStr Demo.big)]; JObj [("path", JStr Demo.small)]; JNull] /\
  response (Demo.apply Demo.opsLocked (Demo.applyQuery QAbsent (QStr "delete")) Plans.withNull)
    = None /\
  calls (Demo.apply Demo.opsLocked (Demo.applyQuery QAbsent (QStr "delete")) Plans.withNull)
    = [CallRm Demo.big false; CallRm Demo.small false] /\
  Fixture.find Demo.big
    (fs_after (Demo.apply Demo.opsLocked (Demo.applyQuery QAbsent (QStr "delete"))
                 Plans.withNull))
    = Some (Fixture.NFile (60 * Demo.MB) (Demo.now0 - 40 * Demo.day)) /\
  Fixture.find Demo.small
    (fs_after (Demo.apply Demo.opsLocked (Demo.applyQuery QAbsent (QStr "delete"))
                 Plans.withNull))
    = None /\
  response (Demo.apply Demo.opsLocked (Demo.applyQuery QAbsent (QStr "delete"))
              (Plans.planOf [Plans.named Demo.big; Plans.named Demo.small]))
    = Some (Resp200 {| s_count := 1; s_bytes := 10 * Demo.MB; s_dryRun := false;
                       s_mode := "delete" |}
                    [DError Demo.big "EACCES"; DDeleted Demo.small (10 * Demo.MB)]) /\
  planItems (readJsonBody Fixture.parse Plans.withOdd) =
    Some [JObj [("path", JStr Demo.small)]; JObj [("path", JObj [("toString", JNum 0)])]] /\
  response (Demo.apply Demo.ops (Demo.applyQuery QAbsent (QStr "delete")) Plans.withOdd)
    = None /\
  calls (Demo.apply Demo.ops (Demo.applyQuery QAbsent (QStr "delete")) Plans.withOdd)
    = [CallRm Demo.small false].
Proof. repeat split; vm_compute; reflexivity. Qed.

(** [mode=Delete], with a capital, is trash mode. *)
Lemma only_exact_delete_removes_witness :
  q_mode (parseQuery (Demo.applyQuery QAbsent (QStr "Delete"))) = "trash" /\
  Forall (fun call => isRm call = false)
         (calls (Demo.apply Demo.ops (Demo.applyQuery QAbsent (QStr "Delete"))
                   (Demo.planBody [Demo.small]))) /\
  forall summary details,
    response (Demo.apply Demo.ops (Demo.applyQuery QAbsent (QStr "Delete"))
                (Demo.planBody [Demo.small]))
      = Some (Resp200 summary details) ->
    s_mode summary = "trash" /\
    Forall (fun d => forall p n, d <> DDeleted p n) details.
Proof.
  apply (@only_exact_delete_removes Fixture.Disk Demo.ops Demo.HOME Demo.cwd Fixture.parse
           Demo.timestamp Demo.disk ∅ (Demo.applyQuery QAbsent (QStr "Delete"))
           (Demo.planBody [Demo.small])).
  discriminate.
Defined.

(** ** The two plan forms *)

(** C9, as amended: the command-line entry point [apply_plan] takes a plain
    text plan (a file without the word [items] in quotes): its list is the
    lines that are neither blank nor comments, in order, and each of them is
    processed to one log entry. The HTTP handler takes JSON only: a body
    that [JSON.parse] rejects is answered with status 400 and nothing is
    processed. *)
Theorem text_plan_is_for_the_command_line :
  (forall (FS : Type) (ops : FsOps FS) HOME_DIR ts DRY_RUN USE_TRASH (fs : FS) content,
      Str.includes content (Sh.dq +:+ "items" +:+ Sh.dq) = false ->
      Sh.plan_list content =
        filter (fun l => Sh.isComment l = false)
               (filter (fun l => Sh.isBlank l = false) (Sh.lines content)) /\
      Forall2 (fun p e => eventPath e = p) (Sh.plan_list content)
              (Sh.l_log (Sh.apply_plan HOME_DIR ts DRY_RUN USE_TRASH fs content)))
  /\ (forall (FS : Type) (ops : FsOps FS) HOME cwd JSON_parse ts (fs : FS) c rq body,
        JSON_parse body = None ->
        response (applyHandler HOME cwd JSON_parse ts fs c rq body)
          = Some (Resp400 "Invalid plan JSON; expected { items: [ { path, category } ] }") /\
        fs_after (applyHandler HOME cwd JSON_parse ts fs c rq body) = fs /\
        calls (applyHandler HOME cwd JSON_parse ts fs c rq body) = [] /\
        cache_after (applyHandler HOME cwd JSON_parse ts fs c rq body) = c).
Proof.
  split.
  - intros FS ops HOME_DIR ts DRY_RUN USE_TRASH fs content Htext.
    assert (Sh.plan_list content =
              filter (fun l => Sh.isComment l = false)
                     (filter (fun l => Sh.isBlank l = false) (Sh.lines content))) as Hlist.
    { unfold Sh.plan_list. by rewrite Htext. }
    split; [done|]. unfold Sh.apply_plan.
    destruct (fold_apply_one_log HOME_DIR ts DRY_RUN USE_TRASH (Sh.plan_list content)
                {| Sh.l_fs := fs; Sh.l_log := []; Sh.l_total := 0; Sh.l_count := 0 |})
      as (es & -> & Hall). done.
  - intros FS ops HOME cwd JSON_parse ts fs c rq body Hparse.
    unfold applyHandler, readJsonBody. rewrite Hparse.
    by destruct (Str.isEmpty (Str.trim body)).
Qed.

(** The plain-text plan of the example, given to both entry points. *)
Lemma text_plan_is_for_the_command_line_witness :
  (Sh.plan_list Demo.textPlan =
     filter (fun l => Sh.isComment l = false)
            (filter (fun l => Sh.isBlank l = false) (Sh.lines Demo.textPlan)) /\
   Forall2 (fun p e => eventPath e = p) (Sh.plan_list Demo.textPlan)
           (Sh.l_log (Sh.apply_plan (H := Demo.ops) Demo.HOME "20261103-074100" true true
                        Demo.disk Demo.textPlan)))
  /\ (response (Demo.apply Demo.ops (Demo.applyQuery QAbsent QAbsent) Demo.textPlan)
        = Some (Resp400 "Invalid plan JSON; expected { items: [ { path, category } ] }") /\
      fs_after (Demo.apply Demo.ops (Demo.applyQuery QAbsent QAbsent) Demo.textPlan) = Demo.disk /\
      calls (Demo.apply Demo.ops (Demo.applyQuery QAbsent QAbsent) Demo.textPlan) = [] /\
      cache_after (Demo.apply Demo.ops (Demo.applyQuery QAbsent QAbsent) Demo.textPlan) = ∅).
Proof.
  split.
  - apply (proj1 text_plan_is_for_the_command_line Fixture.Disk Demo.ops Demo.HOME
             "20261103-074100" true true Demo.disk Demo.textPlan).
    vm_compute. reflexivity.
  - apply (proj2 text_plan_is_for_the_command_line Fixture.Disk Demo.ops Demo.HOME Demo.cwd
             Fixture.parse Demo.timestamp Demo.disk ∅ (Demo.applyQuery QAbsent QAbsent)
             Demo.textPlan).
    vm_compute. reflexivity.
Defined.

(** What the shell front-end does with the plain-text plan, in a dry run. *)
Example text_plan_scenario :
  Sh.plan_list Demo.textPlan = [Demo.small; Demo.gone] /\
  Sh.l_log (Sh.apply_plan (H := Demo.ops) Demo.HOME "20261103-074100" true true
              Demo.disk Demo.textPlan)
    = [Sh.WouldRemove Demo.small (10 * Demo.MB); Sh.Missing Demo.gone].
Proof. split; vm_compute; reflexivity. Qed.

(** C9 fails as stated: the HTTP apply handler answers a plain-text plan
    with status 400 and processes none of its lines. *)
Lemma text_plan_rejected_by_handler :
  Sh.plan_list Demo.textPlan = [Demo.small; Demo.gone] /\
  response (Demo.apply Demo.ops (Demo.applyQuery QAbsent QAbsent) Demo.textPlan)
    = Some (Resp400 "Invalid plan JSON; expected { items: [ { path, category } ] }") /\
  calls (Demo.apply Demo.ops (Demo.applyQuery QAbsent QAbsent) Demo.textPlan) = [].
Proof. repeat split; vm_compute; reflexivity. Qed.

(** ** The deny-list at a segment boundary *)

(** C5: the deny-list is meant to match at a segment boundary, and the
    shell's [deny_listed] does; [isDenyListed] does not. A file in
    [PicturesBackup], a sibling of [Pictures], is
    under no deny-listed subtree, the shell front-end does not deny it, and
    [isDenyListed] answers [true], because it compares text prefixes
    without the separator that [ensureHomeScoped] appends. *)
Theorem isDenyListed_matches_sibling_prefix :
  Path.resolveSegs Demo.cwd Demo.sibling = ["Users"; "u"; "PicturesBackup"; "f"] /\
  ~ underDenySubtree Demo.HOME Demo.cwd Demo.sibling /\
  Sh.deny_listed Demo.HOME Demo.sibling = false /\
  isDenyListed Demo.HOME Demo.cwd Demo.sibling = true.
Proof.
  split; [vm_compute; reflexivity|]. split; [|split; vm_compute; reflexivity].
  assert (Path.resolveSegs Demo.cwd Demo.sibling = ["Users"; "u"; "PicturesBackup"; "f"]) as Hsegs
    by (vm_compute; reflexivity).
  assert (homeSegs Demo.HOME Demo.cwd = ["Users"; "u"]) as Hhome by (vm_compute; reflexivity).
  intros [(root & Hroot & k & Hk)|(pre & s & post & Hp & Hpost & Hs)].
  - rewrite Hsegs in Hk. unfold denyRoots in Hroot. rewrite Hhome in Hroot. simpl in Hroot.
    repeat (apply elem_of_cons in Hroot as [->|Hroot]; [discriminate Hk|]).
    by apply elem_of_nil in Hroot.
  - rewrite Hsegs in Hp.
    destruct pre as [|? [|? [|? [|? pre]]]]; simpl in Hp; simplify_eq;
      first [ done | vm_compute in Hs; discriminate Hs | by destruct pre ].
Qed.

(** * Part III: more of the program *)

(** ** The collector, exactly *)

(** X1. [walkCollect] keeps the items it was given, in order, and appends
    exactly the regular files that it can reach from the base directory
    through directories in scope and off the deny-list, and that pass the
    filters: none is missed and nothing else is added. *)
Theorem walkCollect_appends_exactly_the_reachable_files
  {FS : Type} `{FsOps FS} (HOME cwd : string) (fs : FS) (now : Z) (opts : Opts)
  (reason_ category_ : string) (fuel : nat) (baseDir : string) (items out : list Item) :
  walkCollect HOME cwd fs now opts reason_ category_ fuel baseDir items = Some out ->
  exists new,
    out = items ++ new /\
    forall it, it ∈ new <-> Collected HOME cwd fs now opts reason_ category_ baseDir it.
Proof.
  intros (new & -> & _ & Hnew)%WalkExact.walkCollect_adds. by exists new.
Qed.

Lemma walkCollect_appends_exactly_the_reachable_files_witness :
  exists new,
    [Demo.smallItem; Demo.bigItem] = [Demo.smallItem] ++ new /\
    forall it, it ∈ new <->
      Collected (H := Demo.ops) Demo.HOME Demo.cwd Demo.disk Demo.now0
        {| minBytes := Some (50 * Demo.MB); olderDays := Some 30 |}
        "User Library cache" "user-caches" "/Users/u/Library/Caches" it.
Proof.
  apply (walkCollect_appends_exactly_the_reachable_files (H := Demo.ops)
           Demo.HOME Demo.cwd Demo.disk Demo.now0
           {| minBytes := Some (50 * Demo.MB); olderDays := Some 30 |}
           "User Library cache" "user-caches" 4 "/Users/u/Library/Caches"
           [Demo.smallItem] [Demo.smallItem; Demo.bigItem]).
  vm_compute. reflexivity.
Defined.

(** ** The report and the scan cache *)

Section ScanExtras.
Context {FS : Type} `{FsOps FS}.
Variables HOME cwd : string.
Variable JSON_parse : string -> option JSON.

(** X2. The items of every report that a scan call returns are grouped by
    category in the order of the walks (user-caches, browsers, dev, pkg,
    downloads, deep), and the category of each is one that the report
    lists and one that the handler has a walk for. *)
Theorem report_items_are_grouped_by_category c brewCache fuel fs now rq r c' :
  Reachable HOME cwd JSON_parse c ->
  scanHandler HOME cwd brewCache fuel fs now c rq = Some (r, c') ->
  StronglySorted (fun a b => (catRank (category a) <= catRank (category b))%nat) (items r) /\
  Forall (fun it => category it ∈ categories r /\ category it ∈ scannedCategories) (items r).
Proof.
  intros Hc Hscan.
  assert (Grouped (categories r) 5 (items r)) as [Hs Ha].
  { eapply (ScanFacts.scan_report_inv HOME cwd JSON_parse
              (fun r => Grouped (categories r) 5 (items r))); [|exact Hc|exact Hscan].
    intros. simpl. by eapply ScanOrder.collectAll_grouped. }
  split; [done|]. eapply Forall_impl; [exact Ha|].
  intros it (_ & Hin & Hsc & _). split; [|done].
  unfold includes in Hin. by apply bool_decide_eq_true in Hin.
Qed.

(** X3. A report that a scan call returned is returned again, and the
    cache left as it is, by every scan call with the same two bounds, the
    same downloads flag and the same categories in any order, up to five
    minutes after the time the report was generated at; the disk is not
    read, whatever it holds by then. *)
Theorem cached_report_is_served_again
  c brewCache fuel fs now rq r c' brewCache' fuel' fs' now' rq' :
  Reachable HOME cwd JSON_parse c ->
  scanHandler HOME cwd brewCache fuel fs now c rq = Some (r, c') ->
  default DEFAULT_MIN_BYTES (q_minSize (parseQuery rq')) =
    default DEFAULT_MIN_BYTES (q_minSize (parseQuery rq)) ->
  default DEFAULT_OLDER_DAYS (q_olderThan (parseQuery rq')) =
    default DEFAULT_OLDER_DAYS (q_olderThan (parseQuery rq)) ->
  effectiveCats (parseQuery rq') ≡ₚ effectiveCats (parseQuery rq) ->
  q_downloads (parseQuery rq') = q_downloads (parseQuery rq) ->
  now' - generatedAt r < SCAN_CACHE_TTL_MS ->
  scanHandler HOME cwd brewCache' fuel' fs' now' c' rq' = Some (r, c').
Proof.
  intros Hc Hscan Hm Ho Hp Hd Httl.
  destruct (CacheFacts.scanHandler_stores HOME cwd JSON_parse _ _ _ _ _ _ _ _ Hc Hscan)
    as [Hk _].
  apply CacheFacts.scanHandler_hit with (generatedAt r); [|done].
  unfold scanKey in *. by rewrite Hm, Ho, Hd, (CacheFacts.sorted_cats_perm _ _ Hp).
Qed.

(** X4. When a scan call ends, the cache holds the report that the call
    returned, under the key of the query, with a stamp that is less than
    five minutes before the time of the call and not earlier than the
    time the report was generated at. *)
Theorem returned_report_is_the_cached_one c brewCache fuel fs now rq r c' :
  Reachable HOME cwd JSON_parse c ->
  scanHandler HOME cwd brewCache fuel fs now c rq = Some (r, c') ->
  exists ts,
    c' !! scanKey (parseQuery rq) = Some (ts, r) /\
    now - ts < SCAN_CACHE_TTL_MS /\
    generatedAt r <= ts.
Proof.
  intros Hc Hscan.
  destruct (CacheFacts.scanHandler_stores HOME cwd JSON_parse _ _ _ _ _ _ _ _ Hc Hscan)
    as [Hk Httl].
  exists (generatedAt r). split; [done|]. split; [done|lia].
Qed.

(** X5. An apply call that answers 200 empties the scan cache, in a dry
    run as well: the scan call that follows walks the disk and stamps its
    report with its own time. An apply call that answers 400 leaves the
    cache as it was. *)
Theorem apply_answer_200_empties_the_cache ts fs c rq body :
  match response (applyHandler HOME cwd JSON_parse ts fs c rq body) with
  | Some (Resp200 _ _) =>
      cache_after (applyHandler HOME cwd JSON_parse ts fs c rq body) = ∅ /\
      forall brewCache fuel fs' now rq' r c',
        scanHandler HOME cwd brewCache fuel fs' now
          (cache_after (applyHandler HOME cwd JSON_parse ts fs c rq body)) rq' = Some (r, c') ->
        generatedAt r = now /\
        collectAll HOME cwd brewCache fuel fs' now (scanOptions (parseQuery rq'))
          (effectiveCats (parseQuery rq')) = Some (items r)
  | _ => cache_after (applyHandler HOME cwd JSON_parse ts fs c rq body) = c
  end.
Proof.
  unfold applyHandler. destruct (planItems _) as [its|]; [|done]. cbv zeta.
  destruct (applyLoop _ _ _ _ _ _ _) as [a [e|]]; [done|]. simpl. split; [done|].
  intros brewCache fuel fs' now rq' r c'
    [(ts0 & Hk & _)|(_ & its' & Hits & -> & _)]%CacheFacts.scanHandler_key.
  - by rewrite lookup_empty in Hk.
  - done.
Qed.
End ScanExtras.

Lemma report_items_are_grouped_by_category_witness :
  StronglySorted (fun a b => (catRank (category a) <= catRank (category b))%nat)
    (items Demo.report) /\
  Forall (fun it => category it ∈ categories Demo.report /\ category it ∈ scannedCategories)
    (items Demo.report).
Proof.
  destruct demo_scan_result as [c' Hscan].
  apply (@report_items_are_grouped_by_category Fixture.Disk Demo.ops Demo.HOME Demo.cwd
           Fixture.parse ∅ None 8%nat Demo.disk Demo.now0 Demo.scenarioQuery Demo.report c').
  - apply Reach_start.
  - exact Hscan.
Defined.

(** Four minutes after the scan of the example, on an empty disk, with the
    age bound left out and the category written with blanks: the report of
    the example is returned. *)
Lemma cached_report_is_served_again_witness :
  exists c',
    scanHandler (H := Demo.ops) Demo.HOME Demo.cwd None 0 [] (Demo.now0 + 240000) c'
      (Demo.scanQuery (Some 52428800) None (QStr " user-caches ,")) = Some (Demo.report, c').
Proof.
  destruct demo_scan_result as [c' Hscan]. exists c'.
  apply (@cached_report_is_served_again Fixture.Disk Demo.ops Demo.HOME Demo.cwd
           Fixture.parse ∅ None 8%nat Demo.disk Demo.now0 Demo.scenarioQuery Demo.report c'
           None 0%nat [] (Demo.now0 + 240000)
           (Demo.scanQuery (Some 52428800) None (QStr " user-caches ,"))).
  - apply Reach_start.
  - exact Hscan.
  - reflexivity.
  - reflexivity.
  - vm_compute. reflexivity.
  - reflexivity.
  - vm_compute. reflexivity.
Defined.

(** The scan of the example. *)
Lemma returned_report_is_the_cached_one_witness :
  exists (c' : gmap CacheKey (Z * Report)) ts,
    c' !! scanKey (parseQuery Demo.scenarioQuery) = Some (ts, Demo.report) /\
    Demo.now0 - ts < SCAN_CACHE_TTL_MS /\
    generatedAt Demo.report <= ts.
Proof.
  destruct demo_scan_result as [c' Hscan]. exists c'.
  apply (@returned_report_is_the_cached_one Fixture.Disk Demo.ops Demo.HOME Demo.cwd
           Fixture.parse ∅ None 8%nat Demo.disk Demo.now0 Demo.scenarioQuery Demo.report c').
  - apply Reach_start.
  - exact Hscan.
Defined.

Module ApplyExact.
Import ApplyFacts.

Section Apply.
Context {FS : Type} `{FsOps FS}.
Variables HOME cwd : string.
Variable ts : string.

Lemma safeTrashMove_callFor w p :
  exists new,
    w_calls (safeTrashMove HOME ts w p).1 = w_calls w ++ new /\
    Forall (callFor HOME ts p) new.
Proof.
  unfold safeTrashMove, ensureTrashDir. fold (trashPath HOME).
  assert (forall w1 : World,
    exists new,
      w_calls (let dest := Path.join [trashPath HOME; Path.basename p] in
               let dest := if existsSync (w_fs w1) dest
                           then Path.join [trashPath HOME; Path.basename p +:+ "-" +:+ ts]
                           else dest in
               let '(fs', err) := renameSync (w_fs w1) p dest in
               let w2 := {| w_fs := fs'; w_calls := w_calls w1 ++ [CallRename p dest] |} in
               match err with
               | None => (w2, Ok dest)
               | Some e => (w2, Throw e)
               end).1 = w_calls w1 ++ new /\
      Forall (callFor HOME ts p) new) as Hmove.
  { intros w1. cbv zeta.
    destruct (existsSync (w_fs w1) _);
      destruct (renameSync _ _ _) as [fs' [e|]]; simpl;
      (eexists; split; [done|]; constructor; [|constructor]; simpl; auto). }
  destruct (existsSync (w_fs w) (trashPath HOME)).
  - apply Hmove.
  - destruct (mkdirSync _ _) as [fs' [e|]].
    + exists [CallMkdir (trashPath HOME)]. split; [done|]. by repeat constructor.
    + match goal with
      | |- context [renameSync (w_fs ?w1)] => destruct (Hmove w1) as (new & Hnew & Hall)
      end.
      exists (CallMkdir (trashPath HOME) :: new). split.
      * etrans; [exact Hnew|]. simpl. by rewrite <- app_assoc.
      * by constructor.
Qed.

(** The calls of one turn of the loop: none unless the path is not
    empty, in scope and off the deny-list and the run is not a dry
    run. *)
Lemma applyPath_calls dryRun mode a p :
  exists new,
    w_calls (a_world (applyPath HOME cwd ts dryRun mode a p)) =
      w_calls (a_world a) ++ new /\
    Forall (callFor HOME ts p) new /\
    (new <> [] ->
     dryRun = false /\ p <> "" /\
     ensureHomeScoped HOME cwd p = true /\ isDenyListed HOME cwd p = false).
Proof.
  unfold applyPath.
  destruct (Str.isEmpty p || negb (existsSync (w_fs (a_world a)) p)) eqn:Hm;
    [exists []; simpl; by rewrite app_nil_r|].
  destruct (ensureHomeScoped HOME cwd p) eqn:Hs; simpl;
    [|exists []; simpl; by rewrite app_nil_r].
  destruct (isDenyListed HOME cwd p) eqn:Hd; [exists []; simpl; by rewrite app_nil_r|].
  destruct dryRun; [exists []; simpl; by rewrite app_nil_r|].
  assert (p <> "") as Hp.
  { intros ->. done. }
  destruct (String.eqb mode "delete").
  - destruct (rmSync _ _ _) as [fs' [e|]]; simpl;
      (eexists; split; [done|]; split; [by repeat constructor|done]).
  - destruct (safeTrashMove_callFor (a_world a) p) as (new & Hnew & Hall).
    destruct (safeTrashMove HOME ts (a_world a) p) as [w' [dest|e]]; simpl in *;
      exists new; done.
Qed.

(** Every call of the loop is made for the path of one of the items, or
    makes the trash directory. *)
Lemma applyLoop_calls dryRun mode its a :
  exists new,
    w_calls (a_world (applyLoop HOME cwd ts dryRun mode its a).1) =
      w_calls (a_world a) ++ new /\
    Forall (fun c =>
              exists it p,
                it ∈ its /\ itemPath it = Ok p /\ callFor HOME ts p c /\
                dryRun = false /\ p <> "" /\
                ensureHomeScoped HOME cwd p = true /\
                isDenyListed HOME cwd p = false) new.
Proof.
  revert a. induction its as [|it its IH]; intros a; simpl.
  - exists []. by rewrite app_nil_r.
  - destruct (itemPath it) as [p|e] eqn:Hp; simpl; [|exists []; by rewrite app_nil_r].
    destruct (IH (applyPath HOME cwd ts dryRun mode a p)) as (new2 & -> & Hall2).
    destruct (applyPath_calls dryRun mode a p) as (new1 & -> & Hall1 & Hcond).
    exists (new1 ++ new2). split; [by rewrite app_assoc|].
    apply Forall_app. split.
    + apply Forall_forall. intros c Hc.
      assert (new1 <> []) as Hne by (intros ->; by apply elem_of_nil in Hc).
      destruct (Hcond Hne) as (? & ? & ? & ?).
      rewrite Forall_forall in Hall1.
      exists it, p. repeat split; try done; [apply list_elem_of_here|by apply Hall1].
    + eapply Forall_impl; [exact Hall2|].
      intros c (it' & p' & Hin & Hrest). exists it', p'. split; [|done].
      by apply list_elem_of_further.
Qed.
End Apply.
End ApplyExact.

Module TrashFacts.
Import Str StrFacts PathFacts NormFacts ResolveFacts SafetyFacts.
#[local] Arguments Ascii.eqb : simpl never.

Lemma hasChar_app c s t : hasChar c (s +:+ t) = hasChar c s || hasChar c t.
Proof.
  induction s as [|d s IH]; [done|]. rewrite app_cons. simpl. rewrite IH.
  by rewrite orb_assoc.
Qed.

Lemma basename_free p : hasChar "/" (Path.basename p) = false.
Proof.
  unfold Path.basename.
  pose proof (split_segments "/" p) as Hs. rewrite Forall_forall in Hs.
  destruct (filter _ (rev (split "/" p))) as [|s l] eqn:E; [done|].
  assert (s ∈ filter (fun s => s <> EmptyString) (rev (split "/" p))) as Hin
    by (rewrite E; apply list_elem_of_here).
  apply list_elem_of_filter in Hin as [_ Hin]. apply Hs.
  rewrite list_elem_of_In in *. by apply in_rev.
Qed.

(** A name with a dash and a slash-free text behind it is a name. *)
Lemma stamped_plain n ts :
  n <> "" -> hasChar "/" n = false -> hasChar "/" ts = false ->
  plain (n +:+ "-" +:+ ts).
Proof.
  intros Hn Hf Ht. repeat split.
  - destruct n; [done|]. by rewrite app_cons.
  - destruct n as [|c n]; [done|]. rewrite app_cons. destruct n; by rewrite ?app_cons.
  - destruct n as [|c n]; [done|]. rewrite app_cons.
    destruct n as [|d n]; [by rewrite app_empty_l|]. rewrite app_cons.
    destruct n; by rewrite ?app_cons.
  - rewrite !hasChar_app, Hf, Ht. done.
Qed.

Section WithHome.
Variables HOME cwd : string.
Hypothesis cwd_abs : Path.isAbsolute cwd = true.

Lemma trashPath_segs :
  Path.resolveSegs cwd (trashPath HOME) = homeSegs HOME cwd ++ [".Trash"].
Proof using cwd_abs.
  unfold trashPath. rewrite resolveSegs_join; [done|done| |done].
  constructor; [|done]. apply plain_name. reflexivity.
Qed.

Lemma in_trash_segs n :
  plain n ->
  Path.resolveSegs cwd (Path.join [trashPath HOME; n]) =
    homeSegs HOME cwd ++ [".Trash"; n].
Proof using cwd_abs.
  intros Hn. rewrite resolveSegs_join; [|done|by constructor|done].
  rewrite trashPath_segs. by rewrite <- app_assoc.
Qed.

(** In scope means strictly under the home root, unless the home root
    is the root of the filesystem, where nothing is in scope. *)
Lemma ensureHomeScoped_iff p :
  ensureHomeScoped HOME cwd p = true <->
  homeSegs HOME cwd <> [] /\ underHome HOME cwd p.
Proof using cwd_abs.
  split.
  - intros Hs. split; [|by apply ensureHomeScoped_sound].
    unfold ensureHomeScoped, homeSegs in *.
    rewrite !resolve_render in Hs by done. intros Hnil. rewrite Hnil in Hs.
    pose proof (resolveSegs_plain cwd cwd_abs p) as Hp.
    destruct (Path.resolveSegs cwd p) as [|y b]; [done|].
    revert Hs. unfold render.
    destruct (join_head "/" y b) as [t ->].
    inversion Hp as [|?? (Hy & _ & _ & Hf) _]; subst.
    destruct y as [|d y]; [done|]. simpl in Hf.
    apply orb_false_iff in Hf as [Hd _].
    change (startsWith (String "/" (String d (y +:+ t))) (String "/" (String "/" ""))
            = true -> False).
    cbn [startsWith]. rewrite eqb_refl'.
    first [rewrite Hd|rewrite Ascii.eqb_sym, Hd]. done.
  - intros [Hne (s & k & Hp)].
    unfold ensureHomeScoped. rewrite !resolve_render by done. rewrite Hp.
    fold (homeSegs HOME cwd).
    rewrite (render_slashed (homeSegs HOME cwd)) by done.
    rewrite render_slashed by by destruct (homeSegs HOME cwd).
    rewrite slashed_app. cbn [slashed]. unfold Path.sep.
    apply startsWith_spec. exists (s +:+ slashed k).
    change ("/" +:+ ?x) with (String "/" x). by rewrite app_assoc'.
Qed.
End WithHome.
End TrashFacts.

(** ** What an apply call touches *)

(** X6. In scope means strictly under the home root at a segment boundary,
    and conversely, as long as the home root is not the root of the
    filesystem; when it is, no path is in scope. *)
Theorem in_scope_iff_strictly_under_home (HOME cwd p : string) :
  Path.isAbsolute cwd = true ->
  ensureHomeScoped HOME cwd p = true <->
  homeSegs HOME cwd <> [] /\ underHome HOME cwd p.
Proof. intros Habs. by apply TrashFacts.ensureHomeScoped_iff. Qed.

Lemma in_scope_iff_strictly_under_home_witness :
  ensureHomeScoped Demo.HOME Demo.cwd "/Users/u/Library/../Movies/a.mov" = true <->
  homeSegs Demo.HOME Demo.cwd <> [] /\
  underHome Demo.HOME Demo.cwd "/Users/u/Library/../Movies/a.mov".
Proof.
  apply (in_scope_iff_strictly_under_home Demo.HOME Demo.cwd "/Users/u/Library/../Movies/a.mov").
  reflexivity.
Defined.

Section ApplyExtras.
Context {FS : Type} `{FsOps FS}.
Variables HOME cwd : string.
Variable JSON_parse : string -> option JSON.
Variable ts : string.

(** The paths of the mutating calls of an apply call. *)
Lemma apply_calls_pass_both_tests fs c rq body call :
  call ∈ calls (applyHandler HOME cwd JSON_parse ts fs c rq body) ->
  exists its it p,
    planItems (readJsonBody JSON_parse body) = Some its /\
    it ∈ its /\ itemPath it = Ok p /\
    callFor HOME ts p call /\
    q_dryRun (parseQuery rq) = false /\ p <> "" /\
    ensureHomeScoped HOME cwd p = true /\ isDenyListed HOME cwd p = false.
Proof.
  unfold applyHandler.
  destruct (planItems _) as [its|] eqn:Hplan; [|by intros ?%elem_of_nil]. cbv zeta.
  pose proof (ApplyExact.applyLoop_calls HOME cwd ts (q_dryRun (parseQuery rq))
                (q_mode (parseQuery rq)) its
                {| a_world := {| w_fs := fs; w_calls := [] |};
                   a_details := []; a_totalBytes := 0; a_count := 0 |})
    as (new & Hnew & Hall).
  destruct (applyLoop _ _ _ _ _ _ _) as [a [e|]]; simpl in *; rewrite Hnew;
    intros Hin; rewrite Forall_forall in Hall;
    destruct (Hall _ Hin) as (it & p & Hit & Hp & Hfor & Hdry & Hne & Hs & Hd);
    by exists its, it, p.
Qed.

(** X8. A move to the trash that succeeds, of a path whose base name is
    a name, puts the path directly inside the trash directory of the home
    root, under its base name when nothing had that name there, and else
    under the base name, a dash and the time. *)
Theorem trash_move_lands_in_the_trash w p w' dest :
  Path.isAbsolute cwd = true ->
  Str.hasChar "/" ts = false ->
  Path.basename p <> "" -> Path.basename p <> "." -> Path.basename p <> ".." ->
  safeTrashMove HOME ts w p = (w', Ok dest) ->
  exists w1 n,
    ensureTrashDir HOME w = (w1, Some (trashPath HOME)) /\
    n = (if existsSync (w_fs w1) (Path.join [trashPath HOME; Path.basename p])
         then Path.basename p +:+ "-" +:+ ts else Path.basename p) /\
    plain n /\
    dest = Path.join [trashPath HOME; n] /\
    Path.resolveSegs cwd dest = homeSegs HOME cwd ++ [".Trash"; n] /\
    w_calls w' = w_calls w1 ++ [CallRename p dest].
Proof.
  intros Habs Hts Hn1 Hn2 Hn3. unfold safeTrashMove.
  assert (plain (Path.basename p)) as Hplain.
  { repeat split; try done. apply TrashFacts.basename_free. }
  assert (plain (Path.basename p +:+ "-" +:+ ts)) as Hstamped.
  { apply TrashFacts.stamped_plain; [done|apply TrashFacts.basename_free|done]. }
  destruct (ensureTrashDir HOME w) as [w1 [t|]] eqn:Het; [|done].
  assert (t = trashPath HOME) as ->.
  { revert Het. unfold ensureTrashDir. fold (trashPath HOME).
    destruct (existsSync (w_fs w) (trashPath HOME)); [by intros [= _ <-]|].
    destruct (mkdirSync _ _) as [fs' [e|]]; [done|by intros [= _ <-]]. }
  cbv zeta.
  destruct (existsSync (w_fs w1) (Path.join [trashPath HOME; Path.basename p])) eqn:Hex;
    destruct (renameSync _ _ _) as [fs' [e|]]; try done;
    intros [= <- <-]; exists w1; eexists; (split; [done|]); (split; [reflexivity|]);
    simpl; rewrite Hex; (split; [done|]); (split; [done|]); (split; [|done]);
    by apply TrashFacts.in_trash_segs.
Qed.

(** X9. An item whose path cannot be read ([null], or a path that is an
    object with a field [toString]) stops the handler: when the paths of
    the items before it can be read, those items are processed as in a
    plan that holds only them, with the same calls and the same
    filesystem left, no answer is sent, and the scan cache is left as it
    was. *)
Theorem unreadable_item_stops_the_handler fs c rq body body' pre bad post e paths :
  planItems (readJsonBody JSON_parse body) = Some (pre ++ bad :: post) ->
  planItems (readJsonBody JSON_parse body') = Some pre ->
  Forall2 (fun it p => itemPath it = Ok p) pre paths ->
  itemPath bad = Throw e ->
  response (applyHandler HOME cwd JSON_parse ts fs c rq body) = None /\
  cache_after (applyHandler HOME cwd JSON_parse ts fs c rq body) = c /\
  fs_after (applyHandler HOME cwd JSON_parse ts fs c rq body) =
    fs_after (applyHandler HOME cwd JSON_parse ts fs c rq body') /\
  calls (applyHandler HOME cwd JSON_parse ts fs c rq body) =
    calls (applyHandler HOME cwd JSON_parse ts fs c rq body') /\
  exists summary details,
    response (applyHandler HOME cwd JSON_parse ts fs c rq body') =
      Some (Resp200 summary details).
Proof.
  intros Hplan Hplan' Hpre Hbad. unfold applyHandler. rewrite Hplan, Hplan'. cbv zeta.
  destruct (ApplyFacts.applyLoop_details HOME cwd ts (q_dryRun (parseQuery rq))
              (q_mode (parseQuery rq)) pre paths
              {| a_world := {| w_fs := fs; w_calls := [] |};
                 a_details := []; a_totalBytes := 0; a_count := 0 |} Hpre)
    as (a' & ds & Hloop & _ & _).
  rewrite (ApplyFacts.applyLoop_stops HOME cwd ts _ _ pre bad post e _ a' Hloop Hbad), Hloop.
  simpl. repeat split; eauto.
Qed.
End ApplyExtras.

(** X7. Every mutating call of an apply call either makes the trash
    directory of the home root, or is made for the path of an item of the
    plan, in a run that is not a dry run, and that path is not empty and
    passed both tests of the loop: it lies strictly under the home root, is
    none of the five deny-listed directories, lies below none of them and
    not inside a photo-library bundle. A move goes to the trash directory,
    under the base name of the path or under that name, a dash and the
    time. The tests do not cover the directory of a photo library itself:
    outside [Pictures], a plan that names a file inside the bundle has it
    skipped, and a plan that names the bundle has it removed with all that
    is in it (second part, on an example). *)
Theorem mutations_target_paths_that_pass_both_tests :
  (forall (FS : Type) (ops : FsOps FS) HOME cwd JSON_parse ts (fs : FS) c rq body call,
      Path.isAbsolute cwd = true ->
      call ∈ calls (applyHandler HOME cwd JSON_parse ts fs c rq body) ->
      exists its it p,
        planItems (readJsonBody JSON_parse body) = Some its /\
        it ∈ its /\ itemPath it = Ok p /\
        callFor HOME ts p call /\
        q_dryRun (parseQuery rq) = false /\ p <> "" /\
        ensureHomeScoped HOME cwd p = true /\ isDenyListed HOME cwd p = false /\
        underHome HOME cwd p /\ ~ underDenyRoot HOME cwd p /\ ~ inPhotoBundle cwd p)
  /\ (Str.endsWith (Path.basename Photos.lib) ".photoslibrary" = true /\
      response (Photos.apply (Demo.applyQuery QAbsent (QStr "delete"))
                  (Demo.planBody [Photos.db; Photos.lib]))
        = Some (Resp200 {| s_count := 1; s_bytes := 0; s_dryRun := false;
                           s_mode := "delete" |}
                        [DSkipped Photos.db "deny_listed"; DDeleted Photos.lib 0]) /\
      calls (Photos.apply (Demo.applyQuery QAbsent (QStr "delete"))
               (Demo.planBody [Photos.db; Photos.lib]))
        = [CallRm Photos.lib true] /\
      Fixture.find Photos.db
        (fs_after (Photos.apply (Demo.applyQuery QAbsent (QStr "delete"))
                     (Demo.planBody [Photos.db; Photos.lib]))) = None).
Proof.
  split.
  - intros FS ops HOME cwd JSON_parse ts fs c rq body call Habs Hin.
    destruct (apply_calls_pass_both_tests HOME cwd JSON_parse ts fs c rq body call Hin)
      as (its & it & p & Hplan & Hit & Hp & Hfor & Hdry & Hne & Hs & Hd).
    exists its, it, p. repeat split; try done.
    + by apply SafetyFacts.ensureHomeScoped_sound.
    + intros Hroot. eapply SafetyFacts.isDenyListed_sound; [exact Habs|exact Hd|by left].
    + intros Hin'. eapply SafetyFacts.isDenyListed_sound; [exact Habs|exact Hd|by right].
  - repeat split; vm_compute; reflexivity.
Qed.

(** A plan that names the 10 MB file of the example, in trash mode: the
    move of the file. *)
Lemma mutations_target_paths_that_pass_both_tests_witness :
  exists its it p,
    planItems (readJsonBody Fixture.parse (Demo.planBody [Demo.small])) = Some its /\
    it ∈ its /\ itemPath it = Ok p /\
    callFor Demo.HOME Demo.timestamp p
      (CallRename Demo.small "/Users/u/.Trash/small.bin") /\
    q_dryRun (parseQuery (Demo.applyQuery QAbsent QAbsent)) = false /\ p <> "" /\
    ensureHomeScoped Demo.HOME Demo.cwd p = true /\ isDenyListed Demo.HOME Demo.cwd p = false /\
    underHome Demo.HOME Demo.cwd p /\ ~ underDenyRoot Demo.HOME Demo.cwd p /\
    ~ inPhotoBundle Demo.cwd p.
Proof.
  apply (proj1 mutations_target_paths_that_pass_both_tests Fixture.Disk Demo.ops Demo.HOME
           Demo.cwd Fixture.parse Demo.timestamp Demo.disk ∅ (Demo.applyQuery QAbsent QAbsent)
           (Demo.planBody [Demo.small])
           (CallRename Demo.small "/Users/u/.Trash/small.bin")).
  - reflexivity.
  - apply list_elem_of_In. vm_compute. auto.
Defined.

Lemma trash_move_lands_in_the_trash_witness :
  exists w1 n,
    ensureTrashDir (H := Demo.ops) Demo.HOME {| w_fs := Demo.disk; w_calls := [] |} =
      (w1, Some (trashPath Demo.HOME)) /\
    n = (if existsSync (FsOps := Demo.ops) (w_fs w1)
              (Path.join [trashPath Demo.HOME; Path.basename Demo.small])
         then Path.basename Demo.small +:+ "-" +:+ Demo.timestamp
         else Path.basename Demo.small) /\
    plain n /\
    "/Users/u/.Trash/small.bin" = Path.join [trashPath Demo.HOME; n] /\
    Path.resolveSegs Demo.cwd "/Users/u/.Trash/small.bin" =
      homeSegs Demo.HOME Demo.cwd ++ [".Trash"; n] /\
    w_calls (safeTrashMove (H := Demo.ops) Demo.HOME Demo.timestamp
               {| w_fs := Demo.disk; w_calls := [] |} Demo.small).1 =
      w_calls w1 ++ [CallRename Demo.small "/Users/u/.Trash/small.bin"].
Proof.
  apply (@trash_move_lands_in_the_trash Fixture.Disk Demo.ops Demo.HOME Demo.cwd
           Demo.timestamp {| w_fs := Demo.disk; w_calls := [] |} Demo.small
           (safeTrashMove (H := Demo.ops) Demo.HOME Demo.timestamp
              {| w_fs := Demo.disk; w_calls := [] |} Demo.small).1
           "/Users/u/.Trash/small.bin").
  - reflexivity.
  - reflexivity.
  - vm_compute. discriminate.
  - vm_compute. discriminate.
  - vm_compute. discriminate.
  - vm_compute. reflexivity.
Defined.

(** A plan in delete mode that names the 10 MB file of the example and
    then holds an item whose path is an object with a field [toString]:
    the file is removed and no answer is sent. *)
Lemma unreadable_item_stops_the_handler_witness :
  response (Demo.apply Demo.ops (Demo.applyQuery QAbsent (QStr "delete")) Plans.withOdd) = None /\
  cache_after (Demo.apply Demo.ops (Demo.applyQuery QAbsent (QStr "delete")) Plans.withOdd)
    = ∅ /\
  fs_after (Demo.apply Demo.ops (Demo.applyQuery QAbsent (QStr "delete")) Plans.withOdd) =
    fs_after (Demo.apply Demo.ops (Demo.applyQuery QAbsent (QStr "delete"))
                (Demo.planBody [Demo.small])) /\
  calls (Demo.apply Demo.ops (Demo.applyQuery QAbsent (QStr "delete")) Plans.withOdd) =
    calls (Demo.apply Demo.ops (Demo.applyQuery QAbsent (QStr "delete"))
             (Demo.planBody [Demo.small])) /\
  exists summary details,
    response (Demo.apply Demo.ops (Demo.applyQuery QAbsent (QStr "delete"))
                (Demo.planBody [Demo.small])) = Some (Resp200 summary details).
Proof.
  apply (@unreadable_item_stops_the_handler Fixture.Disk Demo.ops Demo.HOME Demo.cwd
           Fixture.parse Demo.timestamp Demo.disk ∅ (Demo.applyQuery QAbsent (QStr "delete"))
           Plans.withOdd (Demo.planBody [Demo.small])
           [JObj [("path", JStr Demo.small)]]
           (JObj [("path", JObj [("toString", JNum 0)])]) []
           "TypeError: Cannot convert object to primitive value" [Demo.small]).
  - vm_compute. reflexivity.
  - vm_compute. reflexivity.
  - repeat constructor.
  - reflexivity.
Defined.

Module QueryFacts.
Import WalkFacts ScanFacts CacheFacts.

Lemma sorted_cats_perm_inv (l k : list string) :
  merge_sort String.le l = merge_sort String.le k -> l ≡ₚ k.
Proof.
  intros E. rewrite <- (merge_sort_Permutation String.le l), E.
  apply merge_sort_Permutation.
Qed.

Lemma effectiveCats_not_excluded q c exc :
  c ∈ effectiveCats q -> q_exclude q = Some exc -> c ∉ exc.
Proof.
  unfold effectiveCats. intros Hc Hexc. rewrite Hexc in Hc.
  destruct exc as [|e exc]; [by intros ?%elem_of_nil|].
  apply list_elem_of_filter in Hc as [Hn _].
  apply negb_true_iff in Hn. unfold includes in Hn.
  by apply bool_decide_eq_false in Hn.
Qed.

Section Scan.
Context {FS : Type} `{FsOps FS}.
Variables HOME cwd : string.
Variable JSON_parse : string -> option JSON.

(** Every report in the cache is what the walks of some scan call
    collected, at the time it is stamped with, for a query with the key
    it is stored under. *)
Lemma cache_keyed c :
  Reachable HOME cwd JSON_parse c ->
  forall k ts r, c !! k = Some (ts, r) ->
    exists brewCache fuel fs rq0,
      k = scanKey (parseQuery rq0) /\
      generatedAt r = ts /\
      categories r = effectiveCats (parseQuery rq0) /\
      collectAll HOME cwd brewCache fuel fs ts (scanOptions (parseQuery rq0))
        (effectiveCats (parseQuery rq0)) = Some (items r).
Proof.
  induction 1 as [|c brewCache fuel fs now rq r c' Hc IH Hscan|c ts fs rq body Hc IH];
    intros k ts' r' Hk.
  - by rewrite lookup_empty in Hk.
  - apply scanHandler_key in Hscan
      as [(ts0 & Hk0 & _ & ->)|(_ & its & Hits & -> & ->)]; [by eapply IH|].
    destruct (decide (scanKey (parseQuery rq) = k)) as [<-|Hne].
    + rewrite lookup_insert_eq in Hk. injection Hk as <- <-.
      by exists brewCache, fuel, fs, rq.
    + rewrite lookup_insert_ne in Hk by done. by eapply IH.
  - destruct (applyHandler_cache HOME cwd JSON_parse ts fs c rq body) as [E|E];
      rewrite E in Hk.
    + by eapply IH.
    + by rewrite lookup_empty in Hk.
Qed.

(** The same of the report that a scan call returns. *)
Lemma scan_report_keyed c brewCache fuel fs now rq r c' :
  Reachable HOME cwd JSON_parse c ->
  scanHandler HOME cwd brewCache fuel fs now c rq = Some (r, c') ->
  exists brewCache0 fuel0 fs0 rq0,
    scanKey (parseQuery rq) = scanKey (parseQuery rq0) /\
    categories r = effectiveCats (parseQuery rq0) /\
    collectAll HOME cwd brewCache0 fuel0 fs0 (generatedAt r)
      (scanOptions (parseQuery rq0)) (effectiveCats (parseQuery rq0)) = Some (items r).
Proof.
  intros Hc [(ts & Hk & _ & ->)|(_ & its & Hits & -> & ->)]%scanHandler_key.
  - destruct (cache_keyed c Hc _ _ _ Hk) as (b0 & f0 & fs0 & rq0 & Hkey & <- & Hcats & Hits).
    by exists b0, f0, fs0, rq0.
  - by exists brewCache, fuel, fs, rq.
Qed.
End Scan.
End QueryFacts.

(** ** The report and the query *)

Section QueryExtras.
Context {FS : Type} `{FsOps FS}.
Variables HOME cwd : string.
Variable JSON_parse : string -> option JSON.

(** X10. The report that a scan call returns, fresh or from the cache,
    answers the query of that call: its categories are the effective
    categories of the query, in some order; every item has one of them,
    and none that the query excludes; its size is at least the size bound
    of the query (50 MB when absent; 0 is no bound) and, at the time the
    report is stamped with, its age is at least the age bound (30 days
    when absent; 0 or less is no bound). *)
Theorem report_answers_the_query c brewCache fuel fs now rq r c' :
  Reachable HOME cwd JSON_parse c ->
  scanHandler HOME cwd brewCache fuel fs now c rq = Some (r, c') ->
  categories r ≡ₚ effectiveCats (parseQuery rq) /\
  forall it, it ∈ items r ->
    category it ∈ effectiveCats (parseQuery rq) /\
    (forall exc, q_exclude (parseQuery rq) = Some exc -> category it ∉ exc) /\
    (default DEFAULT_MIN_BYTES (q_minSize (parseQuery rq)) = 0 \/
     default DEFAULT_MIN_BYTES (q_minSize (parseQuery rq)) <= bytes it) /\
    (default DEFAULT_OLDER_DAYS (q_olderThan (parseQuery rq)) <= 0 \/
     default DEFAULT_OLDER_DAYS (q_olderThan (parseQuery rq)) * 86400 * 1000
       <= generatedAt r - 1000 * mtime it).
Proof.
  intros Hc Hscan.
  destruct (QueryFacts.scan_report_keyed HOME cwd JSON_parse _ _ _ _ _ _ _ _ Hc Hscan)
    as (b0 & f0 & fs0 & rq0 & Hkey & Hcats & Hits).
  unfold scanKey in Hkey. injection Hkey as Hm Ho Hsort Hd.
  apply QueryFacts.sorted_cats_perm_inv in Hsort.
  split; [by rewrite Hcats|].
  intros it Hit.
  pose proof (ScanOrder.collectAll_grouped _ _ _ _ _ _ _ _ _ Hits) as [_ Hg].
  pose proof (WalkFacts.collectAll_found _ _ _ _ _ _ _ _ _ Hits) as Hf.
  rewrite Forall_forall in Hg, Hf.
  destruct (Hg it Hit) as (_ & Hin & _ & _).
  unfold includes in Hin. apply bool_decide_eq_true in Hin.
  assert (category it ∈ effectiveCats (parseQuery rq)) as Hin' by by rewrite Hsort.
  split; [done|]. split; [intros exc; by apply QueryFacts.effectiveCats_not_excluded|].
  destruct (Hf it Hit) as (reason_ & category_ & baseDir & cur & ents & ent & st & Hcol).
  destruct Hcol as (_ & _ & _ & _ & _ & _ & _ & _ & Hpass & Hb & Hmt & _).
  apply passesFilters_spec in Hpass as [Hpm Hpo]. simpl in Hpm, Hpo.
  simpl in Hm, Ho. simpl. rewrite Hb, Hmt, Hm, Ho. split; [done|].
  destruct Hpo as [?|Hage]; [by left|right].
  pose proof (Z.mul_div_le (st_mtimeMs st) 1000 ltac:(lia)). lia.
Qed.
End QueryExtras.

Lemma report_answers_the_query_witness :
  categories Demo.report ≡ₚ effectiveCats (parseQuery Demo.scenarioQuery) /\
  forall it, it ∈ items Demo.report ->
    category it ∈ effectiveCats (parseQuery Demo.scenarioQuery) /\
    (forall exc, q_exclude (parseQuery Demo.scenarioQuery) = Some exc -> category it ∉ exc) /\
    (default DEFAULT_MIN_BYTES (q_minSize (parseQuery Demo.scenarioQuery)) = 0 \/
     default DEFAULT_MIN_BYTES (q_minSize (parseQuery Demo.scenarioQuery)) <= bytes it) /\
    (default DEFAULT_OLDER_DAYS (q_olderThan (parseQuery Demo.scenarioQuery)) <= 0 \/
     default DEFAULT_OLDER_DAYS (q_olderThan (parseQuery Demo.scenarioQuery)) * 86400 * 1000
       <= generatedAt Demo.report - 1000 * mtime it).
Proof.
  destruct demo_scan_result as [c' Hscan].
  apply (@report_answers_the_query Fixture.Disk Demo.ops Demo.HOME Demo.cwd Fixture.parse
           ∅ None 8%nat Demo.disk Demo.now0 Demo.scenarioQuery Demo.report c').
  - apply Reach_start.
  - exact Hscan.
Defined.

Module ShFacts.
Import Str StrFacts PathFacts NormFacts ResolveFacts SafetyFacts TrashFacts.
#[local] Arguments Ascii.eqb : simpl never.

Lemma startsWith_cancel a s t : startsWith (a +:+ s) (a +:+ t) = startsWith s t.
Proof.
  induction a as [|c a IH]; [done|]. rewrite !app_cons. cbn [startsWith].
  by rewrite eqb_refl'.
Qed.

Lemma stripPrefix_app a s : stripPrefix a (a +:+ s) = Some s.
Proof.
  induction a as [|c a IH]; [done|]. rewrite app_cons. cbn [stripPrefix].
  by rewrite eqb_refl'.
Qed.

Lemma stripPrefix_spec a s r : stripPrefix a s = Some r -> s = a +:+ r.
Proof.
  revert s. induction a as [|c a IH]; intros s; cbn [stripPrefix].
  - by intros [= ->].
  - destruct s as [|d s]; [done|]. destruct (Ascii.eqb c d) eqn:E; [|done].
    apply Ascii.eqb_eq in E as ->. intros ->%IH. by rewrite app_cons.
Qed.

Lemma after_free c sub s r :
  after sub s = Some r -> hasChar c s = false -> hasChar c r = false.
Proof.
  induction s as [|d s IH]; cbn [after].
  - destruct (stripPrefix sub "") as [r0|] eqn:E; [|done].
    intros [= <-] _. apply stripPrefix_spec in E.
    destruct sub; [by rewrite app_empty_l in E; subst|by rewrite app_cons in E].
  - destruct (stripPrefix sub (String d s)) as [r0|] eqn:E.
    + intros [= <-] Hs. apply stripPrefix_spec in E. rewrite E, hasChar_app in Hs.
      by apply orb_false_iff in Hs as [_ ?].
    + intros Ha Hs. simpl in Hs. apply orb_false_iff in Hs as [_ Hs]. by apply IH.
Qed.

Lemma includes_free c s sub :
  hasChar c sub = true -> hasChar c s = false -> includes s sub = false.
Proof.
  intros Hsub. induction s as [|d s IH]; intros Hs.
  - cbn [includes]. rewrite orb_false_r.
    destruct (startsWith "" sub) eqn:E; [|done].
    apply startsWith_spec in E as [r E]. destruct sub; [done|by rewrite app_cons in E].
  - cbn [includes]. apply orb_false_iff. split.
    + destruct (startsWith (String d s) sub) eqn:E; [|done].
      apply startsWith_spec in E as [r E]. rewrite E, hasChar_app, Hsub in Hs. done.
    + simpl in Hs. apply orb_false_iff in Hs as [_ Hs]. by apply IH.
Qed.

Lemma fold_left_elem_inv_all {A B} (I : A -> Prop) (f : A -> B -> A) (l : list B) (a : A) :
  (forall a b, I a -> I (f a b)) -> I a -> I (fold_left f l a).
Proof.
  intros Hstep. revert a. induction l as [|b l IH]; intros a Ha; simpl; [done|].
  apply IH, Hstep, Ha.
Qed.

Lemma includes_inv s sub :
  includes s sub = true -> exists a b, s = a +:+ sub +:+ b.
Proof.
  induction s as [|c s IH]; cbn [includes].
  - rewrite orb_false_r. intros [r ->]%startsWith_spec. by exists "", r.
  - intros [[r ->]%startsWith_spec|Hs]%orb_true_iff; [by exists "", r|].
    destruct (IH Hs) as (a & b & ->). by exists (String c a), b.
Qed.

Lemma includes_app_l s t sub : includes s sub = true -> includes (s +:+ t) sub = true.
Proof.
  intros (a & b & ->)%includes_inv. apply (includes_spec_r _ a (b +:+ t)).
  by rewrite !app_assoc'.
Qed.

(** What stands before a match on the line makes no difference. *)
Lemma sedLine_app pre s r : Sh.sedLine s = Some r -> Sh.sedLine (pre +:+ s) = Some r.
Proof.
  intros Hs. induction pre as [|c pre IH]; [done|].
  rewrite app_cons. cbn [Sh.sedLine]. by rewrite IH.
Qed.

Lemma isAbsolute_app a t : Path.isAbsolute a = true -> Path.isAbsolute (a +:+ t) = true.
Proof.
  unfold Path.isAbsolute. intros [r ->]%startsWith_spec.
  apply startsWith_spec. exists (r +:+ t). by rewrite app_assoc'.
Qed.

Section Above.
Variables HOME cwd : string.
Hypothesis HOME_abs : Path.isAbsolute HOME = true.
Hypothesis cwd_abs : Path.isAbsolute cwd = true.
Variable x : string.
Hypothesis x_plain : plain x.

(** The path [HOME/../x] names the entry [x] of the directory above the
    home root. *)
Lemma above_home_segs :
  exists F,
    homeSegs HOME cwd = rev F /\
    Path.resolveSegs cwd (HOME +:+ "/../" +:+ x) = rev (tail F) ++ [x].
Proof using HOME_abs cwd_abs x_plain.
  exists (fold_left (Path.normStep false) (split "/" HOME) []).
  unfold homeSegs. rewrite !resolveSegs_abs by (done || by apply isAbsolute_app).
  split; [done|].
  change (HOME +:+ "/../" +:+ x) with (HOME +:+ String "/" (".." +:+ String "/" x)).
  rewrite !split_app.
  assert (split "/" x = [x]) as -> by (apply split_free; apply x_plain).
  change (split "/" "..") with [".."].
  rewrite (app_assoc (split "/" HOME) [".."] [x]).
  rewrite normalizeSegs_app_plain by by constructor.
  f_equal. unfold Path.normalizeSegs. rewrite fold_left_app. simpl.
  pose proof (fold_false_plain (split "/" HOME) [] (split_segments "/" HOME)
                ltac:(constructor)) as HF.
  destruct (fold_left (Path.normStep false) (split "/" HOME) []) as [|top rest]; [done|].
  inversion HF as [|?? (_ & _ & Htop & _) _]; subst.
  by rewrite step_dotdot_cons.
Qed.

Lemma above_home_not_in_scope :
  ensureHomeScoped HOME cwd (HOME +:+ "/../" +:+ x) = false.
Proof using HOME_abs cwd_abs x_plain.
  destruct (ensureHomeScoped HOME cwd _) eqn:E; [|done].
  apply ensureHomeScoped_iff in E as [Hne (s & k & Hp)]; [|done].
  destruct above_home_segs as (F & HF & Hx). rewrite Hx, HF in Hp. rewrite HF in Hne.
  apply (f_equal length) in Hp. rewrite !length_app, !length_rev in Hp. simpl in Hp.
  destruct F; [done|]. simpl in Hp. lia.
Qed.

Lemma above_home_sh_scope : Sh.ensure_home_scope HOME (HOME +:+ "/../" +:+ x) = true.
Proof.
  unfold Sh.ensure_home_scope.
  change (HOME +:+ "/../" +:+ x) with (HOME +:+ String "/" ("../" +:+ x)).
  change (HOME +:+ "/") with (HOME +:+ String "/" "").
  rewrite startsWith_cancel. by cbn [startsWith]; rewrite eqb_refl'.
Qed.

Lemma above_home_sh_deny : Sh.deny_listed HOME (HOME +:+ "/../" +:+ x) = false.
Proof using x_plain.
  unfold Sh.deny_listed, Sh.photosGlob.
  rewrite !startsWith_cancel.
  replace (HOME +:+ "/../" +:+ x) with ((HOME +:+ "/") +:+ ("../" +:+ x))
    by by rewrite app_assoc'.
  rewrite stripPrefix_app.
  change (after "Photos" ("../" +:+ x)) with (after "Photos" x).
  assert (match after "Photos" x with
          | Some r' => includes r' ".photoslibrary/"
          | None => false
          end = false) as ->.
  { destruct (after "Photos" x) as [r|] eqn:Ha; [|done].
    apply (includes_free "/"); [done|].
    eapply after_free; [exact Ha|apply x_plain]. }
  reflexivity.
Qed.
End Above.

Section Loop.
Context {FS : Type} `{FsOps FS}.
Variable HOME_DIR : string.
Variable ts : string.
Variables DRY_RUN USE_TRASH : bool.

Lemma apply_one_count s p :
  Sh.l_count s = Z.of_nat (length (filter (fun e => attempted e = true) (Sh.l_log s))) ->
  Sh.l_count (Sh.apply_one HOME_DIR ts DRY_RUN USE_TRASH s p) =
    Z.of_nat (length (filter (fun e => attempted e = true)
                        (Sh.l_log (Sh.apply_one HOME_DIR ts DRY_RUN USE_TRASH s p)))).
Proof.
  intros Hs. unfold Sh.apply_one, Sh.skip, Sh.tally.
  repeat case_match; simpl; rewrite filter_app, length_app; simpl; lia.
Qed.

Lemma apply_plan_count fs content :
  Sh.l_count (Sh.apply_plan HOME_DIR ts DRY_RUN USE_TRASH fs content) =
    Z.of_nat (length (filter (fun e => attempted e = true)
                        (Sh.l_log (Sh.apply_plan HOME_DIR ts DRY_RUN USE_TRASH fs content)))).
Proof.
  unfold Sh.apply_plan.
  apply (fold_left_elem_inv_all
           (fun s => Sh.l_count s =
              Z.of_nat (length (filter (fun e => attempted e = true) (Sh.l_log s))))).
  - intros s p. apply apply_one_count.
  - done.
Qed.
End Loop.

Section Dry.
Context {FS : Type} `{FsOps FS}.
Variable HOME_DIR : string.
Variable ts : string.
Variable USE_TRASH : bool.

Lemma apply_one_dry s p :
  Forall (fun e => dryEvent e = true) (Sh.l_log s) ->
  Sh.l_fs (Sh.apply_one HOME_DIR ts true USE_TRASH s p) = Sh.l_fs s /\
  Forall (fun e => dryEvent e = true) (Sh.l_log (Sh.apply_one HOME_DIR ts true USE_TRASH s p)).
Proof.
  intros Hs. unfold Sh.apply_one, Sh.skip, Sh.tally.
  repeat case_match; simpl; (split; [done|]); apply Forall_app; by repeat constructor.
Qed.
End Dry.
End ShFacts.

(** ** The shell front-end *)

(** X11. The scope test of the shell front-end is a test on the text of the
    path. A plan line [HOME/../x] passes it and the shell deny-list, so that
    [apply_plan], when the path exists and the run is neither a dry run nor
    in trash mode, removes it and counts it, although the path names an
    entry of the directory above the home root; the server, which resolves
    the path first, finds the same path out of scope and skips it. *)
Theorem shell_scope_test_passes_paths_above_home
  {FS : Type} `{FsOps FS} (HOME cwd x ts : string) :
  Path.isAbsolute HOME = true ->
  Path.isAbsolute cwd = true ->
  plain x ->
  Sh.ensure_home_scope HOME (HOME +:+ "/../" +:+ x) = true /\
  Sh.deny_listed HOME (HOME +:+ "/../" +:+ x) = false /\
  ensureHomeScoped HOME cwd (HOME +:+ "/../" +:+ x) = false /\
  (forall s : Sh.LoopState,
     existsSync (Sh.l_fs s) (HOME +:+ "/../" +:+ x) = true ->
     Sh.l_fs (Sh.apply_one HOME ts false false s (HOME +:+ "/../" +:+ x)) =
       (rmSync (Sh.l_fs s) (HOME +:+ "/../" +:+ x) true).1 /\
     Sh.l_count (Sh.apply_one HOME ts false false s (HOME +:+ "/../" +:+ x)) =
       Sh.l_count s + 1) /\
  (forall dryRun mode (a : ApplyState),
     existsSync (w_fs (a_world a)) (HOME +:+ "/../" +:+ x) = true ->
     applyPath HOME cwd ts dryRun mode a (HOME +:+ "/../" +:+ x) =
       pushDetail a (DSkipped (HOME +:+ "/../" +:+ x) "outside_home")).
Proof.
  intros Hh Hc Hx.
  pose proof (ShFacts.above_home_sh_scope HOME x) as Hscope.
  pose proof (ShFacts.above_home_sh_deny HOME x Hx) as Hdeny.
  pose proof (ShFacts.above_home_not_in_scope HOME cwd Hh Hc x Hx) as Hout.
  split; [done|]. split; [done|]. split; [done|]. split.
  - intros s He. unfold Sh.apply_one. rewrite He, Hscope, Hdeny. simpl.
    by destruct (rmSync _ _ _) as [fs' [e|]].
  - intros dryRun mode a He. unfold applyPath. rewrite He, Hout.
    assert (Str.isEmpty (HOME +:+ "/../" +:+ x) = false) as ->; [|done].
    destruct HOME; [done|]. by rewrite StrFacts.app_cons.
Qed.

(** On the disk of the example, from the home root to a file of another
    user. *)
Lemma shell_scope_test_passes_paths_above_home_witness :
  Sh.ensure_home_scope Demo.HOME (Demo.HOME +:+ "/../" +:+ "v") = true /\
  Sh.deny_listed Demo.HOME (Demo.HOME +:+ "/../" +:+ "v") = false /\
  ensureHomeScoped Demo.HOME Demo.cwd (Demo.HOME +:+ "/../" +:+ "v") = false /\
  (forall s : Sh.LoopState,
     existsSync (FsOps := Demo.ops) (Sh.l_fs s) (Demo.HOME +:+ "/../" +:+ "v") = true ->
     Sh.l_fs (Sh.apply_one (H := Demo.ops) Demo.HOME Demo.timestamp false false s
                (Demo.HOME +:+ "/../" +:+ "v")) =
       (rmSync (FsOps := Demo.ops) (Sh.l_fs s) (Demo.HOME +:+ "/../" +:+ "v") true).1 /\
     Sh.l_count (Sh.apply_one (H := Demo.ops) Demo.HOME Demo.timestamp false false s
                   (Demo.HOME +:+ "/../" +:+ "v")) =
       Sh.l_count s + 1) /\
  (forall dryRun mode (a : ApplyState),
     existsSync (FsOps := Demo.ops) (w_fs (a_world a)) (Demo.HOME +:+ "/../" +:+ "v") = true ->
     applyPath (H := Demo.ops) Demo.HOME Demo.cwd Demo.timestamp dryRun mode a
       (Demo.HOME +:+ "/../" +:+ "v") =
       pushDetail a (DSkipped (Demo.HOME +:+ "/../" +:+ "v") "outside_home")).
Proof.
  apply (@shell_scope_test_passes_paths_above_home Fixture.Disk Demo.ops
           Demo.HOME Demo.cwd "v" Demo.timestamp).
  - reflexivity.
  - reflexivity.
  - repeat split; discriminate.
Defined.

(** X12. A dry run of [apply_plan] moves and removes nothing, for every
    plan file: the filesystem that its loop hands on is the one it was
    given, and its log holds nothing but missing, outside-home, deny-listed
    and would-remove entries. (The log file and the temporary list that the
    script writes for itself are not part of that state.) *)
Theorem shell_dry_run_mutates_nothing
  {FS : Type} `{FsOps FS} (HOME_DIR ts : string) (USE_TRASH : bool) (fs : FS)
  (content : string) :
  Sh.l_fs (Sh.apply_plan HOME_DIR ts true USE_TRASH fs content) = fs /\
  Forall (fun e => dryEvent e = true)
         (Sh.l_log (Sh.apply_plan HOME_DIR ts true USE_TRASH fs content)).
Proof.
  unfold Sh.apply_plan.
  apply (ShFacts.fold_left_elem_inv_all
           (fun s => Sh.l_fs s = fs /\ Forall (fun e => dryEvent e = true) (Sh.l_log s))).
  - intros s p [Hfs Hlog].
    destruct (ShFacts.apply_one_dry HOME_DIR ts USE_TRASH s p Hlog) as [-> ?]. done.
  - by split.
Qed.

(** X13. The count that [apply_plan] announces is the number of paths that
    passed the three tests (existence, scope, deny-list), whether their
    removal succeeded or failed: a failed move or removal is counted. *)
Theorem shell_count_includes_failures
  {FS : Type} `{FsOps FS} (HOME_DIR ts : string) (DRY_RUN USE_TRASH : bool) (fs : FS)
  (content : string) :
  Sh.l_count (Sh.apply_plan HOME_DIR ts DRY_RUN USE_TRASH fs content) =
    Z.of_nat (length (filter (fun e => attempted e = true)
                        (Sh.l_log (Sh.apply_plan HOME_DIR ts DRY_RUN USE_TRASH fs content)))) /\
  forall s p,
    existsSync (Sh.l_fs s) p = true ->
    Sh.ensure_home_scope HOME_DIR p = true ->
    Sh.deny_listed HOME_DIR p = false ->
    (rmSync (Sh.l_fs s) p true).2 <> None ->
    Sh.l_log (Sh.apply_one HOME_DIR ts false false s p) = Sh.l_log s ++ [Sh.DeleteFailed p] /\
    Sh.l_count (Sh.apply_one HOME_DIR ts false false s p) = Sh.l_count s + 1.
Proof.
  split; [apply ShFacts.apply_plan_count|].
  intros s p He Hs Hd Hrm. unfold Sh.apply_one. rewrite He, Hs, Hd. simpl.
  by destruct (rmSync _ _ _) as [fs' [e|]].
Qed.

(** X14. From a JSON plan, the shell front-end takes at most one path from
    each line: the last one that the line holds. A plan written on one
    line that ends in a newline gives the last of its paths and no other.
    The same line without the newline gives no path: [sed] prints the path
    without a newline and [read] fails on it. *)
Theorem one_line_json_plan_gives_its_last_path (line pre s r : string) :
  Str.hasChar "010" line = false ->
  Str.includes line (Sh.dq +:+ "items" +:+ Sh.dq) = true ->
  line = pre +:+ s ->
  Sh.sedLine s = Some r ->
  Sh.plan_list (line +:+ String "010" "") = [r] /\
  Sh.plan_list line = [].
Proof.
  intros Hnl Hitems -> Hs.
  pose proof (ShFacts.sedLine_app pre s r Hs) as Hline.
  revert Hnl Hitems Hline. generalize (pre +:+ s). intros line Hnl Hitems Hline.
  unfold Sh.plan_list.
  rewrite Hitems, (ShFacts.includes_app_l _ _ _ Hitems). unfold Sh.endedLines.
  rewrite (StrFacts.split_app "010" line ""), (StrFacts.split_free _ _ Hnl).
  split; [|done]. simpl. by rewrite Hline.
Qed.

(** The plan of the example with its two paths on one line: the second
    when the line ends in a newline, none when it does not. *)
Lemma one_line_json_plan_gives_its_last_path_witness :
  Sh.plan_list (Demo.planBody [Demo.big; Demo.small] +:+ String "010" "") = [Demo.small] /\
  Sh.plan_list (Demo.planBody [Demo.big; Demo.small]) = [].
Proof.
  apply (one_line_json_plan_gives_its_last_path
           (Demo.planBody [Demo.big; Demo.small])
           ("{" +:+ Demo.quoted "items" +:+ ":[{" +:+ Demo.quoted "path" +:+ ":" +:+
            Demo.quoted Demo.big +:+ "},{")
           (Demo.quoted "path" +:+ ":" +:+ Demo.quoted Demo.small +:+ "}]}")
           Demo.small).
  - vm_compute. reflexivity.
  - vm_compute. reflexivity.
  - vm_compute. reflexivity.
  - vm_compute. reflexivity.
Defined.

(** The 60 MB file of the example, which the user may not remove: the
    removal fails and is counted. *)
Lemma shell_count_includes_failures_witness :
  let s0 := {| Sh.l_fs := Demo.disk; Sh.l_log := []; Sh.l_total := 0; Sh.l_count := 0 |} in
  Sh.l_log (Sh.apply_one (H := Demo.opsLocked) Demo.HOME Demo.timestamp false false s0 Demo.big)
    = Sh.l_log s0 ++ [Sh.DeleteFailed Demo.big] /\
  Sh.l_count (Sh.apply_one (H := Demo.opsLocked) Demo.HOME Demo.timestamp false false s0 Demo.big)
    = Sh.l_count s0 + 1.
Proof.
  intros s0.
  apply (proj2 (@shell_count_includes_failures Fixture.Disk Demo.opsLocked Demo.HOME
                  Demo.timestamp false false Demo.disk "") s0 Demo.big).
  - reflexivity.
  - reflexivity.
  - vm_compute. reflexivity.
  - vm_compute. discriminate.
Defined.

Module ServerFacts.
Import ApplyFacts.

Lemma route_apply method pathname :
  route method pathname = ToApply <->
  method = "POST" /\ orSlash pathname = "/api/apply".
Proof.
  unfold route. split.
  - destruct (String.eqb_spec method "OPTIONS"); [done|].
    destruct (String.eqb_spec (orSlash pathname) "/api/ping"); [done|].
    destruct (String.eqb_spec (orSlash pathname) "/api/scan");
      destruct (String.eqb_spec method "GET"); simpl; try done;
      destruct (String.eqb_spec (orSlash pathname) "/api/apply");
      destruct (String.eqb_spec method "POST"); simpl; done.
  - intros [-> ->]. reflexivity.
Qed.

Section Apply.
Context {FS : Type} `{FsOps FS}.
Variables HOME cwd : string.
Variable JSON_parse : string -> option JSON.
Variable ts : string.

(** A dry run makes no call and leaves the filesystem, whatever the
    body holds. *)
Lemma applyHandler_dry fs c rq body :
  q_dryRun (parseQuery rq) = true ->
  fs_after (applyHandler HOME cwd JSON_parse ts fs c rq body) = fs /\
  calls (applyHandler HOME cwd JSON_parse ts fs c rq body) = [].
Proof.
  intros Hdry. unfold applyHandler. rewrite Hdry.
  destruct (planItems _) as [its|]; [|done]. cbv zeta.
  pose proof (applyLoop_inv HOME cwd ts
                (fun a => a_world a = {| w_fs := fs; w_calls := [] |})
                true (q_mode (parseQuery rq)) its
                {| a_world := {| w_fs := fs; w_calls := [] |};
                   a_details := []; a_totalBytes := 0; a_count := 0 |}) as Hinv.
  destruct (applyLoop _ _ _ _ _ _ _) as [a [e|]]; simpl in *;
    rewrite Hinv; try done; intros a0 p <-; apply applyPath_dry_world.
Qed.
End Apply.
End ServerFacts.

(** ** Static files and the router *)

Section ServerExtras.
Context {FS : Type} `{FsOps FS}.
Variables HOME cwd : string.
Variable brewCache : option string.
Variable JSON_parse : string -> option JSON.
Variable decodeURIComponent : string -> option string.
Variable extname : string -> string.
Variable readFile : FS -> string -> Outcome string.

(** X15. [serveStatic] sends a file exactly when the decoded path, joined
    to the static root and resolved, lies strictly under the static root
    at a segment boundary, [lstat] does not report it as a symbolic link,
    [stat] does not report it as a directory, and it can be read; it then
    sends the bytes of that file. *)
Theorem static_file_is_sent_only_from_under_the_root fs pathname ct data :
  Path.isAbsolute cwd = true ->
  serveStatic cwd decodeURIComponent extname readFile fs pathname = Some (FileSent ct data) <->
  exists decoded lst st,
    decodeURIComponent (orSlash pathname) = Some decoded /\
    homeSegs cwd cwd <> [] /\
    underHome cwd cwd (staticFile cwd decoded) /\
    lstat fs (staticTarget cwd decoded) = Ok lst /\ st_kind lst <> KSymlink /\
    statSync fs (staticTarget cwd decoded) = Ok st /\ st_kind st <> KDir /\
    readFile fs (staticTarget cwd decoded) = Ok data /\
    ct = contentTypeFor extname (staticTarget cwd decoded).
Proof.
  intros Habs. unfold serveStatic.
  pose proof (fun d => TrashFacts.ensureHomeScoped_iff cwd cwd Habs (staticFile cwd d)) as Hscope.
  unfold ensureHomeScoped in Hscope. split.
  - destruct (decodeURIComponent (orSlash pathname)) as [decoded|]; [|done].
    fold (staticTarget cwd decoded).
    destruct (Str.startsWith _ _) eqn:Hs; [|done]. simpl.
    apply Hscope in Hs as [Hne Hu].
    destruct (lstat fs _) as [lst|] eqn:Hl; [|done].
    destruct (st_kind lst) eqn:Hk; try done;
      (destruct (statSync fs _) as [st|] eqn:Hst; [|done]);
      (destruct (st_kind st) eqn:Hkd; try done);
      (destruct (readFile fs _) as [d|] eqn:Hr; [|done]);
      intros [= <- <-]; exists decoded, lst, st; repeat split; try done; congruence.
  - intros (decoded & lst & st & -> & Hne & Hu & Hl & Hk & Hst & Hkd & Hr & ->).
    fold (staticTarget cwd decoded).
    assert (Str.startsWith (staticTarget cwd decoded) (Path.resolve cwd cwd +:+ Path.sep) = true)
      as -> by by apply Hscope.
    simpl. rewrite Hl, Hst, Hr.
    destruct (st_kind lst); try done; destruct (st_kind st); done.
Qed.

(** X16. One request changes the filesystem, or makes a mutating call,
    only when its method is POST, its path is [/api/apply] and its query
    does not ask for a dry run; every other request (scan, ping,
    preflight, static file, apply as a dry run) leaves the filesystem as
    it is. *)
Theorem only_apply_post_mutates fuel now ts sv rq ans sv' :
  serve HOME cwd brewCache JSON_parse decodeURIComponent extname readFile fuel now ts sv rq
    = Some (ans, sv') ->
  (rq_method rq = "POST" /\ orSlash (rq_pathname rq) = "/api/apply" /\
   q_dryRun (parseQuery (rq_query rq)) = false)
  \/ (sv_fs sv' = sv_fs sv /\ sv_calls sv' = sv_calls sv).
Proof.
  unfold serve. destruct (route _ _) eqn:Hroute.
  - intros [= _ <-]. by right.
  - intros [= _ <-]. by right.
  - intros ([r c'] & _ & [= _ <-])%bind_Some. by right.
  - apply ServerFacts.route_apply in Hroute as [Hm Hp].
    destruct (q_dryRun (parseQuery (rq_query rq))) eqn:Hdry; [|by left].
    intros [= _ <-]. right. simpl.
    destruct (ServerFacts.applyHandler_dry HOME cwd JSON_parse ts (sv_fs sv) (sv_cache sv)
                (rq_query rq) (rq_body rq) Hdry) as [-> ->].
    by rewrite app_nil_r.
  - intros [= _ <-]. by right.
Qed.
End ServerExtras.

(** The page of the example root is sent for the path [/]. *)
Lemma static_file_is_sent_only_from_under_the_root_witness :
  Site.get "/" = Some (FileSent "text/html; charset=utf-8" "/srv/app/index.html") <->
  exists decoded lst st,
    Site.decode (orSlash (Some "/")) = Some decoded /\
    homeSegs Site.cwd Site.cwd <> [] /\
    underHome Site.cwd Site.cwd (staticFile Site.cwd decoded) /\
    lstat (FsOps := Site.ops) Site.disk (staticTarget Site.cwd decoded) = Ok lst /\
    st_kind lst <> KSymlink /\
    statSync (FsOps := Site.ops) Site.disk (staticTarget Site.cwd decoded) = Ok st /\
    st_kind st <> KDir /\
    Site.readFile Site.disk (staticTarget Site.cwd decoded) = Ok "/srv/app/index.html" /\
    "text/html; charset=utf-8" = contentTypeFor Site.extname (staticTarget Site.cwd decoded).
Proof.
  apply (@static_file_is_sent_only_from_under_the_root Fixture.Disk Site.ops Site.cwd
           Site.decode Site.extname Site.readFile Site.disk (Some "/")
           "text/html; charset=utf-8" "/srv/app/index.html").
  reflexivity.
Defined.

(** Paths that leave the root, the root itself and a link are refused; a
    path that cannot be decoded gets no answer. *)
Example static_refusals :
  Site.get "/../secret" = Some Forbidden /\
  Site.get "/." = Some Forbidden /\
  Site.get "/passwd" = Some Forbidden /\
  Site.get "/missing.css" = Some NotFound /\
  Site.get "/%" = None /\
  Site.get "/index.html" = Some (FileSent "text/html; charset=utf-8" "/srv/app/index.html").
Proof. vm_compute. repeat split. Qed.

(** A plan in delete mode that names the 10 MB file of the example. *)
Lemma only_apply_post_mutates_witness :
  let rq := {| rq_method := "POST"; rq_pathname := Some "/api/apply";
               rq_query := Demo.applyQuery QAbsent (QStr "delete");
               rq_body := Demo.planBody [Demo.small] |} in
  let res := Demo.apply Demo.ops (Demo.applyQuery QAbsent (QStr "delete"))
               (Demo.planBody [Demo.small]) in
  (rq_method rq = "POST" /\ orSlash (rq_pathname rq) = "/api/apply" /\
   q_dryRun (parseQuery (rq_query rq)) = false)
  \/ (fs_after res = Demo.disk /\ [] ++ calls res = []).
Proof.
  intros rq res.
  apply (@only_apply_post_mutates Fixture.Disk Demo.ops Demo.HOME Demo.cwd None Fixture.parse
           Site.decode Site.extname Site.readFile 8%nat Demo.now0 Demo.timestamp
           {| sv_fs := Demo.disk; sv_cache := ∅; sv_calls := [] |} rq
           (Applied (response res))
           {| sv_fs := fs_after res; sv_cache := cache_after res; sv_calls := [] ++ calls res |}).
  reflexivity.
Defined.

Module UiFacts.
Import Str StrFacts TrashFacts.
#[local] Arguments Ascii.eqb : simpl never.

Lemma replaceAll_app c r a b :
  Ui.replaceAll c r (a +:+ b) = Ui.replaceAll c r a +:+ Ui.replaceAll c r b.
Proof.
  induction a as [|d a IH]; [done|]. rewrite app_cons. cbn [Ui.replaceAll].
  by rewrite IH, app_assoc'.
Qed.

Lemma replaceAll_single c r d :
  Ui.replaceAll c r (String d "") = if Ascii.eqb d c then r else String d "".
Proof. cbn [Ui.replaceAll]. by rewrite app_empty_r. Qed.

Lemma escapeHtml_app a b : Ui.escapeHtml (a +:+ b) = Ui.escapeHtml a +:+ Ui.escapeHtml b.
Proof. unfold Ui.escapeHtml. by rewrite !replaceAll_app. Qed.

Lemma escapeHtml_char c : Ui.escapeHtml (String c "") = Ui.escapeChar c.
Proof.
  unfold Ui.escapeChar.
  destruct (Ascii.eqb_spec c "&") as [->|H1]; [reflexivity|].
  destruct (Ascii.eqb_spec c "<") as [->|H2]; [reflexivity|].
  destruct (Ascii.eqb_spec c ">") as [->|H3]; [reflexivity|].
  destruct (Ascii.eqb_spec c "034") as [->|H4]; [reflexivity|].
  destruct (Ascii.eqb_spec c "'") as [->|H5]; [reflexivity|].
  apply Ascii.eqb_neq in H1, H2, H3, H4, H5.
  unfold Ui.escapeHtml.
  by rewrite replaceAll_single, H1, replaceAll_single, H2, replaceAll_single, H3,
    replaceAll_single, H4, replaceAll_single, H5.
Qed.

(** The five replacements in a row are one pass over the characters. *)
Lemma escapeHtml_each s : Ui.escapeHtml s = Ui.escapeEach s.
Proof.
  induction s as [|c s IH]; [done|].
  change (String c s) with (String c "" +:+ s).
  rewrite escapeHtml_app, escapeHtml_char, IH. reflexivity.
Qed.

Lemma escapeChar_free c d :
  d = "<"%char \/ d = ">"%char \/ d = "034"%char \/ d = "'"%char ->
  hasChar d (Ui.escapeChar c) = false.
Proof.
  intros Hd. unfold Ui.escapeChar.
  destruct (Ascii.eqb_spec c "&") as [->|H1];
    [by destruct Hd as [-> | [-> | [-> | ->] ] ] |].
  destruct (Ascii.eqb_spec c "<") as [->|H2];
    [by destruct Hd as [-> | [-> | [-> | ->] ] ] |].
  destruct (Ascii.eqb_spec c ">") as [->|H3];
    [by destruct Hd as [-> | [-> | [-> | ->] ] ] |].
  destruct (Ascii.eqb_spec c "034") as [->|H4];
    [by destruct Hd as [-> | [-> | [-> | ->] ] ] |].
  destruct (Ascii.eqb_spec c "'") as [->|H5];
    [by destruct Hd as [-> | [-> | [-> | ->] ] ] |].
  simpl. rewrite orb_false_r. apply Ascii.eqb_neq.
  destruct Hd as [-> | [-> | [-> | ->] ] ]; congruence.
Qed.

Lemma escapeEach_free s d :
  d = "<"%char \/ d = ">"%char \/ d = "034"%char \/ d = "'"%char ->
  hasChar d (Ui.escapeEach s) = false.
Proof.
  intros Hd. induction s as [|c s IH]; [done|].
  cbn [Ui.escapeEach]. by rewrite hasChar_app, escapeChar_free, IH.
Qed.
End UiFacts.

(** ** The page *)

(** X17. [escapeHtml] is one pass over the characters of its argument:
    each of the five special characters becomes its entity and every other
    character stays, so that an ampersand of an entity just written is not
    escaped again; the result holds none of the characters [<], [>], the
    double quote and the single quote. *)
Theorem escapeHtml_is_one_pass_and_leaves_no_markup (s : string) :
  Ui.escapeHtml s = Ui.escapeEach s /\
  Str.hasChar "<" (Ui.escapeHtml s) = false /\
  Str.hasChar ">" (Ui.escapeHtml s) = false /\
  Str.hasChar "034" (Ui.escapeHtml s) = false /\
  Str.hasChar "'" (Ui.escapeHtml s) = false.
Proof.
  rewrite UiFacts.escapeHtml_each. split; [done|].
  repeat split; apply UiFacts.escapeEach_free; auto.
Qed.

Module UiQueryFacts.
Import Str StrFacts TrashFacts.
#[local] Arguments Ascii.eqb : simpl never.

Lemma dropWhile_keeps f v a :
  f a = false -> isEmpty (dropWhile f (v +:+ String a "")) = false.
Proof.
  intros Ha. induction v as [|c v IH].
  - rewrite app_empty_l. simpl. by rewrite Ha.
  - rewrite app_cons. simpl. by destruct (f c).
Qed.

Lemma rev_app_spec s acc : String.rev_app s acc = String.rev_app s "" +:+ acc.
Proof.
  revert acc. induction s as [|a s IH]; intros acc; [done|].
  simpl. rewrite (IH (String a acc)), (IH (String a "")). by rewrite app_assoc'.
Qed.

Lemma rev_cons a s : String.rev (String a s) = String.rev s +:+ String a "".
Proof. unfold String.rev. simpl. apply rev_app_spec. Qed.

Lemma rev_nonempty s : isEmpty s = false -> isEmpty (String.rev s) = false.
Proof.
  destruct s as [|c s]; [done|]. intros _. rewrite rev_cons.
  destruct (String.rev s); [by rewrite app_empty_l|by rewrite app_cons].
Qed.

(** A text that starts with a character that is not white space does not
    trim to the empty text. *)
Lemma trim_nonempty a s :
  Ascii.is_space a = false -> isEmpty (trim (String a s)) = false.
Proof.
  intros Ha. unfold trim. apply rev_nonempty.
  simpl dropWhile at 2. rewrite Ha.
  rewrite rev_cons. by apply dropWhile_keeps.
Qed.

Lemma categories_tidy c : c ∈ CATEGORIES -> tidyName c.
Proof.
  unfold CATEGORIES. intros Hc.
  repeat (apply elem_of_cons in Hc as [->|Hc];
          [repeat split; try reflexivity; by do 2 eexists|]).
  by apply elem_of_nil in Hc.
Qed.

Lemma parseList_join cats :
  cats <> [] -> Forall tidyName cats ->
  parseList (QStr (join "," cats)) = Some cats.
Proof.
  intros Hne Hall. unfold parseList.
  destruct cats as [|c cs]; [done|].
  assert (isEmpty (trim (join "," (c :: cs))) = false) as ->.
  { inversion Hall as [|?? (_ & _ & a & c' & -> & Ha) _]; subst.
    destruct (ResolveFacts.join_head "," (String a c') cs) as [t ->].
    rewrite app_cons. by apply trim_nonempty. }
  f_equal. rewrite split_join; [|done|].
  - clear Hne. induction Hall as [|x l (_ & Hx & a & x' & -> & _) _ IH]; [done|].
    rewrite map_cons, Hx, filter_cons. simpl. by rewrite IH.
  - eapply Forall_impl; [exact Hall|]. by intros x (? & _).
Qed.
End UiQueryFacts.

Module UiTotalsFacts.
Lemma computeTotals_sum its :
  Forall (fun it => 0 <= bytes it) its ->
  Ui.computeTotals its = sumTotals its.
Proof.
  unfold Ui.computeTotals, sumTotals.
  assert (roundDouble (bytes_total {| count := 0; bytes_total := 0 |}) =
            bytes_total {| count := 0; bytes_total := 0 |}) as Hacc by done.
  revert Hacc. generalize {| count := 0; bytes_total := 0 |}.
  induction its as [|it its IH]; intros acc Hacc Hall; [done|].
  inversion Hall as [|?? Hit Hits]; subst. simpl.
  destruct (Z.ltb_spec 0 (bytes it)) as [Hpos|Hzero].
  - apply IH; [|done]. simpl. apply NumberFacts.addNumber_idem.
  - assert (bytes it = 0) as -> by lia.
    rewrite (NumberFacts.addNumber_0_r _ Hacc). by apply IH.
Qed.

Lemma normalizeItems_id its :
  Forall (fun it => category it ∈ scannedCategories) its ->
  Ui.normalizeItems its = its.
Proof.
  induction 1 as [|it its Hit _ IH]; [done|].
  unfold Ui.normalizeItems in *. simpl. rewrite IH. f_equal.
  unfold Ui.normalizeItem. destruct it as [p b m c r t]. simpl in *. f_equal.
  unfold scannedCategories in Hit.
  repeat (apply elem_of_cons in Hit as [->|Hit]; [done|]).
  by apply elem_of_nil in Hit.
Qed.
End UiTotalsFacts.

Section PageExtras.
Context {FS : Type} `{FsOps FS}.
Variables HOME cwd : string.
Variable JSON_parse : string -> option JSON.

(** X18. The page takes the items of a report as they are, and the
    totals that it computes from them are the totals of the report, as
    long as no size is negative. *)
Theorem page_totals_agree_with_report c brewCache fuel fs now rq r c' :
  Reachable HOME cwd JSON_parse c ->
  scanHandler HOME cwd brewCache fuel fs now c rq = Some (r, c') ->
  Forall (fun it => 0 <= bytes it) (items r) ->
  Ui.normalizeItems (items r) = items r /\
  Ui.computeTotals (Ui.normalizeItems (items r)) = totals r.
Proof.
  intros Hc Hscan Hpos.
  assert (Grouped (categories r) 5 (items r) /\ totals r = sumTotals (items r))
    as [[_ Hg] Ht].
  { eapply (ScanFacts.scan_report_inv HOME cwd JSON_parse
              (fun r => Grouped (categories r) 5 (items r) /\ totals r = sumTotals (items r)));
      [|exact Hc|exact Hscan].
    intros. simpl. split; [by eapply ScanOrder.collectAll_grouped|done]. }
  assert (Ui.normalizeItems (items r) = items r) as Hn.
  { apply UiTotalsFacts.normalizeItems_id. eapply Forall_impl; [exact Hg|].
    by intros it (_ & _ & ? & _). }
  split; [done|]. rewrite Hn, Ht. by apply UiTotalsFacts.computeTotals_sum.
Qed.
End PageExtras.

Lemma page_totals_agree_with_report_witness :
  Ui.normalizeItems (items Demo.report) = items Demo.report /\
  Ui.computeTotals (Ui.normalizeItems (items Demo.report)) = totals Demo.report.
Proof.
  destruct demo_scan_result as [c' Hscan].
  apply (@page_totals_agree_with_report Fixture.Disk Demo.ops Demo.HOME Demo.cwd Fixture.parse
           ∅ None 8%nat Demo.disk Demo.now0 Demo.scenarioQuery Demo.report c').
  - apply Reach_start.
  - exact Hscan.
  - repeat constructor. vm_compute. discriminate.
Defined.

(** X19. What the server makes of the scan request of the page: a size or
    an age of 0 in the page is sent as no parameter, so that the server
    applies its defaults of 50 MB and 30 days and not "no bound"; the
    checked categories arrive as they are, and with none checked the server
    takes its four defaults; the downloads flag is set exactly when the
    downloads box is checked. *)
Theorem page_scan_request_as_the_server_reads_it (minBytes olderDays : Z) (cats : list string) :
  Forall (fun c => c ∈ CATEGORIES) cats ->
  scanOptions (parseQuery (Ui.scanRequest (Ui.getScanParamsFromUI minBytes olderDays cats))) =
    {| minBytes := Some (if minBytes =? 0 then DEFAULT_MIN_BYTES else minBytes);
       olderDays := Some (if olderDays =? 0 then DEFAULT_OLDER_DAYS else olderDays) |} /\
  effectiveCats (parseQuery (Ui.scanRequest (Ui.getScanParamsFromUI minBytes olderDays cats))) =
    match cats with
    | [] => ["user-caches"; "browsers"; "dev"; "pkg"]
    | _ => cats
    end /\
  q_downloads (parseQuery (Ui.scanRequest (Ui.getScanParamsFromUI minBytes olderDays cats))) =
    bool_decide ("downloads" ∈ cats).
Proof.
  intros Hcats. split.
  - unfold scanOptions. simpl.
    by destruct (minBytes =? 0), (olderDays =? 0).
  - destruct cats as [|c cs]; [done|].
    assert (Forall tidyName (c :: cs)) as Htidy.
    { eapply Forall_impl; [exact Hcats|]. apply UiQueryFacts.categories_tidy. }
    assert (Str.isEmpty (Str.join "," (c :: cs)) = false) as Hjoin.
    { inversion Htidy as [|?? (_ & _ & a & c' & -> & _) _]; subst.
      destruct (ResolveFacts.join_head "," (String a c') cs) as [t ->]. done. }
    assert (Str.split "," (Str.join "," (c :: cs)) = c :: cs) as Hsplit.
    { apply StrFacts.split_join; [done|].
      eapply Forall_impl; [exact Htidy|]. by intros x (? & _). }
    unfold Ui.scanRequest, Ui.getScanParamsFromUI. cbn [Ui.p_include].
    rewrite Hjoin, Hsplit. split.
    + unfold effectiveCats, parseQuery. cbn [q_include q_exclude q_downloads r_include r_exclude].
      rewrite UiQueryFacts.parseList_join by done. simpl. done.
    + unfold parseQuery. cbn [q_downloads r_downloads].
      by destruct (bool_decide ("downloads" ∈ c :: cs)).
Qed.

(** The page with a size of 0, an age of 7 days, and the caches and the
    downloads boxes checked. *)
Lemma page_scan_request_as_the_server_reads_it_witness :
  scanOptions (parseQuery (Ui.scanRequest
                 (Ui.getScanParamsFromUI 0 7 ["user-caches"; "downloads"]))) =
    {| minBytes := Some DEFAULT_MIN_BYTES; olderDays := Some 7 |} /\
  effectiveCats (parseQuery (Ui.scanRequest
                   (Ui.getScanParamsFromUI 0 7 ["user-caches"; "downloads"]))) =
    ["user-caches"; "downloads"] /\
  q_downloads (parseQuery (Ui.scanRequest
                 (Ui.getScanParamsFromUI 0 7 ["user-caches"; "downloads"]))) =
    bool_decide ("downloads" ∈ ["user-caches"; "downloads"]).
Proof.
  apply (page_scan_request_as_the_server_reads_it 0 7 ["user-caches"; "downloads"]).
  repeat constructor; apply list_elem_of_In; simpl; auto 10.
Defined.

Module FixtureFacts.
Import Str StrFacts PathFacts NormFacts ResolveFacts SafetyFacts TrashFacts ShFacts Fixture.
#[local] Arguments Ascii.eqb : simpl never.

Lemma length_app a b : String.length (a +:+ b) = (String.length a + String.length b)%nat.
Proof. induction a as [|c a IH]; [done|]. rewrite app_cons. simpl. by rewrite IH. Qed.

Lemma endsWith_app a suf : endsWith (a +:+ suf) suf = true.
Proof.
  induction a as [|c a IH].
  - rewrite app_empty_l. destruct suf; cbn [endsWith]; by rewrite String.eqb_refl.
  - rewrite app_cons. cbn [endsWith]. rewrite IH. apply orb_true_r.
Qed.

Lemma find_elem k n (d : Disk) : find k d = Some n -> (k, n) ∈ d.
Proof.
  induction d as [|[k' n'] d IH]; [done|]. simpl.
  destruct (String.eqb_spec k k') as [->|_].
  - intros [= ->]. apply list_elem_of_here.
  - intros ?%IH. by apply list_elem_of_further.
Qed.

(** A path is longer than the directory it is an entry of. *)
Lemma render_snoc_longer l n :
  n <> "" -> (String.length (render l) < String.length (render (l ++ [n])))%nat.
Proof.
  intros Hn. unfold render. destruct l as [|a l].
  - simpl. destruct n; [done|]. simpl. lia.
  - rewrite (join_app "/" (a :: l) [n]) by done.
    change ("/" +:+ ?x) with (String "/" x). simpl String.length.
    rewrite !length_app. simpl. lia.
Qed.

Section Disk.
Variables HOME cwd : string.
Variable locked : string -> bool.
Variable disk : Disk.
Variable bound : nat.
Hypothesis cwd_abs : Path.isAbsolute cwd = true.
Hypothesis keys_tidy : forallb (fun kn => tidyKey bound kn.1) disk = true.

Lemma key_tidy k n : (k, n) ∈ disk -> tidyKey bound k = true.
Proof using keys_tidy.
  intros Hin. rewrite forallb_forall in keys_tidy.
  apply (keys_tidy (k, n)). by apply list_elem_of_In.
Qed.

(** On a table of tidy keys, the walk goes down: the directories it
    enters from a directory have longer paths, none longer than the
    bound. *)
Lemma fixture_shallow :
  Shallow (H := diskOps cwd locked) HOME cwd disk (depthLeft cwd bound).
Proof using cwd_abs keys_tidy.
  intros d c Hc.
  apply (WalkExact.child_elem (H := diskOps cwd locked)) in Hc
    as (ents & ent & st & Hr & He & -> & _ & _ & Hl & _).
  simpl in Hr, Hl. unfold d_readdir in Hr. unfold d_lstat in Hl.
  destruct (follow 8 disk (key cwd d)) as [[| |]|]; try done.
  injection Hr as <-.
  apply list_elem_of_omap in He as ([k n] & Hkn & Hent).
  destruct (childName (key cwd d) k) as [name|] eqn:Hname; [|done].
  injection Hent as <-. simpl in *.
  unfold childName in Hname.
  destruct (stripPrefix (key cwd d +:+ "/") k) as [nm|] eqn:Hstrip; [|done].
  destruct (isEmpty nm || hasChar "/" nm) eqn:Hnm; [done|].
  injection Hname as ->. apply orb_false_iff in Hnm as [Hne Hfree].
  apply stripPrefix_spec in Hstrip. rewrite app_assoc' in Hstrip.
  pose proof (key_tidy k n Hkn) as Hk. unfold tidyKey in Hk.
  apply andb_true_iff in Hk as [[_ Hdot%negb_true_iff]%andb_true_iff Hdots%negb_true_iff].
  assert (plain name) as Hplain.
  { repeat split; [by destruct name| | |done].
    - intros ->. rewrite Hstrip in Hdot.
      change (key cwd d +:+ "/" +:+ ".") with (key cwd d +:+ "/.") in Hdot.
      by rewrite endsWith_app in Hdot.
    - intros ->. rewrite Hstrip in Hdots.
      change (key cwd d +:+ "/" +:+ "..") with (key cwd d +:+ "/..") in Hdots.
      by rewrite endsWith_app in Hdots. }
  destruct (find (key cwd (Path.join [d; name])) disk) as [n'|] eqn:Hfind; [|done].
  apply find_elem, key_tidy in Hfind. unfold tidyKey in Hfind.
  apply andb_true_iff in Hfind as [[Hlen%Nat.leb_le _]%andb_true_iff _].
  unfold depthLeft. unfold key in Hlen.
  assert (String.length (Path.resolve cwd d)
          < String.length (Path.resolve cwd (Path.join [d; name])))%nat; [|lia].
  rewrite !resolve_render by done.
  rewrite resolveSegs_join by (done || by constructor).
  apply render_snoc_longer. by destruct name.
Qed.
End Disk.
End FixtureFacts.

(** ** The scan returns *)

(** X20. On a directory tree of finite depth (the directories that a walk
    enters from a directory lie lower, by some measure), a scan call
    returns: from some amount of fuel on it gives one and the same report
    and cache. *)
Theorem scan_returns_on_a_tree_of_finite_depth
  {FS : Type} `{FsOps FS} (HOME cwd : string) (fs : FS) (height : string -> nat)
  (brewCache : option string) (now : Z) (c : gmap CacheKey (Z * Report)) (rq : RawQuery) :
  Shallow HOME cwd fs height ->
  exists n0 r c',
    forall fuel, (n0 <= fuel)%nat ->
      scanHandler HOME cwd brewCache fuel fs now c rq = Some (r, c').
Proof.
  intros Hshallow.
  destruct (Termination.scanHandler_settles HOME cwd fs height Hshallow brewCache now c rq)
    as (n0 & [r c'] & Hn). by exists n0, r, c'.
Qed.

(** The disk of the example: no path of it is longer than 40 characters. *)
Lemma scan_returns_on_a_tree_of_finite_depth_witness :
  exists n0 r c',
    forall fuel, (n0 <= fuel)%nat ->
      scanHandler (H := Demo.ops) Demo.HOME Demo.cwd None fuel Demo.disk Demo.now0 ∅
        Demo.scenarioQuery = Some (r, c').
Proof.
  apply (@scan_returns_on_a_tree_of_finite_depth Fixture.Disk Demo.ops Demo.HOME Demo.cwd
           Demo.disk (depthLeft Demo.cwd 40) None Demo.now0 ∅ Demo.scenarioQuery).
  apply FixtureFacts.fixture_shallow; reflexivity.
Defined.

Module TwinFacts.
Section Walk.
Context {FS : Type} `{FsOps FS}.
Variables HOME cwd : string.
Variable fs : FS.

Lemma Visited_trans a b c :
  Visited HOME cwd fs a b -> Visited HOME cwd fs b c -> Visited HOME cwd fs a c.
Proof.
  intros Hab. induction 1 as [|cur ents ent st Hv IH Hr He Hs Hd Hl Hk]; [done|].
  by eapply Visited_sub.
Qed.

(** What a walk collects below a directory that another walk reaches,
    the other walk collects as well, under its own category. *)
Lemma Collected_below now opts reason_ category_ reason' category' base d it :
  Visited HOME cwd fs base d ->
  Collected HOME cwd fs now opts reason_ category_ d it ->
  Collected HOME cwd fs now opts reason' category' base
    {| path := path it; bytes := bytes it; mtime := mtime it;
       category := category'; reason := reason'; trashable := true |}.
Proof.
  intros Hbase (cur & ents & ent & st & Hv & Hrest).
  exists cur, ents, ent, st. split; [by eapply Visited_trans|].
  simpl. destruct Hrest as (? & ? & ? & ? & ? & ? & ? & ? & ? & ? & _). by repeat split.
Qed.
End Walk.
End TwinFacts.

Lemma browse_scan : fst <$> Browse.scan = Some Browse.report.
Proof. vm_compute. reflexivity. Qed.

Lemma browse_scan_result :
  exists c', scanHandler (H := Demo.ops) Demo.HOME Demo.cwd None 8 Browse.disk Demo.now0 ∅
               (Demo.scanQuery None None QAbsent) = Some (Browse.report, c').
Proof.
  pose proof browse_scan as Hs. unfold Browse.scan in Hs.
  destruct (scanHandler _ _ _ _ _ _ _ _) as [[r c']|]; [|discriminate Hs].
  injection Hs as ->. by exists c'.
Qed.

(** ** The roots of a scan *)

Section RootExtras.
Context {FS : Type} `{FsOps FS}.
Variables HOME cwd : string.

(** X21. A scan call that does not answer from the cache reports exactly
    the files that the walks of its roots collect: an item is in the
    report if and only if one of the roots of the scan has a category
    that the query asks for and a base directory that exists, and the
    walk from that base directory collects the item under that category
    and reason. *)
Theorem scan_reports_exactly_what_its_roots_hold brewCache fuel fs now c rq r c' :
  scanHandler HOME cwd brewCache fuel fs now c rq = Some (r, c') ->
  (exists ts, c !! scanKey (parseQuery rq) = Some (ts, r) /\ now - ts < SCAN_CACHE_TTL_MS)
  \/ forall it,
       it ∈ items r <->
       FromRoots HOME cwd fs now (scanOptions (parseQuery rq)) (effectiveCats (parseQuery rq))
         (scanRoots HOME brewCache fs) it.
Proof.
  intros [(ts & Hk & Httl & _)|(_ & its & Hits & -> & _)]%CacheFacts.scanHandler_key;
    [left; eauto|right].
  apply RootFacts.collectAll_appends in Hits as (new & -> & Hnew). exact Hnew.
Qed.

(** X22. A file that the browsers walk collects below a browser cache
    directory which the walk of [~/Library/Caches] also reaches is
    reported twice by a scan that asks for both categories, once as
    [browsers] and once as [user-caches]; the totals count it twice. *)
Theorem browser_cache_file_is_reported_twice brewCache fuel fs now c rq r c' d it :
  scanHandler HOME cwd brewCache fuel fs now c rq = Some (r, c') ->
  c !! scanKey (parseQuery rq) = None ->
  includes (effectiveCats (parseQuery rq)) "user-caches" = true ->
  includes (effectiveCats (parseQuery rq)) "browsers" = true ->
  d ∈ [Path.join [HOME; "Library"; "Caches"; "com.apple.Safari"];
       Path.join [HOME; "Library"; "Caches"; "Google"; "Chrome"];
       Path.join [HOME; "Library"; "Caches"; "Microsoft Edge"];
       Path.join [HOME; "Library"; "Caches"; "Firefox"; "Profiles"]] ->
  existsSync fs (Path.join [HOME; "Library"; "Caches"]) = true ->
  existsSync fs d = true ->
  Visited HOME cwd fs (Path.join [HOME; "Library"; "Caches"]) d ->
  Collected HOME cwd fs now (scanOptions (parseQuery rq)) "Browser cache" "browsers" d it ->
  it ∈ items r /\ asUserCache it ∈ items r /\ asUserCache it <> it.
Proof.
  intros Hscan Hmiss Hu Hb Hd Hcaches Hexists Hreach Hcol.
  apply CacheFacts.scanHandler_key in Hscan
    as [(ts & Hk & _)|(_ & its & Hits & -> & _)]; [congruence|].
  apply RootFacts.collectAll_appends in Hits as (new & -> & Hnew). simpl.
  split; [|split].
  - apply Hnew. exists "browsers", "Browser cache", d. repeat split; try done.
    unfold scanRoots. apply elem_of_app. right. apply elem_of_app. left.
    apply list_elem_of_fmap. by exists d.
  - apply Hnew.
    exists "user-caches", "User Library cache", (Path.join [HOME; "Library"; "Caches"]).
    repeat split; try done.
    + unfold scanRoots. apply elem_of_app. left. apply list_elem_of_here.
    + by eapply (TwinFacts.Collected_below HOME cwd fs).
  - destruct Hcol as (? & ? & ? & ? & _ & _ & _ & _ & _ & _ & _ & _ & _ & _ & _ & Hcat & _).
    intros E. apply (f_equal category) in E. simpl in E. by rewrite Hcat in E.
Qed.
End RootExtras.

Lemma scan_reports_exactly_what_its_roots_hold_witness :
  (exists ts, (∅ : gmap CacheKey (Z * Report)) !! scanKey (parseQuery Demo.scenarioQuery)
                = Some (ts, Demo.report) /\ Demo.now0 - ts < SCAN_CACHE_TTL_MS)
  \/ forall it,
       it ∈ items Demo.report <->
       FromRoots (H := Demo.ops) Demo.HOME Demo.cwd Demo.disk Demo.now0
         (scanOptions (parseQuery Demo.scenarioQuery))
         (effectiveCats (parseQuery Demo.scenarioQuery))
         (scanRoots (H := Demo.ops) Demo.HOME None Demo.disk) it.
Proof.
  destruct demo_scan_result as [c' Hscan].
  apply (@scan_reports_exactly_what_its_roots_hold Fixture.Disk Demo.ops Demo.HOME Demo.cwd
           None 8%nat Demo.disk Demo.now0 ∅ Demo.scenarioQuery Demo.report c').
  exact Hscan.
Defined.

(** The 60 MB file in the Chrome cache of the example: twice in the report
    of a scan without parameters. *)
Lemma browser_cache_file_is_reported_twice_witness :
  Browse.blobItem ∈ items Browse.report /\
  asUserCache Browse.blobItem ∈ items Browse.report /\
  asUserCache Browse.blobItem <> Browse.blobItem.
Proof.
  destruct browse_scan_result as [c' Hscan].
  apply (@browser_cache_file_is_reported_twice Fixture.Disk Demo.ops Demo.HOME Demo.cwd
           None 8%nat Browse.disk Demo.now0 ∅ (Demo.scanQuery None None QAbsent)
           Browse.report c' Browse.chrome Browse.blobItem).
  - exact Hscan.
  - apply lookup_empty.
  - vm_compute. reflexivity.
  - vm_compute. reflexivity.
  - apply list_elem_of_In. vm_compute. auto.
  - vm_compute. reflexivity.
  - vm_compute. reflexivity.
  - change (Visited (H := Demo.ops) Demo.HOME Demo.cwd Browse.disk
              (Path.join [Demo.HOME; "Library"; "Caches"])
              (Path.join [Path.join [Path.join [Demo.HOME; "Library"; "Caches"];
                                     d_name {| d_name := "Google"; d_isDirectory := true |}];
                          d_name {| d_name := "Chrome"; d_isDirectory := true |}])).
    apply (Visited_sub (H := Demo.ops) Demo.HOME Demo.cwd Browse.disk
             (Path.join [Demo.HOME; "Library"; "Caches"])
             (Path.join [Path.join [Demo.HOME; "Library"; "Caches"];
                         d_name {| d_name := "Google"; d_isDirectory := true |}])
             [{| d_name := "Chrome"; d_isDirectory := true |}]
             {| d_name := "Chrome"; d_isDirectory := true |}
             {| st_kind := KDir; st_size := 0; st_mtimeMs := 0 |});
      [|vm_compute; reflexivity|apply list_elem_of_here|vm_compute; reflexivity..].
    apply (Visited_sub (H := Demo.ops) Demo.HOME Demo.cwd Browse.disk
             (Path.join [Demo.HOME; "Library"; "Caches"])
             (Path.join [Demo.HOME; "Library"; "Caches"])
             [{| d_name := "Google"; d_isDirectory := true |}]
             {| d_name := "Google"; d_isDirectory := true |}
             {| st_kind := KDir; st_size := 0; st_mtimeMs := 0 |});
      [apply Visited_base|vm_compute; reflexivity|apply list_elem_of_here
      |vm_compute; reflexivity..].
  - exists Browse.chrome, [{| d_name := "blob.bin"; d_isDirectory := false |}],
      {| d_name := "blob.bin"; d_isDirectory := false |},
      {| st_kind := KFile; st_size := 60 * Demo.MB; st_mtimeMs := Demo.now0 - 40 * Demo.day |}.
    split; [apply Visited_base|].
    split; [by vm_compute|]. split; [apply list_elem_of_here|].
    repeat split; by vm_compute.
Defined.

Module DenyRootFacts.
Import Str StrFacts PathFacts NormFacts ResolveFacts SafetyFacts TrashFacts ShFacts.
#[local] Arguments Ascii.eqb : simpl never.

Section Home.
Variables HOME cwd : string.
Hypothesis HOME_abs : Path.isAbsolute HOME = true.
Hypothesis cwd_abs : Path.isAbsolute cwd = true.

(** The path of a name below the home root, written with a slash. *)
Lemma below_home_segs name :
  Forall plain (split "/" name) ->
  Path.resolveSegs cwd (HOME +:+ "/" +:+ name) = homeSegs HOME cwd ++ split "/" name.
Proof using HOME_abs cwd_abs.
  intros Hname. unfold homeSegs.
  rewrite !resolveSegs_abs by (done || by apply isAbsolute_app).
  change (HOME +:+ "/" +:+ name) with (HOME +:+ String "/" name).
  rewrite split_app. by apply normalizeSegs_app_plain.
Qed.

Lemma deny_root_server name :
  name ∈ denyNames -> isDenyListed HOME cwd (HOME +:+ "/" +:+ name) = true.
Proof using HOME_abs cwd_abs.
  intros Hname. apply isDenyListed_complete; [done|]. left.
  exists (homeSegs HOME cwd ++ split "/" name). split.
  - unfold denyNames in Hname. unfold denyRoots.
    repeat (apply elem_of_cons in Hname as [->|Hname];
            [apply list_elem_of_In; simpl; auto 10|]).
    by apply elem_of_nil in Hname.
  - rewrite below_home_segs; [done|].
    unfold denyNames in Hname.
    repeat (apply elem_of_cons in Hname as [->|Hname];
            [repeat (constructor; [apply plain_name; reflexivity|]); constructor|]).
    by apply elem_of_nil in Hname.
Qed.

Lemma deny_root_shell name :
  name ∈ denyNames ->
  Sh.ensure_home_scope HOME (HOME +:+ "/" +:+ name) = true /\
  Sh.deny_listed HOME (HOME +:+ "/" +:+ name) = false.
Proof.
  intros Hname. split.
  - unfold Sh.ensure_home_scope.
    replace (HOME +:+ "/" +:+ name) with ((HOME +:+ "/") +:+ name) by by rewrite app_assoc'.
    apply startsWith_app.
  - unfold Sh.deny_listed, Sh.photosGlob. rewrite !startsWith_cancel.
    replace (HOME +:+ "/" +:+ name) with ((HOME +:+ "/") +:+ name) by by rewrite app_assoc'.
    rewrite stripPrefix_app.
    unfold denyNames in Hname.
    repeat (apply elem_of_cons in Hname as [->|Hname]; [reflexivity|]).
    by apply elem_of_nil in Hname.
Qed.
End Home.
End DenyRootFacts.

(** ** The deny-list of the shell front-end *)

(** X23. The shell deny-list covers what lies inside the five deny-listed
    directories, not the directories themselves: [HOME/Pictures],
    [HOME/Library/Mail], [HOME/Library/Mobile Documents], [HOME/Desktop] and
    [HOME/Documents], written without a final slash, pass the shell scope
    test and are not deny-listed by [deny_listed], so that [apply_plan],
    when the run is neither a dry run nor in trash mode, removes the
    directory with all it holds; the server deny-lists the same paths. *)
Theorem shell_deny_list_leaves_the_roots_unprotected
  {FS : Type} `{FsOps FS} (HOME cwd name ts : string) :
  Path.isAbsolute HOME = true ->
  Path.isAbsolute cwd = true ->
  name ∈ denyNames ->
  Sh.ensure_home_scope HOME (HOME +:+ "/" +:+ name) = true /\
  Sh.deny_listed HOME (HOME +:+ "/" +:+ name) = false /\
  isDenyListed HOME cwd (HOME +:+ "/" +:+ name) = true /\
  forall s : Sh.LoopState,
    existsSync (Sh.l_fs s) (HOME +:+ "/" +:+ name) = true ->
    Sh.l_fs (Sh.apply_one HOME ts false false s (HOME +:+ "/" +:+ name)) =
      (rmSync (Sh.l_fs s) (HOME +:+ "/" +:+ name) true).1.
Proof.
  intros Hh Hc Hname.
  destruct (DenyRootFacts.deny_root_shell HOME name Hname) as [Hscope Hdeny].
  split; [done|]. split; [done|].
  split; [by apply DenyRootFacts.deny_root_server|].
  intros s He. unfold Sh.apply_one. rewrite He, Hscope, Hdeny. simpl.
  by destruct (rmSync _ _ _) as [fs' [e|]].
Qed.

(** The documents of the example, through the shell: all gone. *)
Lemma shell_deny_list_leaves_the_roots_unprotected_witness :
  Sh.ensure_home_scope Demo.HOME (Demo.HOME +:+ "/" +:+ "Documents") = true /\
  Sh.deny_listed Demo.HOME (Demo.HOME +:+ "/" +:+ "Documents") = false /\
  isDenyListed Demo.HOME Demo.cwd (Demo.HOME +:+ "/" +:+ "Documents") = true /\
  forall s : Sh.LoopState,
    existsSync (FsOps := Demo.ops) (Sh.l_fs s) (Demo.HOME +:+ "/" +:+ "Documents") = true ->
    Sh.l_fs (Sh.apply_one (H := Demo.ops) Demo.HOME Demo.timestamp false false s
               (Demo.HOME +:+ "/" +:+ "Documents")) =
      (rmSync (FsOps := Demo.ops) (Sh.l_fs s) (Demo.HOME +:+ "/" +:+ "Documents") true).1.
Proof.
  apply (@shell_deny_list_leaves_the_roots_unprotected Fixture.Disk Demo.ops
           Demo.HOME Demo.cwd "Documents" Demo.timestamp).
  - reflexivity.
  - reflexivity.
  - apply list_elem_of_In. simpl. auto 10.
Defined.

Example shell_removes_documents :
  Fixture.find Demo.thesis
    (Sh.l_fs (Sh.apply_plan (H := Demo.ops) Demo.HOME Demo.timestamp false false Demo.disk
                ("/Users/u/Documents" +:+ String "010" ""))) = None /\
  Fixture.find Demo.thesis Demo.disk <> None.
Proof. vm_compute. split; [reflexivity|discriminate]. Qed.

(** ** The life of the server *)

Section LifeExtras.
Context {FS : Type} `{FsOps FS}.
Variables HOME cwd : string.
Variable JSON_parse : string -> option JSON.
Variable decodeURIComponent : string -> option string.
Variable extname : string -> string.
Variable readFile : FS -> string -> Outcome string.

(** What the server keeps over its life. *)
Lemma serves_inv sv :
  Path.isAbsolute cwd = true ->
  Serves HOME cwd JSON_parse decodeURIComponent extname readFile sv ->
  Reachable HOME cwd JSON_parse (sv_cache sv) /\
  Forall (callInScope HOME cwd) (sv_calls sv).
Proof.
  intros Habs.
  induction 1 as [fs|sv brewCache fuel now ts rq ans sv' Hsv [IHc IHcalls] Hserve
                 |sv fs' Hsv IH]; simpl.
  - split; constructor.
  - revert Hserve. unfold serve. destruct (route _ _).
    + by intros [= _ <-].
    + by intros [= _ <-].
    + intros ([r c'] & Hscan & [= _ <-])%bind_Some. simpl. split; [|done].
      by eapply Reach_scan.
    + intros [= _ <-]. simpl. split; [by apply Reach_apply|].
      apply Forall_app. split; [done|]. apply Forall_forall. intros call Hcall.
      pose proof (ApplyExact.applyLoop_calls HOME cwd ts
                    (q_dryRun (parseQuery (rq_query rq))) (q_mode (parseQuery (rq_query rq))))
        as Hloop.
      revert Hcall. unfold applyHandler.
      destruct (planItems _) as [its|]; [|by intros ?%elem_of_nil]. cbv zeta.
      destruct (Hloop its {| a_world := {| w_fs := sv_fs sv; w_calls := [] |};
                             a_details := []; a_totalBytes := 0; a_count := 0 |})
        as (new & Hnew & Hall).
      rewrite Forall_forall in Hall.
      destruct (applyLoop _ _ _ _ _ _ _) as [a [e|]]; simpl in *; rewrite Hnew;
        intros Hin; destruct (Hall _ Hin) as (it & p & _ & _ & Hfor & _ & Hne & Hs & Hd);
        exists ts, p; repeat split; try done;
        first [ by apply SafetyFacts.ensureHomeScoped_sound
              | intros Hu; eapply SafetyFacts.isDenyListed_sound;
                [exact Habs|exact Hd|by left]
              | intros Hu; eapply SafetyFacts.isDenyListed_sound;
                [exact Habs|exact Hd|by right] ].
    + by intros [= _ <-].
  - done.
Qed.

(** X25. Scan and apply agree on what may be touched: the path of an
    item of a report that a scan call returned is never skipped by the
    apply loop as outside the home root or as deny-listed, whatever the
    filesystem holds by then. *)
Theorem apply_never_skips_a_reported_item
  c brewCache fuel fs now rq r c' it ts dryRun mode (a : ApplyState) :
  Reachable HOME cwd JSON_parse c ->
  scanHandler HOME cwd brewCache fuel fs now c rq = Some (r, c') ->
  it ∈ items r ->
  exists d,
    a_details (applyPath HOME cwd ts dryRun mode a (path it)) = a_details a ++ [d] /\
    detailPath d = path it /\
    forall why, d <> DSkipped (path it) why.
Proof.
  intros Hc Hscan Hit.
  assert (Forall (fun it => ensureHomeScoped HOME cwd (path it) = true /\
                            isDenyListed HOME cwd (path it) = false) (items r)) as Hall.
  { eapply (ScanFacts.scan_report_inv HOME cwd JSON_parse
              (fun r => Forall (fun it => ensureHomeScoped HOME cwd (path it) = true /\
                                          isDenyListed HOME cwd (path it) = false) (items r)));
      [|exact Hc|exact Hscan].
    intros brew fuel' fs' now' opts cats its Hits. simpl.
    apply WalkFacts.collectAll_found in Hits.
    eapply Forall_impl; [exact Hits|]. intros it'. apply found_in_scope. }
  rewrite Forall_forall in Hall. destruct (Hall it Hit) as [Hs Hd].
  unfold applyPath. rewrite Hs, Hd. simpl.
  destruct (Str.isEmpty (path it) || negb (existsSync (w_fs (a_world a)) (path it)));
    [by eexists|].
  destruct dryRun; [by eexists|].
  destruct (String.eqb mode "delete").
  - destruct (rmSync _ _ _) as [fs' [e|]]; by eexists.
  - destruct (safeTrashMove _ _ _ _) as [w' [dest|e]]; by eexists.
Qed.
End LifeExtras.

(** X24. Over the whole life of the server (any requests in any order,
    with the filesystem changing in between), every mutating call it has
    made either made the trash directory of the home root, or removed or
    moved to that directory a path that is not empty and passed both tests
    of the apply loop: it lies strictly under the home root, is none of the
    five deny-listed directories, lies below none of them and not inside a
    photo-library bundle; and its scan cache is one that scan and apply
    calls alone have built. The directory of a photo library is itself
    such a path: a server that is asked to delete the bundle of the
    example removes it with all that is in it (second part). *)
Theorem server_touches_only_paths_that_pass_both_tests :
  (forall (FS : Type) (ops : FsOps FS) HOME cwd JSON_parse decodeURIComponent extname
          readFile (sv : Server FS),
      Path.isAbsolute cwd = true ->
      Serves HOME cwd JSON_parse decodeURIComponent extname readFile sv ->
      Reachable HOME cwd JSON_parse (sv_cache sv) /\
      Forall (callInScope HOME cwd) (sv_calls sv))
  /\ (let res := Photos.apply (Demo.applyQuery QAbsent (QStr "delete"))
                    (Demo.planBody [Photos.lib]) in
      Serves (H := Demo.ops) Demo.HOME Demo.cwd Fixture.parse
        Site.decode Site.extname Site.readFile
        {| sv_fs := fs_after res; sv_cache := cache_after res; sv_calls := [] ++ calls res |} /\
      calls res = [CallRm Photos.lib true] /\
      Fixture.find Photos.lib Photos.disk = Some Fixture.NDir /\
      Fixture.find Photos.db Photos.disk
        = Some (Fixture.NFile (200 * Demo.MB) (Demo.now0 - 400 * Demo.day)) /\
      Fixture.find Photos.lib (fs_after res) = None /\
      Fixture.find Photos.db (fs_after res) = None).
Proof.
  split.
  - intros FS ops HOME cwd JSON_parse decodeURIComponent extname readFile sv Habs Hsv.
    by eapply serves_inv.
  - split; [|repeat split; vm_compute; reflexivity].
    apply (Serves_request (H := Demo.ops) Demo.HOME Demo.cwd Fixture.parse
             Site.decode Site.extname Site.readFile
             {| sv_fs := Photos.disk; sv_cache := ∅; sv_calls := [] |}
             None 8%nat Demo.now0 Demo.timestamp
             {| rq_method := "POST"; rq_pathname := Some "/api/apply";
                rq_query := Demo.applyQuery QAbsent (QStr "delete");
                rq_body := Demo.planBody [Photos.lib] |}
             (Applied (response (Photos.apply (Demo.applyQuery QAbsent (QStr "delete"))
                                   (Demo.planBody [Photos.lib]))))).
    + apply Serves_start.
    + reflexivity.
Qed.

(** A server that starts on the disk of the example and answers one apply
    request in trash mode. *)
Lemma server_touches_only_paths_that_pass_both_tests_witness :
  let res := Demo.apply Demo.ops (Demo.applyQuery QAbsent QAbsent) (Demo.planBody [Demo.small]) in
  Reachable (H := Demo.ops) Demo.HOME Demo.cwd Fixture.parse (cache_after res) /\
  Forall (callInScope Demo.HOME Demo.cwd) ([] ++ calls res).
Proof.
  intros res.
  apply (proj1 server_touches_only_paths_that_pass_both_tests Fixture.Disk Demo.ops
           Demo.HOME Demo.cwd Fixture.parse Site.decode Site.extname Site.readFile
           {| sv_fs := fs_after res; sv_cache := cache_after res; sv_calls := [] ++ calls res |}).
  - reflexivity.
  - apply (Serves_request (H := Demo.ops) Demo.HOME Demo.cwd Fixture.parse
             Site.decode Site.extname Site.readFile
             {| sv_fs := Demo.disk; sv_cache := ∅; sv_calls := [] |}
             None 8%nat Demo.now0 Demo.timestamp
             {| rq_method := "POST"; rq_pathname := Some "/api/apply";
                rq_query := Demo.applyQuery QAbsent QAbsent;
                rq_body := Demo.planBody [Demo.small] |}
             (Applied (response res))).
    + apply Serves_start.
    + reflexivity.
Defined.

Lemma apply_never_skips_a_reported_item_witness :
  let a0 := {| a_world := {| w_fs := Demo.disk; w_calls := [] |};
               a_details := []; a_totalBytes := 0; a_count := 0 |} in
  exists d,
    a_details (applyPath (H := Demo.ops) Demo.HOME Demo.cwd Demo.timestamp true "trash" a0
                 (path Demo.bigItem)) = a_details a0 ++ [d] /\
    detailPath d = path Demo.bigItem /\
    forall why, d <> DSkipped (path Demo.bigItem) why.
Proof.
  intros a0. destruct demo_scan_result as [c' Hscan].
  apply (@apply_never_skips_a_reported_item Fixture.Disk Demo.ops Demo.HOME Demo.cwd
           Fixture.parse ∅ None 8%nat Demo.disk Demo.now0 Demo.scenarioQuery Demo.report c'
           Demo.bigItem Demo.timestamp true "trash" a0).
  - apply Reach_start.
  - exact Hscan.
  - apply list_elem_of_here.
Defined.

Module CliFacts.
Import Cli.

(** By induction on the number of words, through every case of
    [parse_args]. *)
Ltac keeps :=
  let n := fresh "n" in let IH := fresh "IH" in
  intros args; remember (length args) as n eqn:Hn; revert args Hn;
  induction n as [n IH] using lt_wf_ind; intros args Hn e e' Hw He;
  destruct args as [|a rest]; [by intros [= <-]|]; simpl in Hn; cbn [parse_args];
  rewrite not_elem_of_cons in Hw; destruct Hw as [Ha Hw];
  repeat match goal with
         | |- context [String.eqb a ?w] =>
             destruct (String.eqb_spec a w) as [->|?]; [try done|]
         end; try done;
  try (apply (IH (length rest)); [lia|done|done|done]);
  try (destruct rest as [|v rest']; [done|];
       rewrite not_elem_of_cons in Hw; destruct Hw as [_ Hw];
       apply (IH (length rest')); [simpl in *; lia|done|done|done]).

Section Keeps.
Variables HOME_DIR stamp : string.

(** A variable keeps its value as long as the word that changes it does
    not occur. *)
Lemma parse_args_dry : forall args e e',
  "--apply" ∉ args -> e "DRY_RUN" = "1" ->
  parse_args HOME_DIR stamp args e = Some e' -> e' "DRY_RUN" = "1".
Proof. keeps. Qed.

Lemma parse_args_trash : forall args e e',
  "--no-trash" ∉ args -> e "USE_TRASH" = "1" ->
  parse_args HOME_DIR stamp args e = Some e' -> e' "USE_TRASH" = "1".
Proof. keeps. Qed.

Lemma parse_args_yes : forall args e e',
  "--yes" ∉ args -> e "YES" = "0" ->
  parse_args HOME_DIR stamp args e = Some e' -> e' "YES" = "0".
Proof. keeps. Qed.

Lemma parse_args_from : forall args e e',
  "--apply-from" ∉ args -> e "APPLY_FROM" = "" ->
  parse_args HOME_DIR stamp args e = Some e' -> e' "APPLY_FROM" = "".
Proof. keeps. Qed.

(** [USE_TRASH] holds 0 or 1. *)
Lemma parse_args_trash_bit : forall args e e',
  e "USE_TRASH" = "0" \/ e "USE_TRASH" = "1" ->
  parse_args HOME_DIR stamp args e = Some e' ->
  e' "USE_TRASH" = "0" \/ e' "USE_TRASH" = "1".
Proof.
  intros args. remember (length args) as n eqn:Hn. revert args Hn.
  induction n as [n IH] using lt_wf_ind. intros args Hn e e' He.
  destruct args as [|a rest]; [by intros [= <-]|]. simpl in Hn. cbn [parse_args].
  repeat match goal with
         | |- context [String.eqb a ?w] =>
             destruct (String.eqb_spec a w) as [->|?]
         end; try done;
    try (apply (IH (length rest)); [lia|done|by auto]);
    try (destruct rest as [|v rest']; [done|];
         apply (IH (length rest')); [simpl in *; lia|done|by auto]).
Qed.

(** The easy mode leaves these four variables. *)
Lemma easy_keeps e x :
  x ∈ ["DRY_RUN"; "USE_TRASH"; "YES"; "APPLY_FROM"] -> easy e x = e x.
Proof.
  intros Hx. unfold easy. destruct (isOne e "EASY"); [|done].
  destruct (Str.isEmpty (e "MIN_SIZE"));
    destruct (Str.isEmpty (_ "OLDER_THAN"));
    destruct (isOne _ "ENABLE_DOWNLOADS");
    repeat (apply elem_of_cons in Hx as [->|Hx]; [reflexivity|]);
    by apply elem_of_nil in Hx.
Qed.
End Keeps.
End CliFacts.

(** ** The command line *)

(** X26. The shell front-end removes only when told: when [main] reaches
    [apply_plan], the run is a dry run unless the word [--apply] is among
    the arguments, it moves to the trash unless the word [--no-trash] is
    among them, and then only if [--yes] is among them or the user
    confirmed; and the plan file was given with [--apply-from]. *)
Theorem cli_removes_only_when_told
  (HOME_DIR stamp : string) (args : list string) (confirmed dry trash : bool) (plan : string) :
  Cli.toApply HOME_DIR stamp args confirmed = Some (dry, trash, plan) ->
  (dry = false -> "--apply" ∈ args) /\
  (trash = false -> "--no-trash" ∈ args /\ ("--yes" ∈ args \/ confirmed = true)) /\
  "--apply-from" ∈ args.
Proof.
  unfold Cli.toApply. intros (e & Hparse & Hrest)%bind_Some. cbv zeta in Hrest.
  destruct (Cli.isOne (Cli.easy e) "SERVE"); [done|].
  destruct (Str.isEmpty (Cli.easy e "SCAN_OUTPUT") && Str.isEmpty (Cli.easy e "APPLY_FROM"));
    [done|].
  destruct (Str.isEmpty (Cli.easy e "APPLY_FROM")) eqn:Hfrom; [done|].
  destruct (String.eqb (Cli.easy e "USE_TRASH") "0" && negb (Cli.isOne (Cli.easy e) "YES")
            && negb confirmed) eqn:Hconfirm; [done|].
  injection Hrest as <- <- <-. unfold Cli.isOne in *.
  rewrite !CliFacts.easy_keeps in * by (apply list_elem_of_In; simpl; auto 10).
  split; [|split].
  - intros Hdry. destruct (decide ("--apply" ∈ args)) as [|Hno]; [done|].
    by rewrite (CliFacts.parse_args_dry _ _ _ _ _ Hno eq_refl Hparse) in Hdry.
  - intros Htrash.
    destruct (decide ("--no-trash" ∈ args)) as [Hin|Hno];
      [|by rewrite (CliFacts.parse_args_trash _ _ _ _ _ Hno eq_refl Hparse) in Htrash].
    split; [done|].
    destruct (decide ("--yes" ∈ args)) as [|Hnoyes]; [by left|right].
    rewrite (CliFacts.parse_args_yes _ _ _ _ _ Hnoyes eq_refl Hparse) in Hconfirm.
    destruct (CliFacts.parse_args_trash_bit _ _ _ _ _ (or_intror eq_refl) Hparse) as [E|E];
      rewrite E in Hconfirm, Htrash; [|done].
    by destruct confirmed.
  - destruct (decide ("--apply-from" ∈ args)) as [|Hno]; [done|].
    by rewrite (CliFacts.parse_args_from _ _ _ _ _ Hno eq_refl Hparse) in Hfrom.
Qed.

Lemma cli_removes_only_when_told_witness :
  (false = false -> "--apply" ∈ ["--apply-from"; "plan.json"; "--apply"; "--no-trash"; "--yes"]) /\
  (false = false ->
   "--no-trash" ∈ ["--apply-from"; "plan.json"; "--apply"; "--no-trash"; "--yes"] /\
   ("--yes" ∈ ["--apply-from"; "plan.json"; "--apply"; "--no-trash"; "--yes"] \/ false = true)) /\
  "--apply-from" ∈ ["--apply-from"; "plan.json"; "--apply"; "--no-trash"; "--yes"].
Proof.
  apply (cli_removes_only_when_told "/Users/u" "20261103-074100"
           ["--apply-from"; "plan.json"; "--apply"; "--no-trash"; "--yes"]
           false false false "plan.json").
  vm_compute. reflexivity.
Defined.

(** X27. Without the word [--apply] among its arguments, the shell
    front-end moves and removes nothing, whatever else the arguments and
    the plan file hold. *)
Theorem cli_without_apply_mutates_nothing
  {FS : Type} `{FsOps FS} (HOME_DIR stamp ts : string) (readPlan : string -> option string)
  (args : list string) (confirmed : bool) (fs : FS) :
  "--apply" ∉ args ->
  Cli.applied HOME_DIR stamp ts readPlan args confirmed fs = fs.
Proof.
  intros Hno. unfold Cli.applied.
  destruct (Cli.toApply HOME_DIR stamp args confirmed) as [[[dry trash] plan]|] eqn:Hto; [|done].
  destruct (readPlan plan) as [content|]; [|done].
  assert (dry = true) as ->.
  { revert Hto. unfold Cli.toApply. intros (e & Hparse & Hrest)%bind_Some. cbv zeta in Hrest.
    repeat match type of Hrest with
           | (if ?b then None else _) = Some _ => destruct b; [done|]
           end.
    injection Hrest as <- _ _. unfold Cli.isOne.
    rewrite CliFacts.easy_keeps by (apply list_elem_of_In; simpl; auto 10).
    by rewrite (CliFacts.parse_args_dry _ _ _ _ _ Hno eq_refl Hparse). }
  unfold Sh.apply_plan.
  apply (ShFacts.fold_left_elem_inv_all
           (fun s => Sh.l_fs s = fs /\ Forall (fun e => dryEvent e = true) (Sh.l_log s))).
  - intros s p [Hfs Hlog].
    destruct (ShFacts.apply_one_dry HOME_DIR ts trash s p Hlog) as [-> ?]. done.
  - by split.
Qed.

(** The text plan of the example, with every other word that asks for a
    removal. *)
Lemma cli_without_apply_mutates_nothing_witness :
  Cli.applied (H := Demo.ops) Demo.HOME "20261103-074100" Demo.timestamp
    (fun _ => Some Demo.textPlan)
    ["--apply-from"; "plan.txt"; "--no-trash"; "--yes"] true Demo.disk = Demo.disk.
Proof.
  apply (@cli_without_apply_mutates_nothing Fixture.Disk Demo.ops Demo.HOME
           "20261103-074100" Demo.timestamp (fun _ => Some Demo.textPlan)
           ["--apply-from"; "plan.txt"; "--no-trash"; "--yes"] true Demo.disk).
  intros Hin. apply list_elem_of_In in Hin. simpl in Hin.
  repeat destruct Hin as [Hin|Hin]; try discriminate Hin. exact Hin.
Defined.

(** ** Failures inside the apply loop *)

Section IsolationExtras.
Context {FS : Type} `{FsOps FS}.
Variables HOME cwd : string.
Variable JSON_parse : string -> option JSON.
Variable ts : string.

(** X28. For a plan whose body parses and whose items all have a path
    that can be read, the handler answers with a summary and one entry
    per item, in plan order, whatever fails on the way; the summary
    counts exactly the entries [dry], [trashed] and [deleted] and adds
    their bytes. An item whose removal or move throws gets the entry
    [error] with the cause and adds nothing to the totals, and the loop
    goes on with the next item. *)
Theorem apply_isolates_item_failures fs c rq body its paths :
  planItems (readJsonBody JSON_parse body) = Some its ->
  Forall2 (fun it p => itemPath it = Ok p) its paths ->
  (exists summary details,
      response (applyHandler HOME cwd JSON_parse ts fs c rq body)
        = Some (Resp200 summary details) /\
      Forall2 (fun it d => itemPath it = Ok (detailPath d)) its details /\
      s_count summary = Z.of_nat (length (omap countedBytes details)) /\
      s_bytes summary = floatSum (omap countedBytes details))
  /\ (forall mode a p w' e,
        p <> "" -> existsSync (w_fs (a_world a)) p = true ->
        ensureHomeScoped HOME cwd p = true -> isDenyListed HOME cwd p = false ->
        mutationThrows HOME ts mode (a_world a) p w' e ->
        applyPath HOME cwd ts false mode a p = pushError a w' (DError p e) /\
        countedBytes (DError p e) = None)
  /\ (forall dryRun mode it p rest a,
        itemPath it = Ok p ->
        applyLoop HOME cwd ts dryRun mode (it :: rest) a =
          applyLoop HOME cwd ts dryRun mode rest (applyPath HOME cwd ts dryRun mode a p)).
Proof.
  intros Hplan Hpaths. split; [|split].
  - unfold applyHandler. rewrite Hplan.
    set (a0 := {| a_world := {| w_fs := fs; w_calls := [] |}; a_details := [];
                  a_totalBytes := 0; a_count := 0 |}).
    destruct (ApplyFacts.applyLoop_details HOME cwd ts (q_dryRun (parseQuery rq))
                (q_mode (parseQuery rq)) its paths a0 Hpaths) as (a' & ds & Hloop & Hds & Hall).
    pose proof (ApplyFacts.applyLoop_inv HOME cwd ts Tallied (q_dryRun (parseQuery rq))
                  (q_mode (parseQuery rq)) its a0) as Ht.
    rewrite Hloop in *. simpl in Hds. subst ds.
    destruct Ht as [Hc Hb].
    { intros a p. apply ApplyFacts.applyPath_tallied. }
    { by split. }
    eexists _, _. split; [done|]. by repeat split.
  - intros mode a p w' e Hp He Hs Hd Hthrow. split; [|done].
    by apply ApplyFacts.applyPath_throws.
  - intros dryRun mode it p rest a Hit. cbn [applyLoop]. by rewrite Hit.
Qed.
End IsolationExtras.

(** A plan of two files, the first of which cannot be removed. *)
Lemma apply_isolates_item_failures_witness :
  exists summary details,
    response (Demo.apply Demo.opsLocked (Demo.applyQuery QAbsent (QStr "delete"))
                (Demo.planBody [Demo.big; Demo.small]))
      = Some (Resp200 summary details) /\
    Forall2 (fun it d => itemPath it = Ok (detailPath d))
            [JObj [("path", JStr Demo.big)]; JObj [("path", JStr Demo.small)]] details /\
    s_count summary = Z.of_nat (length (omap countedBytes details)) /\
    s_bytes summary = floatSum (omap countedBytes details).
Proof.
  apply (@apply_isolates_item_failures Fixture.Disk Demo.opsLocked Demo.HOME Demo.cwd
           Fixture.parse Demo.timestamp Demo.disk ∅ (Demo.applyQuery QAbsent (QStr "delete"))
           (Demo.planBody [Demo.big; Demo.small])
           [JObj [("path", JStr Demo.big)]; JObj [("path", JStr Demo.small)]]
           [Demo.big; Demo.small]).
  - vm_compute. reflexivity.
  - repeat constructor.
Defined.
